(** * planckton-flow: the workflow of [src/project.py]

    A shallow embedding of the labels ([current_step], [sampled], [rdfed]),
    of the throughput parser ([get_tps_time]) and of the analysis operation
    ([post_proc]) of the signac-flow project, with the properties of the
    project's specification stated about them.

    Python values are embedded as follows.  A [str] is a Rocq [string] whose
    characters stand for code points below 256.  A Python [int] is a [Z].
    Code that raises is code that returns [Raise e]; code with side effects
    (local variables, the workspace, the job document, matplotlib's figures)
    runs in the state-and-exception monad [M], in which the state reached
    before an exception survives it, as in Python.

    Of the simulation operation [sample], the conditions it is registered
    with and its last step, the record of the throughput, are embedded; its
    calls into planckton and the cluster environments are not. *)

From Stdlib Require Import ZArith Ascii String List Bool Lia.
From Stdlib Require Import DecimalString DecimalN PrimFloat.
From stdpp Require Import base option list gmap strings.

Local Open Scope Z_scope.
#[local] Set Warnings "-inexact-float".

(** ** Exceptions and the monad *)

(** The classes of the exceptions that the program meets.  [OSError] stands
    for an [OSError] whose errno, and with it the subclass, is left to the
    library that raises it; the four subclasses listed are raised by
    Python's own [open], [os.mkdir] and [os.makedirs].  Of these classes the
    program catches [IndexError], in [get_tps_time], and no other. *)
Inductive exn : Set :=
| IndexError
| ValueError
| TypeError
| AttributeError
| UnboundLocalError
| OSError
| FileExistsError
| FileNotFoundError
| NotADirectoryError
| IsADirectoryError
| RuntimeError.

#[global] Instance exn_eq_dec : EqDecision exn.
Proof. solve_decision. Defined.

Inductive result (A : Type) : Type :=
| Ok (a : A)
| Raise (e : exn).
Arguments Ok {A} a.
Arguments Raise {A} e.

Definition M (S A : Type) : Type := S -> S * result A.

Definition ret {S A} (a : A) : M S A := fun s => (s, Ok a).

Definition bind {S A B} (m : M S A) (k : A -> M S B) : M S B :=
  fun s =>
    match m s with
    | (s', Ok a) => k a s'
    | (s', Raise e) => (s', Raise e)
    end.

(** stdpp's notations [x ← m; k] and [m ;; k] for [bind]. *)
#[global] Instance M_ret {S} : MRet (M S) := fun A => @ret S A.
#[global] Instance M_bind {S} : MBind (M S) := fun A B k m => @bind S A B m k.

Definition get {S} : M S S := fun s => (s, Ok s).

Definition modify {S} (f : S -> S) : M S unit := fun s => (f s, Ok tt).

(** [lift r] turns the outcome of a pure, fallible computation into a step. *)
Definition lift {S A} (r : result A) : M S A := fun s => (s, r).

(** [try: body except e: handler]. *)
Definition try_except {S A} (body : M S A) (e : exn) (handler : M S A) : M S A :=
  fun s =>
    match body s with
    | (s', Raise e') => if decide (e' = e) then handler s' else (s', Raise e')
    | r => r
    end.

(** [for x in xs: body x]. *)
Fixpoint for_each {S A} (xs : list A) (body : A -> M S unit) : M S unit :=
  match xs with
  | [] => ret tt
  | x :: xs' => body x ;; for_each xs' body
  end.

(** ** Python's [str] and [list] primitives used by the project *)

Module Py.

(** [xs[-1]]. *)
Definition index_last {A} (xs : list A) : result A :=
  match last xs with
  | Some x => Ok x
  | None => Raise IndexError
  end.

(** [xs[i]] for a non-negative [i]. *)
Definition index {A} (xs : list A) (i : nat) : result A :=
  match xs !! i with
  | Some x => Ok x
  | None => Raise IndexError
  end.

(** [a, b, c = xs]. *)
Definition unpack3 {A} (xs : list A) : result (A * A * A) :=
  match xs with
  | [a; b; c] => Ok (a, b, c)
  | _ => Raise ValueError
  end.

(** [s.startswith(p)]. *)
Fixpoint startswith (p s : string) : bool :=
  match p, s with
  | EmptyString, _ => true
  | String a p', String b s' => if decide (a = b) then startswith p' s' else false
  | String _ _, EmptyString => false
  end.

(** [needle in hay]. *)
Fixpoint contains (needle hay : string) : bool :=
  startswith needle hay ||
  match hay with
  | EmptyString => false
  | String _ hay' => contains needle hay'
  end.

(** Membership of a character in the argument of [strip]. *)
Fixpoint char_in (c : ascii) (chars : string) : bool :=
  match chars with
  | EmptyString => false
  | String a chars' => if decide (a = c) then true else char_in c chars'
  end.

Fixpoint lstrip_by (p : ascii -> bool) (s : string) : string :=
  match s with
  | EmptyString => EmptyString
  | String a s' => if p a then lstrip_by p s' else s
  end.

Definition rstrip_by (p : ascii -> bool) (s : string) : string :=
  String.rev (lstrip_by p (String.rev s)).

Definition strip_by (p : ascii -> bool) (s : string) : string :=
  rstrip_by p (lstrip_by p s).

(** [str.isspace] on the code points below 256: TAB, LF, VT, FF, CR,
    FS, GS, RS, US, SPACE, NEL and NBSP. *)
Definition isspace (c : ascii) : bool :=
  let n := N_of_ascii c in
  ((9 <=? n) && (n <=? 13) || (28 <=? n) && (n <=? 32) ||
   (n =? 133) || (n =? 160))%N.

(** [s.strip(chars)] and [s.strip()]. *)
Definition strip_chars (chars s : string) : string :=
  strip_by (fun c => char_in c chars) s.

Definition strip (s : string) : string := strip_by isspace s.

(** [s.split(sep)] for a separator of one character. *)
Fixpoint split (sep : ascii) (s : string) : list string :=
  match s with
  | EmptyString => [EmptyString]
  | String a s' =>
      if decide (a = sep) then EmptyString :: split sep s'
      else match split sep s' with
           | x :: xs => String a x :: xs
           | [] => [String a EmptyString]
           end
  end.

Definition digit_val (c : ascii) : option Z :=
  let n := N_of_ascii c in
  if ((48 <=? n) && (n <=? 57))%N then Some (Z.of_N n - 48) else None.

(** The digits of an [int] literal: decimal digits, with single underscores
    allowed between two digits.  [acc] is the value read so far and [prev]
    tells whether the previous character was a digit. *)
Fixpoint int_digits (acc : Z) (prev : bool) (s : string) : option Z :=
  match s with
  | EmptyString => if prev then Some acc else None
  | String c s' =>
      match digit_val c with
      | Some d => int_digits (10 * acc + d) true s'
      | None =>
          if decide (c = "_"%char) then
            if prev then
              match s' with
              | EmptyString => None
              | String c' _ =>
                  match digit_val c' with
                  | Some _ => int_digits acc false s'
                  | None => None
                  end
              end
            else None
          else None
      end
  end.

(** The blanks that [int] skips at both ends of a [str]: TAB, LF, VT, FF, CR
    and SPACE, and above 127 the blanks NEL and NBSP.  The separators FS,
    GS, RS and US, which [str.strip] removes, are not among them. *)
Definition int_space (c : ascii) : bool :=
  let n := N_of_ascii c in
  ((9 <=? n) && (n <=? 13) || (n =? 32) || (n =? 133) || (n =? 160))%N.

(** The number of digits in a string, and the most that [int] accepts:
    [sys.get_int_max_str_digits()], 4300 unless it is reconfigured. *)
Fixpoint count_digits (s : string) : N :=
  match s with
  | EmptyString => 0
  | String c s' =>
      match digit_val c with
      | Some _ => N.succ (count_digits s')
      | None => count_digits s'
      end
  end.

Definition int_max_str_digits : N := 4300.

(** An optional sign and the digits. *)
Definition int_signed (body : string) : option Z :=
  match body with
  | String "-" rest => option_map Z.opp (int_digits 0 false rest)
  | String "+" rest => int_digits 0 false rest
  | _ => int_digits 0 false body
  end.

(** [int(s)] for a [str] argument, base 10. *)
Definition int (s : string) : result Z :=
  let body := strip_by int_space s in
  match int_signed body with
  | Some z =>
      if (int_max_str_digits <? count_digits body)%N then Raise ValueError else Ok z
  | None => Raise ValueError
  end.

(** The decimal digits of a natural number. *)
Definition decimal (n : N) : string := NilZero.string_of_uint (N.to_uint n).

(** [format(z, "02d")]: sign-aware zero padding to width 2. *)
Definition format_02d (z : Z) : string :=
  if z <? 0 then String "-" (decimal (Z.to_N (- z)))
  else
    let d := decimal (Z.to_N z) in
    if (String.length d <? 2)%nat then String "0" d else d.

End Py.

(** ** The throughput parser: [get_tps_time] *)

Module Numpy.

(** What [np.sum] returns on a list of Python integers, as far as
    [get_tps_time] can tell the cases apart.  A C long has 64 bits on the
    Linux clusters the project runs on. *)
Inductive scalar : Set :=
| Float64                (* the empty list sums to the float [0.0] *)
| Int64 (total : Z)      (* every element fits a C long *)
| Wide.                  (* some element does not fit a C long *)

Definition in_int64 (z : Z) : bool := (- 2 ^ 63 <=? z) && (z <? 2 ^ 63).

(** Two's complement wrap-around of the 64-bit accumulator. *)
Definition wrap_int64 (z : Z) : Z := (z + 2 ^ 63) mod 2 ^ 64 - 2 ^ 63.

Definition total (xs : list Z) : Z := foldr Z.add 0 xs.

Definition sum (xs : list Z) : scalar :=
  match xs with
  | [] => Float64
  | _ :: _ => if forallb in_int64 xs then Int64 (wrap_int64 (total xs)) else Wide
  end.

End Numpy.

Section ThroughputParser.

(** What lines 224 to 228 make of a list of seconds in which some element is
    outside the range of a C long.  There numpy no longer sums in [int64]
    (it picks [uint64], [float64] or [object], depending on the values and
    on its version), so the outcome is left as a parameter. *)
Variable wide_hms : list Z -> result string.

(** The local variables that the loop of [get_tps_time] assigns: [tps] is
    unbound until the first assignment. *)
Record locals : Type := Locals {
  tps : option string;
  times : list Z;
}.

Definition set_tps (v : string) : M locals unit :=
  modify (fun l => {| tps := Some v; times := times l |}).

Definition times_append (t : Z) : M locals unit :=
  modify (fun l => {| tps := tps l; times := times l ++ [t] |}).

(** The body of the loop, for the lines that [f.readlines()] returned. *)
Definition parse_log (lines : list string) : M locals unit :=
  try_except
    (tpsline ← lift (Py.index_last (filter (λ l, Py.contains "Average TPS" l) lines));
     set_tps (Py.strip (Py.strip_chars "Average TPS:" tpsline));;
     let t_lines := filter (λ l, Py.contains "Time" l) lines in
     t_last ← lift (Py.index_last t_lines);
     field ← lift (Py.index (Py.split " " t_last) 1);
     '(h, m, s) ← lift (Py.unpack3 (Py.split ":" field));
     h' ← lift (Py.int h);
     m' ← lift (Py.int m);
     s' ← lift (Py.int s);
     times_append (h' * 3600 + m' * 60 + s'))
    IndexError
    (ret tt).

(** Reading the local [tps] at the [return]. *)
Definition read_tps (l : locals) : result string :=
  match tps l with
  | Some v => Ok v
  | None => Raise UnboundLocalError
  end.

(** [f"{hh:02d}:{mm:02d}:{ss:02d}"] for an integer total. *)
Definition hms_of_total (total_time : Z) : string :=
  let hh := total_time / 3600 in
  let mm := (total_time - hh * 3600) / 60 in
  let ss := total_time mod 60 in
  Py.format_02d hh +:+ ":" +:+ Py.format_02d mm +:+ ":" +:+ Py.format_02d ss.

(** Lines 224 to 228.  On the float that the empty list sums to, [//], [-]
    and [%] go through and the format code [d] raises [ValueError]; the
    tuple's first component, [tps], is read before the string is formatted. *)
Definition finish (l : locals) : result (string * string) :=
  match Numpy.sum (times l) with
  | Numpy.Float64 =>
      match read_tps l with
      | Ok _ => Raise ValueError
      | Raise e => Raise e
      end
  | Numpy.Int64 total_time =>
      match read_tps l with
      | Ok v => Ok (v, hms_of_total total_time)
      | Raise e => Raise e
      end
  | Numpy.Wide =>
      match wide_hms (times l), read_tps l with
      | Ok str, Ok v => Ok (v, str)
      | Raise e, _ => Raise e
      | _, Raise e => Raise e
      end
  end.

(** [get_tps_time(outfiles)], each file given by its lines. *)
Definition get_tps_time (outfiles : list (list string)) : result (string * string) :=
  match for_each outfiles parse_log {| tps := None; times := [] |} with
  | (l, Ok _) => finish l
  | (_, Raise e) => Raise e
  end.

End ThroughputParser.

(** ** Trajectories, artifacts and the world an operation runs in *)

Definition vec3 : Type := float * float * float.
Definition quaternion : Type := float * float * float * float.

(** A frame of [trajectory.gsd]: [configuration.step], [configuration.box],
    [particles.types] and, per particle, [particles.typeid] and
    [particles.position].  The step counter is unsigned in the file format. *)
Record frame : Type := Frame {
  step : N;
  box : list float;
  types : list string;
  particles : list (nat * vec3);
}.

(** The numeric libraries are not part of the repository.  What they compute
    is kept as a term that records the call and its arguments.  Of their
    failures the model has those that the program brings about by itself:
    freud rejects positions that do not make an array of frames (see
    [Freud.msd] below). *)

(** [gsd_rdf(gsdfile, A_name, B_name, r_min=.., r_max=..)]. *)
Record rdf_call : Type := GsdRdf {
  rdf_gsdfile : string;
  A_name : string;
  B_name : string;
  r_min : float;
  r_max : float;
}.

(** [freud.msd.MSD(box=.., mode=..).compute(positions)]. *)
Record msd_call : Type := FreudMsd {
  msd_box : list float;
  msd_positions : list (list vec3);
  msd_mode : string;
}.

Inductive array : Type :=
| RdfBinCenters (c : rdf_call)          (* [rdf.bin_centers] *)
| RdfNormalized (c : rdf_call)          (* [rdf.rdf * norm] *)
| MsdSeries (m : msd_call)              (* [msd.msd] *)
| Orientations (qs : list quaternion).  (* a list of quaternions as an array *)

(** [stats.linregress(x, y).slope]. *)
Inductive slope : Type :=
| LinregressSlope (x : list nat) (y : array).

(** What is drawn on a matplotlib figure.  Labels, titles, legends and
    colours are decoration and are left out. *)
Inductive artist : Type :=
| Plot (x : option array) (y : array) (label : option string)
| DiffractionImage (grid_size output_size : Z) (dp_box : list float)
    (points : list vec3) (view_orientation : quaternion).

Abbreviation figure := (list artist).

Inductive content : Type :=
| Gsd (frames : list frame)
| Text (header delimiter : string) (columns : list array)   (* [np.savetxt] *)
| Npy (a : array)                                           (* [np.save] *)
| Png (fig : figure)                                        (* [plt.savefig] *)
| Other (text : string).

Inductive node : Type :=
| Dir
| File (c : content).

(** Values of the job document. *)
Inductive docval : Type :=
| DInt (z : Z)
| DStr (s : string)
| DSlopes (m : gmap string slope).

(** The effects of an operation, in the order they happened. *)
Inductive event : Type :=
| EvMakedirs (p : string)
| EvMkdir (p : string)
| EvWrite (p : string) (c : content)
| EvDoc (key : string) (v : docval).

(** The file system (a path is the key as the program spells it), the job
    document, matplotlib's figures with the current one, and the effects so
    far. *)
Record world : Type := World {
  fs : gmap string node;
  doc : gmap string docval;
  figs : gmap nat figure;
  gcf : option nat;
  log : list event;
}.

(** The statepoint of a job, with the keys of the job store's contract. *)
Record statepoint : Type := Statepoint {
  input : list string;
  forcefield : string;
  n_compounds : list Z;
  density : string;
  remove_hydrogens : bool;
  kT_reduced : float;
  e_factor : float;
  n_steps : Z;
  shrink_steps : Z;
  tau : float;
  dt : float;
  mode : string;
}.

Record job : Type := Job {
  ws : string;
  sp : statepoint;
}.

(** *** Paths and the file system *)

Module Os.

(** [s.endswith(p)]. *)
Definition endswith (p s : string) : bool :=
  Py.startswith (String.rev p) (String.rev s).

(** [os.path.join(a, b)] on POSIX. *)
Definition path_join (a b : string) : string :=
  if Py.startswith "/" b then b
  else if decide (a = EmptyString) then b
  else if endswith "/" a then a +:+ b
  else a +:+ "/" +:+ b.

(** Whether a character other than the separator occurs. *)
Fixpoint has_component (s : string) : bool :=
  match s with
  | EmptyString => false
  | String c s' => if decide (c = "/"%char) then has_component s' else true
  end.

(** The proper ancestors of a path, outermost first: the non-empty prefixes
    that do not end with a separator and that a separator and a further
    component follow.  [seen] is the prefix already read, reversed. *)
Fixpoint ancestors_from (seen rest : string) : list string :=
  match rest with
  | EmptyString => []
  | String c rest' =>
      let here :=
        match seen with
        | EmptyString => []
        | String last _ =>
            if decide (c = "/"%char) then
              if decide (last = "/"%char) then []
              else if has_component rest' then [String.rev seen] else []
            else []
        end in
      here ++ ancestors_from (String c seen) rest'
  end.

Definition ancestors (p : string) : list string := ancestors_from EmptyString p.

(** The directory that has to exist for [p] to be created, if it is not the
    root or the current directory. *)
Definition parent (p : string) : option string := last (ancestors p).

Definition set_fs (f : gmap string node -> gmap string node) (w : world) : world :=
  {| fs := f (fs w); doc := doc w; figs := figs w; gcf := gcf w; log := log w |}.

Definition record (e : event) (w : world) : world :=
  {| fs := fs w; doc := doc w; figs := figs w; gcf := gcf w; log := log w ++ [e] |}.

(** [os.path.isfile(p)]. *)
Definition isfile (p : string) (w : world) : bool :=
  match fs w !! p with
  | Some (File _) => true
  | _ => false
  end.

Definition is_file_in (m : gmap string node) (p : string) : bool :=
  match m !! p with
  | Some (File _) => true
  | _ => false
  end.

(** The error for a path that does not exist: [NotADirectoryError] when one
    of its ancestors is a regular file, [FileNotFoundError] when not. *)
Definition missing (p : string) (w : world) : exn :=
  if existsb (is_file_in (fs w)) (ancestors p) then NotADirectoryError
  else FileNotFoundError.

(** The check that the directory holding [p] exists. *)
Definition check_parent (p : string) : M world unit :=
  fun w =>
    match parent p with
    | None => (w, Ok tt)
    | Some d =>
        match fs w !! d with
        | Some Dir => (w, Ok tt)
        | Some (File _) => (w, Raise NotADirectoryError)
        | None => (w, Raise (missing p w))
        end
    end.

(** [os.mkdir(p)]. *)
Definition mkdir (p : string) : M world unit :=
  fun w =>
    match fs w !! p with
    | Some _ => (w, Raise FileExistsError)
    | None =>
        match check_parent p w with
        | (_, Ok _) => (record (EvMkdir p) (set_fs (insert p Dir) w), Ok tt)
        | r => r
        end
    end.

Definition ensure_dir (d : string) (m : gmap string node) : gmap string node :=
  match m !! d with
  | Some _ => m
  | None => <[d := Dir]> m
  end.

(** [os.makedirs(p)] with the default [exist_ok=False]: the leaf must not
    exist, every missing ancestor is created, and an ancestor that is a
    regular file is an error. *)
Definition makedirs (p : string) : M world unit :=
  fun w =>
    match fs w !! p with
    | Some _ => (w, Raise FileExistsError)
    | None =>
        if existsb (is_file_in (fs w)) (ancestors p)
        then (w, Raise NotADirectoryError)
        else (record (EvMakedirs p)
                (set_fs (λ m, <[p := Dir]> (foldr ensure_dir m (ancestors p))) w),
              Ok tt)
    end.

(** Creating or truncating the regular file [p]. *)
Definition write_file (p : string) (c : content) : M world unit :=
  fun w =>
    match check_parent p w with
    | (_, Ok _) =>
        match fs w !! p with
        | Some Dir => (w, Raise IsADirectoryError)
        | _ => (record (EvWrite p c) (set_fs (insert p (File c)) w), Ok tt)
        end
    | r => r
    end.

End Os.

(** [job.fn(name)] and [job.isfile(name)]. *)
Definition fn (j : job) (name : string) : string := Os.path_join (ws j) name.

Definition job_isfile (j : job) (name : string) (w : world) : bool :=
  Os.isfile (fn j name) w.

(** [job.doc[key] = v]. *)
Definition doc_set (key : string) (v : docval) : M world unit :=
  fun w =>
    ({| fs := fs w; doc := <[key := v]> (doc w); figs := figs w; gcf := gcf w;
        log := log w ++ [EvDoc key v] |}, Ok tt).

(** [job.doc.key]: a missing key is an [AttributeError]. *)
Definition doc_attr (key : string) (w : world) : result docval :=
  match doc w !! key with
  | Some v => Ok v
  | None => Raise AttributeError
  end.

(** [gsd.hoomd.open(name)] followed by reading the frames.  The library's C
    layer reports a path that it cannot open or read as an I/O error, which
    is raised as an [OSError] with the errno at hand, and a file without the
    header of the format as a [RuntimeError]. *)
Definition gsd_open (name : string) : M world (list frame) :=
  fun w =>
    match fs w !! name with
    | None => (w, Raise OSError)
    | Some Dir => (w, Raise OSError)
    | Some (File (Gsd frames)) => (w, Ok frames)
    | Some (File _) => (w, Raise RuntimeError)
    end.

(** [gsd.hoomd.HOOMDTrajectory(gsd.pygsd.GSDFile(open(name, "rb")))] followed
    by reading the frames: here the file is opened by Python's [open]. *)
Definition pygsd_open (name : string) : M world (list frame) :=
  fun w =>
    match fs w !! name with
    | None => (w, Raise (Os.missing name w))
    | Some Dir => (w, Raise IsADirectoryError)
    | Some (File (Gsd frames)) => (w, Ok frames)
    | Some (File _) => (w, Raise RuntimeError)
    end.

(** *** numpy and matplotlib *)

Module Np.

(** [np.save(path, arr)] appends the extension when it is missing. *)
Definition save (path : string) (a : array) : M world unit :=
  let path' := if Os.endswith ".npy" path then path else path +:+ ".npy" in
  Os.write_file path' (Npy a).

(** [np.savetxt(path, np.transpose(columns), delimiter=.., header=..)]. *)
Definition savetxt (path : string) (columns : list array) (delimiter header : string)
  : M world unit :=
  Os.write_file path (Text header delimiter columns).

End Np.

Module Plt.

Definition set_figs (f : gmap nat figure) (cur : option nat) (w : world) : world :=
  {| fs := fs w; doc := doc w; figs := f; gcf := cur; log := log w |}.

(** The number of the next new figure: one more than the largest in use. *)
Definition next_num (f : gmap nat figure) : nat := S (max_list (elements (dom f))).

(** [plt.figure()]: a new, empty figure, made current. *)
Definition figure_new : M world nat :=
  fun w =>
    let n := next_num (figs w) in
    (set_figs (<[n := []]> (figs w)) (Some n) w, Ok n).

(** [plt.figure(num)]: figure [num], created if needed, made current. *)
Definition figure_num (num : nat) : M world unit :=
  fun w =>
    match figs w !! num with
    | Some _ => (set_figs (figs w) (Some num) w, Ok tt)
    | None => (set_figs (<[num := []]> (figs w)) (Some num) w, Ok tt)
    end.

(** [plt.gcf()]: the current figure, a new one if there is none. *)
Definition current : M world nat :=
  fun w =>
    match gcf w with
    | Some n => (w, Ok n)
    | None => figure_new w
    end.

(** Drawing on the current figure. *)
Definition draw (a : artist) : M world unit :=
  n ← current;
  modify (λ w, set_figs (alter (λ fig, fig ++ [a]) n (figs w)) (gcf w) w).

(** [plt.savefig(path)]. *)
Definition savefig (path : string) : M world unit :=
  n ← current;
  w ← get;
  Os.write_file path (Png (default [] (figs w !! n))).

End Plt.

(** ** Labels: [current_step], [sampled], [rdfed] *)

Definition current_step (j : job) (w : world) : result Z :=
  if job_isfile j "trajectory.gsd" w then
    match gsd_open (fn j "trajectory.gsd") w with
    | (_, Ok traj) =>
        match Py.index_last traj with
        | Ok snap => Ok (Z.of_N (step snap))
        | Raise e => Raise e
        end
    | (_, Raise e) => Raise e
    end
  else Ok (-1).

(** [current_step(job) >= job.doc.steps]; the document is a JSON object, so
    a value of another type than a number does not compare with an [int]. *)
Definition sampled (j : job) (w : world) : result bool :=
  match current_step j w with
  | Ok cs =>
      match doc_attr "steps" w with
      | Ok (DInt steps) => Ok (steps <=? cs)
      | Ok _ => Raise TypeError
      | Raise e => Raise e
      end
  | Raise e => Raise e
  end.

Definition rdfed (j : job) (w : world) : result bool :=
  Ok (job_isfile j "rdf.txt" w).

(** ** The scheduler's view of the two operations *)

Definition label : Type := job -> world -> result bool.

(** An operation as the decorators of [project.py] register it. *)
Record operation : Type := Operation {
  op_name : string;
  pre : list label;
  post : list label;
}.

(** [@MyProject.operation @MyProject.post(sampled) def sample]. *)
Definition sample : operation :=
  {| op_name := "sample"; pre := []; post := [sampled] |}.

(** [@MyProject.operation @MyProject.post(rdfed) @MyProject.pre(sampled)
    def post_proc]. *)
Definition post_proc_op : operation :=
  {| op_name := "post_proc"; pre := [sampled]; post := [rdfed] |}.

(** [all(cond(job) for cond in conds)], left to right, stopping early. *)
Fixpoint all_true (conds : list label) (j : job) (w : world) : result bool :=
  match conds with
  | [] => Ok true
  | c :: conds' =>
      match c j w with
      | Ok true => all_true conds' j w
      | r => r
      end
  end.

(** [any(not cond(job) for cond in conds)]. *)
Fixpoint any_false (conds : list label) (j : job) (w : world) : result bool :=
  match conds with
  | [] => Ok false
  | c :: conds' =>
      match c j w with
      | Ok true => any_false conds' j w
      | Ok false => Ok true
      | Raise e => Raise e
      end
  end.

(** Modelled from the spec: the eligibility rule belongs to the signac-flow
    library, which is not part of the repository.  An operation is eligible
    iff every predicate of its pre-condition set is true on the job and at
    least one predicate of its post-condition set is false. *)
Definition eligible (op : operation) (j : job) (w : world) : result bool :=
  match all_true (pre op) j w with
  | Ok true => any_false (post op) j w
  | r => r
  end.

(** ** The analysis operation: [post_proc] *)

(** [xs[start:stop]]. *)
Definition slice_bound (n i : Z) : Z :=
  if i <? 0 then Z.max (i + n) 0 else Z.min i n.

Definition py_slice {A} (xs : list A) (start stop : Z) : list A :=
  let n := Z.of_nat (length xs) in
  let lo := slice_bound n start in
  let hi := slice_bound n stop in
  take (Z.to_nat (hi - lo)) (drop (Z.to_nat lo) xs).

(** [xs.index(x)]. *)
Definition list_index (x : string) (xs : list string) : result nat :=
  match list_find (λ y, y = x) xs with
  | Some (i, _) => Ok i
  | None => Raise ValueError
  end.

(** [atom_type_pos(snap, atom_type)] for an [atom_type] that is a string:
    the positions of the particles whose type id is the index of the type. *)
Definition atom_type_pos (snap : frame) (atom_type : string) : result (list vec3) :=
  match list_index atom_type (types snap) with
  | Ok i => Ok (snd <$> filter (λ p, fst p = i) (particles snap))
  | Raise e => Raise e
  end.

(** The loop of [msd_from_gsd]: with [atom_type == 'all'] nothing is
    appended to [positions]. *)
Fixpoint collect_positions (frames : list frame) (atom_type : string)
  (positions : list (list vec3)) : result (list (list vec3)) :=
  match frames with
  | [] => Ok positions
  | frame :: frames' =>
      if decide (atom_type = "all") then
        collect_positions frames' atom_type positions
      else
        match atom_type_pos frame atom_type with
        | Ok atom_positions =>
            collect_positions frames' atom_type (positions ++ [atom_positions])
        | Raise e => Raise e
        end
  end.

Module Freud.

(** Whether the frames hold the same number of particles each. *)
Definition same_sizes (positions : list (list vec3)) : bool :=
  match positions with
  | [] => true
  | p :: ps => forallb (λ q, (length q =? length p)%nat) ps
  end.

(** [freud.msd.MSD(box=.., mode=..).compute(positions)].  freud first makes
    an array of shape (frames, particles, 3) of [positions] and raises
    [ValueError] when there is none: for the empty list, which is an array of
    one dimension, and for frames that differ in their number of particles. *)
Definition msd (box : list float) (mode : string) (positions : list (list vec3))
  : result msd_call :=
  match positions with
  | [] => Raise ValueError
  | _ :: _ =>
      if same_sizes positions
      then Ok {| msd_box := box; msd_positions := positions; msd_mode := mode |}
      else Raise ValueError
  end.

End Freud.

Definition msd_from_gsd (gsdfile : string) (start stop : Z) (atom_type msd_mode : string)
  : M world msd_call :=
  trajectory ← pygsd_open gsdfile;
  positions ← lift (collect_positions (py_slice trajectory start stop) atom_type []);
  last_frame ← lift (Py.index_last trajectory);
  lift (Freud.msd (box last_frame) msd_mode positions).

(** [len(msd.msd)]: freud returns one value per frame it was given. *)
Definition msd_len (m : msd_call) : nat := length (msd_positions m).

Section Analysis.

(** [cmeutils.structure.get_quaternions()], and the text that ["%s" % q]
    makes of a quaternion (numpy's rendering of the array). *)
Variable get_quaternions : list quaternion.
Variable quaternion_str : quaternion -> string.

(** One turn of [for types in all_atoms], given the dictionary [slopes] and
    returning it updated. *)
Definition analyse_type (j : job) (gsdfile : string) (slopes : gmap string slope)
  (types : string) : M world (gmap string slope) :=
  let A_name := types in
  let B_name := types in
  let call := {| rdf_gsdfile := gsdfile; A_name := A_name; B_name := B_name;
                 r_min := 0.01; r_max := 5 |} in
  let x := RdfBinCenters call in
  let y := RdfNormalized call in
  let save_path := Os.path_join (ws j) ("rdf/rdf_txt_files/" +:+ types +:+ "_rdf.txt") in
  Np.savetxt save_path [x; y] "," "bin_centers, rdf";;
  Plt.figure_new;;
  Plt.draw (Plot (Some x) y None);;
  let save_rdf_plot := Os.path_join (ws j) ("rdf/rdf_png_files/" +:+ types +:+ "_rdf.png") in
  Plt.savefig save_rdf_plot;;
  Plt.figure_num 2;;
  msd_array ← msd_from_gsd gsdfile (-30) (-1) types "window";
  let save_path := Os.path_join (ws j) ("msd/msd_npy_files/" +:+ types +:+ ".npy") in
  Np.save save_path (MsdSeries msd_array);;
  Plt.draw (Plot None (MsdSeries msd_array) (Some types));;
  let save_msd_plot := Os.path_join (ws j) "msd/msd.png" in
  Plt.savefig save_msd_plot;;
  msd_slope_array ← msd_from_gsd gsdfile (-25) (-9) types "window";
  let x_length := msd_len msd_slope_array in
  let x := seq 0 x_length in
  let y := MsdSeries msd_slope_array in
  mret (<[types := LinregressSlope x y]> slopes).

Fixpoint analyse_types (j : job) (gsdfile : string) (slopes : gmap string slope)
  (all_atoms : list string) : M world (gmap string slope) :=
  match all_atoms with
  | [] => mret slopes
  | types :: rest =>
      slopes' ← analyse_type j gsdfile slopes types;
      analyse_types j gsdfile slopes' rest
  end.

(** The first [with] block: RDF and MSD of every type of the first frame. *)
Definition rdf_msd_stage (j : job) (gsdfile : string) : M world unit :=
  f ← gsd_open gsdfile;
  snap ← lift (Py.index f 0);
  let all_atoms := types snap in
  Os.makedirs (Os.path_join (ws j) "rdf/rdf_txt_files");;
  Os.makedirs (Os.path_join (ws j) "rdf/rdf_png_files");;
  Os.makedirs (Os.path_join (ws j) "msd/msd_npy_files");;
  slopes ← analyse_types j gsdfile ∅ all_atoms;
  doc_set "msd_slopes" (DSlopes slopes).

(** One turn of [for q in get_quaternions()], given [q_list]. *)
Definition diffract (j : job) (dp_box : list float) (points : list vec3)
  (q_list : list quaternion) (q : quaternion) : M world (list quaternion) :=
  let q_list := q_list ++ [q] in
  Plt.figure_new;;
  Plt.draw (DiffractionImage 1024 1024 dp_box points q);;
  Plt.savefig (Os.path_join (ws j) ("diffraction_plots/" +:+ quaternion_str q +:+ ".png"));;
  mret q_list.

(** The name of the image of an orientation, and the event of saving the
    pattern of the points [pts] in the box [b] seen from it. *)
Definition diffraction_png (j : job) (q : quaternion) : string :=
  Os.path_join (ws j) ("diffraction_plots/" +:+ quaternion_str q +:+ ".png").

Definition diffraction_event (j : job) (b : list float) (pts : list vec3)
  (q : quaternion) : event :=
  EvWrite (diffraction_png j q) (Png [DiffractionImage 1024 1024 b pts q]).

Fixpoint diffract_all (j : job) (dp_box : list float) (points : list vec3)
  (q_list : list quaternion) (qs : list quaternion) : M world (list quaternion) :=
  match qs with
  | [] => mret q_list
  | q :: qs' =>
      q_list' ← diffract j dp_box points q_list q;
      diffract_all j dp_box points q_list' qs'
  end.

(** The second [with] block and the loop after it. *)
Definition diffraction_stage (j : job) (gsdfile : string) : M world unit :=
  f ← gsd_open gsdfile;
  snap ← lift (Py.index_last f);
  let points := snd <$> particles snap in
  let dp_box := box snap in
  Os.mkdir (Os.path_join (ws j) "diffraction_plots");;
  q_list ← diffract_all j dp_box points [] get_quaternions;
  let dp_path := Os.path_join (ws j) "dp.npy" in
  Np.save dp_path (Orientations q_list).

Definition post_proc (j : job) : M world unit :=
  let gsdfile := fn j "trajectory.gsd" in
  rdf_msd_stage j gsdfile;;
  diffraction_stage j gsdfile.

End Analysis.

(** ** Notions used to state the properties *)

(** What [os.path.join(a, b)] puts in front of a relative [b]. *)
Definition base (a : string) : string :=
  if decide (a = EmptyString) then EmptyString
  else if Os.endswith "/" a then a
  else a +:+ "/".

(** The paths of the job's workspace that [post_proc] names. *)
Definition trajectory_path (j : job) : string := fn j "trajectory.gsd".
Definition rdf_txt_dir (j : job) : string := Os.path_join (ws j) "rdf/rdf_txt_files".
Definition rdf_png_dir (j : job) : string := Os.path_join (ws j) "rdf/rdf_png_files".
Definition msd_npy_dir (j : job) : string := Os.path_join (ws j) "msd/msd_npy_files".
Definition diffraction_dir (j : job) : string := Os.path_join (ws j) "diffraction_plots".
Definition rdf_txt (j : job) (t : string) : string :=
  Os.path_join (ws j) ("rdf/rdf_txt_files/" +:+ t +:+ "_rdf.txt").
Definition rdf_png (j : job) (t : string) : string :=
  Os.path_join (ws j) ("rdf/rdf_png_files/" +:+ t +:+ "_rdf.png").
Definition msd_npy (j : job) (t : string) : string :=
  Os.path_join (ws j) ("msd/msd_npy_files/" +:+ t +:+ ".npy").
Definition msd_png (j : job) : string := Os.path_join (ws j) "msd/msd.png".
Definition dp_npy (j : job) : string := Os.path_join (ws j) "dp.npy".

(** The relative names under which the two stages create and write. *)
Definition owned_rdf_msd (s : string) : bool :=
  Py.startswith "rdf/" s || Py.startswith "msd/" s.

Definition owned_diffraction (s : string) : bool :=
  Py.startswith "diffraction_plots" s || Py.startswith "dp.npy" s.

Definition owned (s : string) : bool := owned_rdf_msd s || owned_diffraction s.

(** A path is touched when it is the workspace prefix followed by an owned
    name; a key is foreign when it is a prefix of no touched path. *)
Definition touched (own : string -> bool) (j : job) (p : string) : Prop :=
  exists s, own s = true /\ p = base (ws j) +:+ s.

Definition foreign (own : string -> bool) (j : job) (k : string) : Prop :=
  forall p r, touched own j p -> p <> k +:+ r.

Definition event_owned (own : string -> bool) (j : job) (ev : event) : Prop :=
  match ev with
  | EvMakedirs p | EvMkdir p | EvWrite p _ => touched own j p
  | EvDoc key _ => key = "msd_slopes"
  end.

(** What a computation that only touches owned paths leaves as it was:
    foreign keys, the existence of every path, the other keys of the
    document, and the effects already logged. *)
Definition stable (own : string -> bool) (j : job) (w w' : world) : Prop :=
  (forall k, foreign own j k -> fs w' !! k = fs w !! k) /\
  (forall k, is_Some (fs w !! k) -> is_Some (fs w' !! k)) /\
  (forall key, key <> "msd_slopes" -> doc w' !! key = doc w !! key) /\
  (exists evs, log w' = log w ++ evs /\ Forall (event_owned own j) evs).

Definition keeps {A} (own : string -> bool) (j : job) (m : M world A) : Prop :=
  forall w w' r, m w = (w', r) -> stable own j w w'.

(** [msd_from_gsd] as a function of the trajectory it reads. *)
Definition msd_of (traj : list frame) (start stop : Z) (atom_type msd_mode : string)
  : result msd_call :=
  match collect_positions (py_slice traj start stop) atom_type [] with
  | Ok positions =>
      match Py.index_last traj with
      | Ok last_frame => Freud.msd (box last_frame) msd_mode positions
      | Raise e => Raise e
      end
  | Raise e => Raise e
  end.

(** The call [gsd_rdf(gsdfile, t, t, r_min=0.01, r_max=5)] and the two
    artifacts made from it. *)
Definition rdf_call_of (j : job) (t : string) : rdf_call :=
  {| rdf_gsdfile := trajectory_path j; A_name := t; B_name := t;
     r_min := 0.01; r_max := 5 |}.

Definition rdf_text (j : job) (t : string) : content :=
  Text "bin_centers, rdf" ","
    [RdfBinCenters (rdf_call_of j t); RdfNormalized (rdf_call_of j t)].

Definition rdf_plot (j : job) (t : string) : artist :=
  Plot (Some (RdfBinCenters (rdf_call_of j t))) (RdfNormalized (rdf_call_of j t)) None.

Definition msd_plot (m : msd_call) (t : string) : artist :=
  Plot None (MsdSeries m) (Some t).

(** The figure that [msd/msd.png] shows after a turn of the loop for [t],
    and matplotlib's figures after it, from the figures [f] before it: the
    RDF curve goes to a new figure and the MSD curve is added to figure 2. *)
Definition figs_with_rdf (j : job) (t : string) (f : gmap nat figure) : gmap nat figure :=
  <[Plt.next_num f := [rdf_plot j t]]> f.

Definition msd_figure (j : job) (t : string) (long : msd_call) (f : gmap nat figure)
  : figure :=
  default [] (figs_with_rdf j t f !! 2%nat) ++ [msd_plot long t].

Definition figs_after (j : job) (t : string) (long : msd_call) (f : gmap nat figure)
  : gmap nat figure :=
  <[2%nat := msd_figure j t long f]> (figs_with_rdf j t f).

(** The four artifacts that a turn of the loop for [t] writes. *)
Definition type_events (j : job) (t : string) (long : msd_call) (f : gmap nat figure)
  : list event :=
  [EvWrite (rdf_txt j t) (rdf_text j t);
   EvWrite (rdf_png j t) (Png [rdf_plot j t]);
   EvWrite (msd_npy j t) (Npy (MsdSeries long));
   EvWrite (msd_png j) (Png (msd_figure j t long f))].

Definition fs_after (j : job) (t : string) (long : msd_call) (f : gmap nat figure)
  (m : gmap string node) : gmap string node :=
  <[msd_png j := File (Png (msd_figure j t long f))]>
    (<[msd_npy j t := File (Npy (MsdSeries long))]>
       (<[rdf_png j t := File (Png [rdf_plot j t])]>
          (<[rdf_txt j t := File (rdf_text j t)]> m))).

(** The slope that the loop stores for [t]. *)
Definition slope_of (short : msd_call) : slope :=
  LinregressSlope (seq 0 (msd_len short)) (MsdSeries short).

(** What the loop has achieved for a type [t]: its four artifacts are in the
    file system [m], its MSD curve is on the figure [f2] and its slope is in
    [slopes]. *)
Definition type_done (j : job) (traj : list frame) (t : string)
  (m : gmap string node) (f2 : figure) (slopes : gmap string slope) : Prop :=
  exists long short,
    msd_of traj (-30) (-1) t "window" = Ok long /\
    msd_of traj (-25) (-9) t "window" = Ok short /\
    m !! rdf_txt j t = Some (File (rdf_text j t)) /\
    m !! rdf_png j t = Some (File (Png [rdf_plot j t])) /\
    m !! msd_npy j t = Some (File (Npy (MsdSeries long))) /\
    msd_plot long t ∈ f2 /\
    slopes !! t = Some (slope_of short).

(** The invariant of the loop once the types [ts] have had their turn:
    figure 2 is what [msd/msd.png] shows, and every type is done. *)
Definition all_done (j : job) (traj : list frame) (ts : list string)
  (w : world) (slopes : gmap string slope) : Prop :=
  ts = [] \/
  exists f2,
    figs w !! 2%nat = Some f2 /\
    fs w !! msd_png j = Some (File (Png f2)) /\
    forall t, t ∈ ts -> type_done j traj t (fs w) f2 slopes.

(** The events of the turns for the types [ts], turn by turn. *)
Definition turns_logged (j : job) (traj : list frame) (ts : list string)
  (chunks : list (list event)) : Prop :=
  Forall2 (λ t chunk, exists long f,
             msd_of traj (-30) (-1) t "window" = Ok long /\
             chunk = type_events j t long f) ts chunks.

(** The directories that [post_proc] creates. *)
Definition output_dirs (j : job) : list string :=
  [rdf_txt_dir j; rdf_png_dir j; msd_npy_dir j; diffraction_dir j].

(** The events of the first stage before its loop: the three calls of
    [os.makedirs]. *)
Definition rdf_msd_dirs (j : job) : list event :=
  [EvMakedirs (rdf_txt_dir j); EvMakedirs (rdf_png_dir j); EvMakedirs (msd_npy_dir j)].

Definition creates_dir (ev : event) : bool :=
  match ev with
  | EvMakedirs _ | EvMkdir _ => true
  | _ => false
  end.

(** "Every directory is created before anything is written", for a list of
    events. *)
Definition dirs_first (evs : list event) : Prop :=
  forall (i k : nat) (p : string) (c : content) (ev : event),
    evs !! i = Some (EvWrite p c) -> evs !! k = Some ev -> creates_dir ev = true ->
    (k < i)%nat.

(** ** Notions used to state the properties of the parser *)

Definition has_tps_marker (lines : list string) : bool :=
  existsb (λ l, Py.contains "Average TPS" l) lines.

Definition has_time_marker (lines : list string) : bool :=
  existsb (λ l, Py.contains "Time" l) lines.

(** The throughput value of a file: what is left of its last
    throughput-marker line once the marker and the blanks are stripped. *)
Definition file_tps (lines : list string) : option string :=
  (λ l, Py.strip (Py.strip_chars "Average TPS:" l)) <$>
  last (filter (λ l, Py.contains "Average TPS" l) lines).

(** The second blank-separated field of the last time-marker line. *)
Definition file_time_field (lines : list string) : option string :=
  l ← last (filter (λ l, Py.contains "Time" l) lines);
  Py.split " " l !! 1%nat.

(** The seconds that a field [HH:MM:SS] stands for. *)
Definition field_seconds (field : string) : result Z :=
  match Py.split ":" field with
  | [h; m; s] =>
      match Py.int h, Py.int m, Py.int s with
      | Ok h', Ok m', Ok s' => Ok (h' * 3600 + m' * 60 + s')
      | _, _, _ => Raise ValueError
      end
  | _ => Raise ValueError
  end.

(** The files whose time is counted: those with a throughput marker and a
    time field. *)
Definition counted (lines : list string) : bool :=
  has_tps_marker lines && bool_decide (is_Some (file_time_field lines)).

Definition file_seconds (lines : list string) : result Z :=
  match file_time_field lines with
  | Some field => field_seconds field
  | None => Raise IndexError
  end.

(** The value of a decimal numeral read from the left, [acc] being the value
    of the digits already read. *)
Fixpoint horner (d : Decimal.uint) (acc : Z) : Z :=
  match d with
  | Decimal.Nil => acc
  | Decimal.D0 l => horner l (10 * acc + 0)
  | Decimal.D1 l => horner l (10 * acc + 1)
  | Decimal.D2 l => horner l (10 * acc + 2)
  | Decimal.D3 l => horner l (10 * acc + 3)
  | Decimal.D4 l => horner l (10 * acc + 4)
  | Decimal.D5 l => horner l (10 * acc + 5)
  | Decimal.D6 l => horner l (10 * acc + 6)
  | Decimal.D7 l => horner l (10 * acc + 7)
  | Decimal.D8 l => horner l (10 * acc + 8)
  | Decimal.D9 l => horner l (10 * acc + 9)
  end.

(** Strings of decimal digits, and strings without a character that [p]
    accepts. *)
Fixpoint all_digits (s : string) : bool :=
  match s with
  | EmptyString => true
  | String c s' => bool_decide (is_Some (Py.digit_val c)) && all_digits s'
  end.

Fixpoint no_char (p : ascii -> bool) (s : string) : bool :=
  match s with
  | EmptyString => true
  | String c s' => negb (p c) && no_char p s'
  end.

(** ** Examples *)

(** The files of the specification's example, as [readlines] returns them. *)
Definition nl : string := String (ascii_of_nat 10) EmptyString.
Definition file1 : list string := ["Time 01:00:00" +:+ nl].
Definition file2 : list string := ["Average TPS: 120" +:+ nl; "Time 00:30:15" +:+ nl].

(** Any value will do for the parameter of [get_tps_time] in the examples:
    their seconds fit 64 bits. *)
Definition no_wide_hms : list Z -> result string := λ _, Raise RuntimeError.

(** Example jobs and worlds. *)
Definition on_x_axis (x : float) : vec3 := (x, 0, 0)%float.

(** A frame of four particles, two of each type, in a cubic box of side 20. *)
Definition frame_at (s : N) : frame :=
  {| step := s; box := [20; 20; 20; 0; 0; 0]%float; types := ["A"; "B"];
     particles := [(0%nat, on_x_axis 0); (1%nat, on_x_axis 1);
                   (0%nat, on_x_axis 2); (1%nat, on_x_axis 3)] |}.

Definition sp0 : statepoint :=
  {| input := ["CCC"]; forcefield := "gaff"; n_compounds := [10];
     density := "1.0 g/cm^3"; remove_hydrogens := false; kT_reduced := 1;
     e_factor := 0.5; n_steps := 100; shrink_steps := 10; tau := 1;
     dt := 0.001; mode := "gpu" |}.

Definition job0 : job := {| ws := "/w/abc"; sp := sp0 |}.

Definition world_of (files : gmap string node) (d : gmap string docval) : world :=
  {| fs := files; doc := d; figs := ∅; gcf := None; log := [] |}.

(** A finished run of twelve frames, with the target in the document. *)
Definition traj0 : list frame :=
  frame_at <$> [0; 5; 10; 20; 30; 40; 50; 60; 70; 80; 90; 100]%N.

Definition world0 : world :=
  world_of {[ "/w/abc" := Dir;
              "/w/abc/trajectory.gsd" := File (Gsd traj0) ]}
           {[ "steps" := DInt 100 ]}.

(** A run at step 50 whose document asks for 10 steps and whose statepoint
    asks for 100. *)
Definition world_short : world :=
  world_of {[ "/w/abc" := Dir;
              "/w/abc/trajectory.gsd" := File (Gsd [frame_at 0; frame_at 50]) ]}
           {[ "steps" := DInt 10 ]}.

(** A job that has not started. *)
Definition world_fresh : world :=
  world_of {[ "/w/abc" := Dir ]} {[ "steps" := DInt 100 ]}.

(** Two orientations and their rendering, for the examples. *)
Definition two_views : list quaternion := [(1, 0, 0, 0)%float; (0, 1, 0, 0)%float].

Definition view_str (q : quaternion) : string :=
  let '(a, _, _, _) := q in
  if PrimFloat.eqb a 1 then "[1. 0. 0. 0.]" else "[0. 1. 0. 0.]".

(** A workspace in which the diffraction directory is left from an earlier
    run. *)
Definition world_left_over : world :=
  world_of {[ "/w/abc" := Dir;
              "/w/abc/diffraction_plots" := Dir;
              "/w/abc/trajectory.gsd" := File (Gsd traj0) ]}
           {[ "steps" := DInt 100 ]}.

(** The run of [post_proc] on the finished job of twelve frames. *)
Definition world_analysed : world := fst (post_proc two_views view_str job0 world0).

(** ** Notions and examples used to state further properties *)

(** The seconds of the files whose time is counted, in the order of the
    files. *)
Definition counted_seconds (outfiles : list (list string)) : list Z :=
  omap (λ f, if counted f then
               match file_seconds f with
               | Ok t => Some t
               | Raise _ => None
               end
             else None) outfiles.

(** The log of a run that reports the throughput [v] and the elapsed time
    of [t] seconds, as [readlines] returns it. *)
Definition run_log (run : string * Z) : list string :=
  ["Average TPS: " +:+ run.1 +:+ nl; "Time " +:+ hms_of_total run.2 +:+ nl].

(** What figure 2 holds when the first MSD curve is drawn on it: what it
    held before the run or, when [plt.figure()] numbered the first RDF
    figure 2, the RDF curve of the first type [t]. *)
Definition msd_figure_start (j : job) (t : string) (f : gmap nat figure) : figure :=
  if decide (Plt.next_num f = 2%nat) then [rdf_plot j t] else default [] (f !! 2%nat).

(** The run of [world_short] one frame later. *)
Definition world_longer : world :=
  world_of {[ "/w/abc" := Dir;
              "/w/abc/trajectory.gsd"
                := File (Gsd ([frame_at 0; frame_at 50] ++ [frame_at 100])) ]}
           {[ "steps" := DInt 10 ]}.


(** ** Input structures: [get_paths] *)

Module Path.

(** [os.path.join(a, *p)]. *)
Definition join (a : string) (p : list string) : string := foldl Os.path_join a p.

(** ['/'.join(comps)]. *)
Fixpoint sep_join (comps : list string) : string :=
  match comps with
  | [] => EmptyString
  | c :: rest =>
      match rest with
      | [] => c
      | _ :: _ => c +:+ "/" +:+ sep_join rest
      end
  end.

(** ['/' * n]. *)
Fixpoint slashes (n : nat) : string :=
  match n with
  | O => EmptyString
  | S n' => String "/" (slashes n')
  end.

(** POSIX allows one or two initial slashes and treats three or more as
    one. *)
Definition initial_slashes (path : string) : nat :=
  if Py.startswith "/" path then
    if Py.startswith "//" path && negb (Py.startswith "///" path) then 2 else 1
  else 0.

(** One turn of the loop of [normpath] over the components. *)
Definition norm_step (initial_slashes : nat) (new_comps : list string) (comp : string)
  : list string :=
  if decide (comp = EmptyString \/ comp = ".") then new_comps
  else if decide (comp <> ".." \/
                  (initial_slashes = 0%nat /\ new_comps = []) \/
                  (new_comps <> [] /\ last new_comps = Some ".."))
  then new_comps ++ [comp]
  else if decide (new_comps <> []) then removelast new_comps
  else new_comps.

(** [os.path.normpath(path)] on POSIX. *)
Definition normpath (path : string) : string :=
  if decide (path = EmptyString) then "."
  else
    let n := initial_slashes path in
    let comps := foldl (norm_step n) [] (Py.split "/" path) in
    let path := slashes n +:+ sep_join comps in
    if decide (path = EmptyString) then "." else path.

(** [os.path.abspath(path)] in the current directory [cwd]. *)
Definition abspath (cwd path : string) : string :=
  normpath (if Py.startswith "/" path then path else Os.path_join cwd path).

End Path.

(** [print(line)], the state being the lines printed so far. *)
Definition print (line : string) : M (list string) unit :=
  modify (λ out, out ++ [line]).

Section Inputs.

(** [planckton.compounds.COMPOUND]: the structures that planckton ships,
    name to path. *)
Variable COMPOUND : gmap string string.

(** [get_paths(key, job)] in the current directory [cwd].  The file system
    of [w] is read as the process sees it: a name is looked up as it is
    spelled.  The [KeyError] of a missing key is caught, so that the lookup
    is a [match]. *)
Definition get_paths (cwd : string) (w : world) (key : string) (j : job)
  : M (list string) string :=
  match COMPOUND !! key with
  | Some path => mret path
  | None =>
      let file_path := Path.abspath cwd (Path.join (ws j) [".."; ".."; key]) in
      if Os.isfile key w then
        print ("Using " +:+ key +:+ " for structure");;
        mret key
      else if Os.isfile file_path w then
        print ("Using " +:+ file_path +:+ " for structure");;
        mret file_path
      else
        print ("Using " +:+ key +:+ " for structure--assuming SMILES input");;
        mret key
  end.

End Inputs.

(** A component of a path that is a plain name: not empty, neither [.] nor
    [..], and without a separator. *)
Definition plain (c : string) : bool :=
  negb (bool_decide (c = EmptyString \/ c = "." \/ c = "..")) &&
  no_char (λ a, bool_decide (a = "/"%char)) c.

(** A job of a project at [/proj], and a structure file of the project. *)
Definition job_flow : job := {| ws := "/proj/workspace/abc"; sp := sp0 |}.

Definition world_flow : world :=
  world_of {[ "/proj/workspace/abc" := Dir;
              "/proj/inputs/p3ht.mol2" := File (Other "@<TRIPOS>MOLECULE") ]} ∅.

(** ** The throughput record of [sample] *)

Module Io.

Definition LF : ascii := ascii_of_nat 10.
Definition CR : ascii := ascii_of_nat 13.

(** What a file opened in text mode hands over: [\r\n] and a lone [\r]
    are read as [\n]. *)
Fixpoint universal_newlines (s : string) : string :=
  match s with
  | EmptyString => EmptyString
  | String c s' =>
      if decide (c = CR) then
        match s' with
        | String c' s'' =>
            if decide (c' = LF) then String LF (universal_newlines s'')
            else String LF (universal_newlines s')
        | EmptyString => String LF EmptyString
        end
      else String c (universal_newlines s')
  end.

(** [f.readlines()]: the lines, each with the newline that ends it. *)
Fixpoint readlines (s : string) : list string :=
  match s with
  | EmptyString => []
  | String c s' =>
      if decide (c = LF) then String c EmptyString :: readlines s'
      else
        match readlines s' with
        | l :: ls => String c l :: ls
        | [] => [String c EmptyString]
        end
  end.

End Io.

Section Throughput.

(** The parameter of [get_tps_time]. *)
Variable wide_hms : list Z -> result string.

(** The text that a file holds for a reader in text mode, or the error of
    decoding it, for the contents that are not plain text in the model. *)
Variable decode : content -> result string.

(** [glob.glob(pattern)]: the matching names, in the order in which the
    directory is listed. *)
Variable glob : string -> world -> list string.

Definition read_text (c : content) : result string :=
  match c with
  | Other text => Ok text
  | _ => decode c
  end.

(** [open(ofile)] followed by [f.readlines()]. *)
Definition open_readlines (ofile : string) (w : world) : result (list string) :=
  match fs w !! ofile with
  | None => Raise (Os.missing ofile w)
  | Some Dir => Raise IsADirectoryError
  | Some (File c) =>
      match read_text c with
      | Ok text => Ok (Io.readlines (Io.universal_newlines text))
      | Raise e => Raise e
      end
  end.

(** [get_tps_time(outfiles)] on the names of the files: each file is opened
    and read when its turn in the loop comes. *)
Definition get_tps_time_files (outfiles : list string) (w : world)
  : result (string * string) :=
  match for_each outfiles
          (λ ofile, lines ← lift (open_readlines ofile w); parse_log lines)
          {| tps := None; times := [] |} with
  | (l, Ok _) => finish wide_hms l
  | (_, Raise e) => Raise e
  end.

(** Lines 197 to 201, the end of [sample]. *)
Definition record_throughput (j : job) : M world unit :=
  w ← get;
  let outfiles := glob (ws j +:+ "/job*.o") w in
  if decide (outfiles = []) then mret tt
  else
    '(tps, time) ← lift (get_tps_time_files outfiles w);
    doc_set "average_TPS" (DStr tps);;
    doc_set "total_time" (DStr time).

End Throughput.

(** The text of the log of a run. *)
Definition run_text (run : string * Z) : string :=
  "Average TPS: " +:+ run.1 +:+ nl +:+ "Time " +:+ hms_of_total run.2 +:+ nl.

(** A workspace with the logs of two runs; one in which a directory has the
    name of a log; one with the log of an analysis only.  For the examples,
    a parameter that decodes nothing and a [glob] that lists the names
    under [/w/abc] that begin with [job] and end with [.o]. *)
Definition world_logs : world :=
  world_of {[ "/w/abc" := Dir;
              "/w/abc/job1.o" := File (Other (run_text ("120", 1815)));
              "/w/abc/job2.o" := File (Other (run_text ("7.5", 5))) ]} ∅.

Definition world_logs_dir : world :=
  world_of {[ "/w/abc" := Dir;
              "/w/abc/job1.o" := File (Other (run_text ("120", 1815)));
              "/w/abc/job_old.o" := Dir ]} ∅.

Definition world_analysis_log : world :=
  world_of {[ "/w/abc" := Dir;
              "/w/abc/job7.o" := File (Other ("Time 01:00:00" +:+ nl)) ]} ∅.

Definition no_decode : content -> result string := λ _, Raise ValueError.

Definition glob_logs (pattern : string) (w : world) : list string :=
  filter (λ p, Py.startswith "/w/abc/job" p && Os.endswith ".o" p)
    (map_to_list (fs w)).*1.

(** * Properties *)

(** ** Monad laws used by the proofs *)

Lemma bind_unfold {S A B} (m : M S A) (k : A -> M S B) (s : S) :
  (m ≫= k) s = match m s with
               | (s', Ok a) => k a s'
               | (s', Raise e) => (s', Raise e)
               end.
Proof. reflexivity. Qed.

Lemma bind_ok {S A B} (m : M S A) (k : A -> M S B) (s s1 : S) (a : A) :
  m s = (s1, Ok a) -> (m ≫= k) s = k a s1.
Proof. intros H. rewrite bind_unfold, H. reflexivity. Qed.

Lemma bind_raise {S A B} (m : M S A) (k : A -> M S B) (s s1 : S) (e : exn) :
  m s = (s1, Raise e) -> (m ≫= k) s = (s1, Raise e).
Proof. intros H. rewrite bind_unfold, H. reflexivity. Qed.

Lemma bind_inv_ok {S A B} (m : M S A) (k : A -> M S B) (s s' : S) (b : B) :
  (m ≫= k) s = (s', Ok b) ->
  exists s1 a, m s = (s1, Ok a) /\ k a s1 = (s', Ok b).
Proof.
  rewrite bind_unfold. destruct (m s) as [s1 [a|e]]; [eauto|discriminate].
Qed.

Lemma for_each_app {S A} (xs ys : list A) (body : A -> M S unit) (s : S) :
  for_each (xs ++ ys) body s =
  match for_each xs body s with
  | (s1, Ok _) => for_each ys body s1
  | (s1, Raise e) => (s1, Raise e)
  end.
Proof.
  revert s. induction xs as [|x xs IH]; intros s; simpl; [done|].
  rewrite !bind_unfold. destruct (body x s) as [s1 [[]|e]]; [apply IH|done].
Qed.

(** ** Strings and paths *)

Lemma str_app_cons (c : ascii) (s r : string) :
  String c s +:+ r = String c (s +:+ r).
Proof. reflexivity. Qed.

Lemma str_app_nil_r (s : string) : s +:+ EmptyString = s.
Proof. induction s as [|c s IH]; [done|]. by rewrite str_app_cons, IH. Qed.

Lemma str_app_assoc (a b c : string) : (a +:+ b) +:+ c = a +:+ (b +:+ c).
Proof. induction a as [|x a IH]; [done|]. by rewrite !str_app_cons, IH. Qed.

Lemma str_app_length (a b : string) :
  String.length (a +:+ b) = (String.length a + String.length b)%nat.
Proof. induction a as [|x a IH]; [done|]. rewrite str_app_cons. simpl. by rewrite IH. Qed.

Lemma str_app_inv_tail (a b x : string) : a +:+ x = b +:+ x -> a = b.
Proof.
  revert b. induction a as [|c a IH]; intros [|d b] H; try done.
  - apply (f_equal String.length) in H.
    change (EmptyString +:+ x) with x in H.
    rewrite str_app_cons in H. simpl in H. rewrite str_app_length in H. lia.
  - apply (f_equal String.length) in H.
    change (EmptyString +:+ x) with x in H.
    rewrite str_app_cons in H. simpl in H. rewrite str_app_length in H. lia.
  - rewrite !str_app_cons in H. injection H as -> H. f_equal. by apply IH.
Qed.

Lemma str_rev_app_spec (a b : string) : String.rev_app a b = String.rev a +:+ b.
Proof.
  unfold String.rev. revert b. induction a as [|c a IH]; intros b; [done|].
  simpl. rewrite IH, (IH (String c EmptyString)), str_app_assoc. done.
Qed.

Lemma str_rev_cons (c : ascii) (s : string) :
  String.rev (String c s) = String.rev s +:+ String c EmptyString.
Proof. unfold String.rev at 1. simpl. apply str_rev_app_spec. Qed.

Lemma str_rev_app_distr (a b : string) :
  String.rev (a +:+ b) = String.rev b +:+ String.rev a.
Proof.
  induction a as [|c a IH].
  - change (EmptyString +:+ b) with b. by rewrite str_app_nil_r.
  - by rewrite str_app_cons, !str_rev_cons, IH, str_app_assoc.
Qed.

Lemma startswith_self_app (p r : string) : Py.startswith p (p +:+ r) = true.
Proof.
  induction p as [|c p IH]; [done|]. rewrite str_app_cons. simpl.
  by rewrite decide_True.
Qed.

Lemma endswith_app (p s : string) : Os.endswith p (s +:+ p) = true.
Proof. unfold Os.endswith. rewrite str_rev_app_distr. apply startswith_self_app. Qed.

Lemma startswith_app (p s r : string) :
  Py.startswith p s = true -> Py.startswith p (s +:+ r) = true.
Proof.
  revert s. induction p as [|c p IH]; intros [|d s]; try done.
  rewrite str_app_cons. simpl. case_decide; [apply IH|done].
Qed.

(** Every ancestor of a path is a prefix of it. *)
Lemma ancestors_from_prefix (seen rest a : string) :
  a ∈ Os.ancestors_from seen rest ->
  exists r1 r2, rest = r1 +:+ r2 /\ a = String.rev seen +:+ r1.
Proof.
  revert seen. induction rest as [|c rest IH]; intros seen; simpl.
  { by intros ?%not_elem_of_nil. }
  intros [Hin|Hin]%elem_of_app.
  - exists EmptyString, (String c rest). split; [done|].
    rewrite str_app_nil_r. destruct seen as [|l seen].
    { by apply not_elem_of_nil in Hin. }
    repeat case_decide; try (by apply not_elem_of_nil in Hin).
    destruct (Os.has_component rest); [|by apply not_elem_of_nil in Hin].
    by apply list_elem_of_singleton in Hin.
  - destruct (IH _ Hin) as (r1 & r2 & -> & ->).
    exists (String c r1), r2. split; [done|].
    by rewrite str_rev_cons, str_app_assoc.
Qed.

Lemma ancestors_prefix (p a : string) :
  a ∈ Os.ancestors p -> exists r, p = a +:+ r.
Proof.
  intros (r1 & r2 & -> & ->)%ancestors_from_prefix. by exists r2.
Qed.

Lemma path_join_relative (a b : string) :
  Py.startswith "/" b = false -> Os.path_join a b = base a +:+ b.
Proof.
  intros H. unfold Os.path_join, base. rewrite H.
  case_decide; [done|]. destruct (Os.endswith "/" a); [done|].
  by rewrite str_app_assoc.
Qed.

(** ** Rendering and reading [HH:MM:SS] *)

Lemma horner_of_uint_acc (d : Decimal.uint) (acc : positive) :
  Z.pos (Pos.of_uint_acc d acc) = horner d (Z.pos acc).
Proof.
  revert acc. induction d as [|d IH|d IH|d IH|d IH|d IH|d IH|d IH|d IH|d IH|d IH];
    intros acc; cbn [Pos.of_uint_acc horner]; [done|rewrite IH; f_equal; lia..].
Qed.

Lemma horner_of_uint (d : Decimal.uint) : Z.of_N (Pos.of_uint d) = horner d 0.
Proof.
  induction d as [|d IH|d IH|d IH|d IH|d IH|d IH|d IH|d IH|d IH|d IH];
    cbn [Pos.of_uint horner]; [done|exact IH|apply horner_of_uint_acc..].
Qed.

Lemma horner_to_uint (n : N) : horner (N.to_uint n) 0 = Z.of_N n.
Proof.
  rewrite <- horner_of_uint. f_equal. apply DecimalN.Unsigned.of_to.
Qed.

Lemma int_digits_digit (c : ascii) (d acc : Z) (prev : bool) (s : string) :
  Py.digit_val c = Some d ->
  Py.int_digits acc prev (String c s) = Py.int_digits (10 * acc + d) true s.
Proof. intros H. cbn [Py.int_digits]. by rewrite H. Qed.

Lemma int_digits_uint (d : Decimal.uint) (acc : Z) (prev : bool) :
  prev = true \/ d <> Decimal.Nil ->
  Py.int_digits acc prev (NilEmpty.string_of_uint d) = Some (horner d acc).
Proof.
  revert acc prev.
  induction d as [|d IH|d IH|d IH|d IH|d IH|d IH|d IH|d IH|d IH|d IH];
    intros acc prev Hd; [by destruct Hd as [->|?]|..];
    cbn [NilEmpty.string_of_uint horner];
    erewrite int_digits_digit by reflexivity; apply IH; by left.
Qed.

Lemma all_digits_uint (d : Decimal.uint) :
  all_digits (NilEmpty.string_of_uint d) = true.
Proof.
  induction d as [|d IH|d IH|d IH|d IH|d IH|d IH|d IH|d IH|d IH|d IH];
    [done|exact IH..].
Qed.

Lemma to_uint_not_nil (n : N) : N.to_uint n <> Decimal.Nil.
Proof.
  intros H. pose proof (DecimalN.Unsigned.of_to n) as E. rewrite H in E.
  destruct n as [|p]; [done|]. discriminate E.
Qed.

Lemma decimal_not_nil (n : N) :
  Py.decimal n = NilEmpty.string_of_uint (N.to_uint n).
Proof.
  unfold Py.decimal, NilZero.string_of_uint.
  pose proof (to_uint_not_nil n). by destruct (N.to_uint n).
Qed.

Lemma digit_not_space (c : ascii) :
  is_Some (Py.digit_val c) -> Py.int_space c = false.
Proof. destruct c as [[] [] [] [] [] [] [] []]; vm_compute; by intros [? ?]. Qed.

Lemma digit_not_colon (c : ascii) : is_Some (Py.digit_val c) -> c <> ":"%char.
Proof. intros H ->. by destruct H. Qed.

Lemma all_digits_no_space (s : string) :
  all_digits s = true -> no_char Py.int_space s = true.
Proof.
  induction s as [|c s IH]; [done|]. simpl.
  intros [Hc Hs]%andb_true_iff. apply bool_decide_eq_true in Hc.
  by rewrite (digit_not_space _ Hc), IH.
Qed.

Lemma no_char_app (p : ascii -> bool) (a b : string) :
  no_char p (a +:+ b) = no_char p a && no_char p b.
Proof.
  induction a as [|c a IH]; [done|]. rewrite str_app_cons. simpl.
  by rewrite IH, andb_assoc.
Qed.

Lemma no_char_rev (p : ascii -> bool) (s : string) :
  no_char p (String.rev s) = no_char p s.
Proof.
  induction s as [|c s IH]; [done|]. rewrite str_rev_cons, no_char_app, IH. simpl.
  rewrite andb_true_r. apply andb_comm.
Qed.

Lemma str_rev_involutive (s : string) : String.rev (String.rev s) = s.
Proof.
  induction s as [|c s IH]; [done|]. by rewrite str_rev_cons, str_rev_app_distr, IH.
Qed.

Lemma lstrip_by_none (p : ascii -> bool) (s : string) :
  no_char p s = true -> Py.lstrip_by p s = s.
Proof.
  destruct s as [|c s]; [done|]. simpl. intros [Hc _]%andb_true_iff.
  apply negb_true_iff in Hc. by rewrite Hc.
Qed.

Lemma strip_by_none (p : ascii -> bool) (s : string) :
  no_char p s = true -> Py.strip_by p s = s.
Proof.
  intros H. unfold Py.strip_by, Py.rstrip_by.
  rewrite (lstrip_by_none _ _ H), lstrip_by_none by (by rewrite no_char_rev).
  apply str_rev_involutive.
Qed.

(** The number of digits of a number below a power of ten. *)
Lemma horner_ge (d : Decimal.uint) (acc : Z) :
  0 <= acc -> acc * 10 ^ Z.of_nat (Decimal.nb_digits d) <= horner d acc.
Proof.
  revert acc. induction d as [|d IH|d IH|d IH|d IH|d IH|d IH|d IH|d IH|d IH|d IH];
    intros acc Hacc; cbn [horner Decimal.nb_digits]; [simpl; lia|..];
    (etrans; [|apply IH; lia]); rewrite Nat2Z.inj_succ, Z.pow_succ_r by lia;
    pose proof (Z.pow_pos_nonneg 10 (Z.of_nat (Decimal.nb_digits d))); nia.
Qed.

Lemma to_uint_zero_head (n : N) (d : Decimal.uint) :
  N.to_uint n = Decimal.D0 d -> d = Decimal.Nil.
Proof.
  intros H.
  assert (d <> Decimal.Nil -> False) as Hd.
  { intros Hd.
    pose proof (DecimalN.Unsigned.to_of (N.to_uint n)) as E.
    rewrite DecimalN.Unsigned.of_to, H, DecimalFacts.unorm_D0 in E.
    pose proof (DecimalFacts.nb_digits_unorm d Hd) as L.
    rewrite <- E in L. simpl in L. lia. }
  destruct d; [done|exfalso; by apply Hd..].
Qed.

Lemma to_uint_digits (n : N) (k : nat) :
  (0 < k)%nat -> Z.of_N n < 10 ^ Z.of_nat k ->
  (Decimal.nb_digits (N.to_uint n) <= k)%nat.
Proof.
  intros Hk Hn. pose proof (horner_to_uint n) as E.
  assert (forall d acc, 1 <= acc -> horner d acc = Z.of_N n ->
            (S (Decimal.nb_digits d) <= k)%nat) as Hd.
  { intros d acc Hacc Hh. pose proof (horner_ge d acc) as G. rewrite Hh in G.
    assert (10 ^ Z.of_nat (Decimal.nb_digits d) < 10 ^ Z.of_nat k) as L.
    { pose proof (Z.pow_pos_nonneg 10 (Z.of_nat (Decimal.nb_digits d))). nia. }
    apply Z.pow_lt_mono_r_iff in L; lia. }
  destruct (N.to_uint n) as [|d|d|d|d|d|d|d|d|d|d] eqn:Eu;
    cbn [horner Decimal.nb_digits] in *; [lia| |by eapply Hd; [|exact E]..].
  apply to_uint_zero_head in Eu as ->. simpl. lia.
Qed.

Lemma string_of_uint_length (d : Decimal.uint) :
  String.length (NilEmpty.string_of_uint d) = Decimal.nb_digits d.
Proof.
  induction d as [|d IH|d IH|d IH|d IH|d IH|d IH|d IH|d IH|d IH|d IH];
    cbn [NilEmpty.string_of_uint Decimal.nb_digits String.length]; congruence.
Qed.

Lemma decimal_length (n : N) :
  Z.of_N n < 2 ^ 63 -> (String.length (Py.decimal n) <= 19)%nat.
Proof.
  intros Hn. rewrite decimal_not_nil, string_of_uint_length.
  apply to_uint_digits; [lia|]. eapply Z.lt_trans; [exact Hn|]. reflexivity.
Qed.

Lemma count_digits_length (s : string) :
  (Py.count_digits s <= N.of_nat (String.length s))%N.
Proof.
  induction s as [|c s IH]; [done|]. cbn [Py.count_digits String.length].
  destruct (Py.digit_val c); lia.
Qed.

(** A digit is not a sign. *)
Lemma int_signed_digits (s : string) :
  all_digits s = true -> Py.int_signed s = Py.int_digits 0 false s.
Proof.
  destruct s as [|c s]; [done|]. cbn [all_digits].
  intros [Hc _]%andb_true_iff. apply bool_decide_eq_true in Hc. revert Hc.
  destruct c as [[] [] [] [] [] [] [] []]; try reflexivity;
    vm_compute; by intros [? ?].
Qed.

(** [int] on a string of at most 4300 digits. *)
Lemma int_all_digits (s : string) (z : Z) :
  all_digits s = true -> Py.int_digits 0 false s = Some z ->
  (String.length s <= 4300)%nat ->
  Py.int s = Ok z.
Proof.
  intros Hd Hz Hl. unfold Py.int.
  rewrite strip_by_none by (by apply all_digits_no_space).
  rewrite (int_signed_digits _ Hd), Hz.
  assert ((Py.int_max_str_digits <? Py.count_digits s)%N = false) as ->; [|done].
  apply N.ltb_ge. etrans; [apply count_digits_length|].
  unfold Py.int_max_str_digits. lia.
Qed.

(** [int] reads back what [format(z, "02d")] prints. *)
Lemma int_decimal (n : N) : Z.of_N n < 2 ^ 63 -> Py.int (Py.decimal n) = Ok (Z.of_N n).
Proof.
  intros Hn. apply int_all_digits.
  - rewrite decimal_not_nil. apply all_digits_uint.
  - rewrite decimal_not_nil, int_digits_uint by (right; apply to_uint_not_nil).
    by rewrite horner_to_uint.
  - pose proof (decimal_length n Hn). lia.
Qed.

Lemma int_zero_decimal (n : N) :
  Z.of_N n < 2 ^ 63 -> Py.int (String "0" (Py.decimal n)) = Ok (Z.of_N n).
Proof.
  intros Hn. apply int_all_digits.
  - cbn [all_digits]. rewrite decimal_not_nil. apply all_digits_uint.
  - rewrite decimal_not_nil. erewrite int_digits_digit by reflexivity.
    rewrite int_digits_uint by (by left). by rewrite horner_to_uint.
  - pose proof (decimal_length n Hn). cbn [String.length]. lia.
Qed.

Lemma int_format_02d (z : Z) : 0 <= z < 2 ^ 63 -> Py.int (Py.format_02d z) = Ok z.
Proof.
  intros Hz. unfold Py.format_02d.
  destruct (Z.ltb_spec z 0) as [?|_]; [lia|].
  case_match; rewrite ?int_zero_decimal, ?int_decimal by lia; f_equal; lia.
Qed.

Lemma all_digits_format_02d (z : Z) : 0 <= z -> all_digits (Py.format_02d z) = true.
Proof.
  intros Hz. unfold Py.format_02d.
  destruct (Z.ltb_spec z 0) as [?|_]; [lia|].
  case_match; simpl; rewrite decimal_not_nil; apply all_digits_uint.
Qed.

Lemma split_digits (a : string) :
  all_digits a = true -> Py.split ":" a = [a].
Proof.
  induction a as [|c a IH]; [done|]. simpl.
  intros [Hc Ha]%andb_true_iff. apply bool_decide_eq_true, digit_not_colon in Hc.
  rewrite decide_False by done. by rewrite IH.
Qed.

Lemma split_digits_colon (a rest : string) :
  all_digits a = true ->
  Py.split ":" (a +:+ String ":" rest) = a :: Py.split ":" rest.
Proof.
  induction a as [|c a IH]; [done|]. rewrite str_app_cons. simpl.
  intros [Hc Ha]%andb_true_iff. apply bool_decide_eq_true, digit_not_colon in Hc.
  rewrite decide_False by done. by rewrite IH.
Qed.

Lemma hms_of_total_unfold (total_time : Z) :
  hms_of_total total_time =
  Py.format_02d (total_time / 3600) +:+
  String ":" (Py.format_02d ((total_time - total_time / 3600 * 3600) / 60) +:+
              String ":" (Py.format_02d (total_time mod 60))).
Proof. reflexivity. Qed.

(** The rendering of a total of seconds reads back as that total. *)
Lemma hms_round_trip (total_time : Z) :
  0 <= total_time < 2 ^ 63 -> field_seconds (hms_of_total total_time) = Ok total_time.
Proof.
  intros H. unfold field_seconds. rewrite hms_of_total_unfold.
  set (hh := total_time / 3600). set (mm := (total_time - hh * 3600) / 60).
  set (ss := total_time mod 60).
  assert (0 <= hh < 2 ^ 63) as Hh.
  { split; [apply Z.div_pos; lia|]. apply Z.div_lt_upper_bound; lia. }
  assert (0 <= mm < 2 ^ 63) as Hm.
  { unfold mm, hh. pose proof (Z.mul_div_le total_time 3600).
    split; [apply Z.div_pos; lia|]. apply Z.div_lt_upper_bound; lia. }
  assert (0 <= ss < 2 ^ 63) as Hs.
  { pose proof (Z.mod_pos_bound total_time 60). lia. }
  rewrite !split_digits_colon, split_digits by (apply all_digits_format_02d; lia).
  rewrite !int_format_02d by done. f_equal.
  assert (ss = (total_time - hh * 3600) mod 60) as ->.
  { unfold ss. replace (total_time - hh * 3600) with (total_time + (- 60 * hh) * 60) by lia.
    by rewrite Z_mod_plus_full. }
  pose proof (Z.div_mod (total_time - hh * 3600) 60). fold mm in H0. lia.
Qed.
(** ** The throughput parser *)

Section ThroughputParserFacts.

Variable wide_hms : list Z -> result string.

Lemma filter_existsb_false {A} (p : A -> bool) (xs : list A) :
  existsb p xs = false -> filter (λ x, p x) xs = [].
Proof.
  induction xs as [|x xs IH]; simpl; [done|].
  intros [Hx Hxs]%orb_false_iff. rewrite filter_cons, Hx. simpl. auto.
Qed.

Lemma filter_existsb_true {A} (p : A -> bool) (xs : list A) :
  existsb p xs = true -> exists x, last (filter (λ x, p x) xs) = Some x.
Proof.
  intros (x & Hin & Hp)%existsb_exists.
  destruct (filter (λ x, p x) xs) as [|y ys] eqn:E.
  - assert (x ∈ filter (λ x, p x) xs) as Hx.
    { apply list_elem_of_filter. split; [by rewrite Hp|by apply list_elem_of_In]. }
    rewrite E in Hx. by apply not_elem_of_nil in Hx.
  - destruct (last (y :: ys)) as [z|] eqn:L; [eauto|].
    by apply last_None in L.
Qed.

Lemma file_tps_none lines : has_tps_marker lines = false -> file_tps lines = None.
Proof.
  intros H. unfold file_tps. by rewrite (filter_existsb_false _ _ H).
Qed.

Lemma file_tps_some lines : has_tps_marker lines = true -> is_Some (file_tps lines).
Proof.
  intros H. unfold file_tps.
  destruct (filter_existsb_true _ _ H) as [x ->]. by eexists.
Qed.

Lemma int_raises s e : Py.int s = Raise e -> e = ValueError.
Proof. unfold Py.int. repeat case_match; try done; by intros [= <-]. Qed.

(** One turn of the loop, case by case. *)
Lemma parse_log_no_tps lines l :
  has_tps_marker lines = false -> parse_log lines l = (l, Ok tt).
Proof.
  intros H. unfold parse_log, try_except. rewrite bind_unfold. unfold lift.
  rewrite (filter_existsb_false _ _ H). reflexivity.
Qed.

Lemma parse_log_tps_only lines l v :
  file_tps lines = Some v -> file_time_field lines = None ->
  parse_log lines l = ({| tps := Some v; times := times l |}, Ok tt).
Proof.
  unfold file_tps, file_time_field, parse_log, try_except. intros Hv Hf.
  rewrite bind_unfold. unfold lift, Py.index_last at 1.
  destruct (last (filter _ lines)) as [tl|]; [|done]. simpl in Hv.
  injection Hv as <-. rewrite !bind_unfold. unfold set_tps, modify at 1.
  rewrite bind_unfold. unfold Py.index_last.
  destruct (last (filter (λ l0, Py.contains "Time" l0) lines)) as [t_last|]; [|done].
  simpl in Hf. rewrite bind_unfold. unfold Py.index. rewrite Hf. reflexivity.
Qed.

Lemma parse_log_counted lines l v field :
  file_tps lines = Some v -> file_time_field lines = Some field ->
  parse_log lines l =
  match field_seconds field with
  | Ok t => ({| tps := Some v; times := times l ++ [t] |}, Ok tt)
  | Raise e => ({| tps := Some v; times := times l |}, Raise ValueError)
  end.
Proof.
  unfold file_tps, file_time_field, parse_log, try_except, field_seconds.
  intros Hv Hf.
  rewrite bind_unfold. unfold lift, Py.index_last at 1.
  destruct (last (filter _ lines)) as [tl|]; [|done]. simpl in Hv.
  injection Hv as <-. rewrite !bind_unfold. unfold set_tps, modify at 1.
  rewrite bind_unfold. unfold Py.index_last.
  destruct (last (filter (λ l0, Py.contains "Time" l0) lines)) as [t_last|]; [|done].
  simpl in Hf. rewrite bind_unfold. unfold Py.index. rewrite Hf.
  rewrite bind_unfold. unfold Py.unpack3.
  destruct (Py.split ":" field) as [|h [|m [|s [|? ?]]]]; try reflexivity.
  rewrite !bind_unfold.
  destruct (Py.int h) as [h'|e] eqn:Eh;
    [|by rewrite (int_raises _ _ Eh); destruct (Py.int m), (Py.int s)].
  rewrite bind_unfold.
  destruct (Py.int m) as [m'|e] eqn:Em;
    [|by rewrite (int_raises _ _ Em); destruct (Py.int s)].
  rewrite bind_unfold.
  destruct (Py.int s) as [s'|e] eqn:Es; [reflexivity|].
  by rewrite (int_raises _ _ Es).
Qed.

(** The loop as a whole, when every counted file has a well-formed time:
    [tps] is the value of the last file that has one, and [times] grows by
    the seconds of the counted files, in order. *)
Lemma for_each_parse_log outfiles secs l :
  Forall2 (λ f t, file_seconds f = Ok t) (filter (λ f, counted f) outfiles) secs ->
  for_each outfiles parse_log l =
  ({| tps := match last (omap file_tps outfiles) with
             | Some v => Some v
             | None => tps l
             end;
      times := times l ++ secs |}, Ok tt).
Proof.
  revert secs l. induction outfiles as [|f outfiles IH]; intros secs l H.
  - rewrite filter_nil in H. apply Forall2_nil_inv_l in H as ->.
    simpl. rewrite app_nil_r. by destruct l.
  - simpl for_each. rewrite bind_unfold. rewrite filter_cons in H.
    simpl omap.
    destruct (has_tps_marker f) eqn:Ht.
    + destruct (file_tps_some _ Ht) as [v Hv]. rewrite Hv.
      destruct (file_time_field f) as [field|] eqn:Hf.
      * assert (counted f = true) as Hc.
        { unfold counted. rewrite Ht, Hf. reflexivity. }
        rewrite decide_True in H by (by rewrite Hc).
        apply Forall2_cons_inv_l in H as (t & secs' & Hs & H & ->).
        unfold file_seconds in Hs. rewrite Hf in Hs.
        rewrite (parse_log_counted _ _ _ _ Hv Hf), Hs.
        rewrite (IH _ _ H). simpl. rewrite <- app_assoc. simpl.
        rewrite last_cons.
        change (list_omap _ _ file_tps outfiles) with (omap file_tps outfiles).
        by destruct (last (omap file_tps outfiles)).
      * assert (counted f = false) as Hc.
        { unfold counted. rewrite Ht, Hf. reflexivity. }
        rewrite decide_False in H by (rewrite Hc; intros []).
        rewrite (parse_log_tps_only _ _ _ Hv Hf), (IH _ _ H). simpl.
        rewrite last_cons.
        change (list_omap _ _ file_tps outfiles) with (omap file_tps outfiles).
        by destruct (last (omap file_tps outfiles)).
    + assert (counted f = false) as Hc by (unfold counted; by rewrite Ht).
      rewrite decide_False in H by (rewrite Hc; intros []).
      rewrite (parse_log_no_tps _ _ Ht), (file_tps_none _ Ht). by apply IH.
Qed.

Lemma wrap_int64_id z : - 2 ^ 63 <= z < 2 ^ 63 -> Numpy.wrap_int64 z = z.
Proof.
  intros H. unfold Numpy.wrap_int64. rewrite Z.mod_small; lia.
Qed.

Lemma forallb_in_int64 secs :
  Forall (λ t, - 2 ^ 63 <= t < 2 ^ 63) secs -> forallb Numpy.in_int64 secs = true.
Proof.
  intros H. apply forallb_forall. intros t Ht%list_elem_of_In.
  rewrite Forall_forall in H. specialize (H t Ht). unfold Numpy.in_int64.
  apply andb_true_iff. split; [apply Z.leb_le|apply Z.ltb_lt]; lia.
Qed.

(** C1, as the specification words it, fails on its own example: [file1] has
    no throughput marker, the [IndexError] of line 213 skips the rest of the
    [try] block, and its hour is not counted. *)
Lemma get_tps_time_example_counterexample :
  get_tps_time no_wide_hms [file1; file2] = Ok ("120", "00:30:15") /\
  get_tps_time no_wide_hms [file1; file2] <> Ok ("120", "01:30:15").
Proof. split; [reflexivity|discriminate]. Qed.

(** C1, amended: when some file has both a throughput marker and a time
    field, the time fields of such files are well formed and the seconds fit
    64 bits, [get_tps_time] returns; the returned time is the sum of the
    seconds of the files that have a throughput marker and a time field,
    rendered as zero-padded [HH:MM:SS] (which reads back as that sum), and
    the returned throughput is that of the last file that has a throughput
    marker. *)
Theorem get_tps_time_aggregates (outfiles : list (list string)) (secs : list Z) :
  Forall2 (λ f t, file_seconds f = Ok t) (filter (λ f, counted f) outfiles) secs ->
  secs <> [] ->
  Forall (λ t, - 2 ^ 63 <= t < 2 ^ 63) secs ->
  - 2 ^ 63 <= Numpy.total secs < 2 ^ 63 ->
  exists v,
    last (omap file_tps outfiles) = Some v /\
    get_tps_time wide_hms outfiles = Ok (v, hms_of_total (Numpy.total secs)) /\
    (0 <= Numpy.total secs ->
     field_seconds (hms_of_total (Numpy.total secs)) = Ok (Numpy.total secs)).
Proof.
  intros H Hne Hall Htot. unfold get_tps_time.
  rewrite (for_each_parse_log _ _ _ H). simpl.
  assert (exists v, last (omap file_tps outfiles) = Some v) as [v Hv].
  { destruct (filter (λ f, counted f) outfiles) as [|f fs] eqn:E.
    { apply Forall2_nil_inv_l in H. done. }
    assert (f ∈ filter (λ f, counted f) outfiles) as Hf by (rewrite E; left).
    apply list_elem_of_filter in Hf as [Hc Hin].
    unfold counted in Hc. apply Is_true_true, andb_true_iff in Hc as [Ht _].
    destruct (file_tps_some _ Ht) as [v Hv].
    destruct (last (omap file_tps outfiles)) as [v'|] eqn:L; [eauto|].
    apply last_None in L.
    assert (v ∈ omap file_tps outfiles) as Hx by (apply list_elem_of_omap; eauto).
    rewrite L in Hx. by apply not_elem_of_nil in Hx. }
  exists v. split; [done|]. split; [|intros; apply hms_round_trip; lia].
  rewrite Hv. unfold finish. simpl.
  unfold Numpy.sum. destruct secs as [|t secs]; [done|].
  rewrite (forallb_in_int64 _ Hall), wrap_int64_id by done. reflexivity.
Qed.

(** C4: a log file with neither marker leaves [tps] and [times] as they
    were, raises nothing, and the result is the same as without the file. *)
Theorem get_tps_time_skips_unmarked (before after : list (list string))
  (f : list string) (l : locals) :
  has_tps_marker f = false ->
  has_time_marker f = false ->
  parse_log f l = (l, Ok tt) /\
  get_tps_time wide_hms (before ++ f :: after) = get_tps_time wide_hms (before ++ after).
Proof.
  intros Ht _. split; [by apply parse_log_no_tps|].
  unfold get_tps_time. rewrite !for_each_app.
  destruct (for_each before parse_log _) as [l1 [[]|e]]; [|done].
  simpl for_each. rewrite bind_unfold, (parse_log_no_tps _ _ Ht). reflexivity.
Qed.

(** C10: when no log file has a throughput-marker line, whether or not some
    have time-marker lines, [tps] is never assigned and the [return] raises
    [UnboundLocalError]. *)
Theorem get_tps_time_unbound (outfiles : list (list string)) :
  Forall (λ f, has_tps_marker f = false) outfiles ->
  get_tps_time wide_hms outfiles = Raise UnboundLocalError.
Proof.
  intros H. unfold get_tps_time.
  assert (for_each outfiles parse_log {| tps := None; times := [] |}
          = ({| tps := None; times := [] |}, Ok tt)) as ->; [|done].
  generalize {| tps := None; times := [] |}.
  induction H as [|f fs Hf _ IH]; intros l; simpl; [done|].
  rewrite bind_unfold, (parse_log_no_tps _ _ Hf). apply IH.
Qed.

End ThroughputParserFacts.

Lemma get_tps_time_aggregates_witness :
  exists v,
    last (omap file_tps [file1; file2]) = Some v /\
    get_tps_time no_wide_hms [file1; file2] = Ok (v, hms_of_total (Numpy.total [1815])) /\
    (0 <= Numpy.total [1815] ->
     field_seconds (hms_of_total (Numpy.total [1815])) = Ok (Numpy.total [1815])).
Proof.
  apply get_tps_time_aggregates.
  - repeat constructor.
  - discriminate.
  - repeat constructor; lia.
  - simpl; lia.
Defined.

Lemma get_tps_time_skips_unmarked_witness :
  parse_log ["analysis started" +:+ nl] {| tps := None; times := [] |}
    = ({| tps := None; times := [] |}, Ok tt) /\
  get_tps_time no_wide_hms ([file2] ++ ["analysis started" +:+ nl] :: [file2])
    = get_tps_time no_wide_hms ([file2] ++ [file2]).
Proof. apply get_tps_time_skips_unmarked; reflexivity. Defined.

Lemma get_tps_time_unbound_witness :
  get_tps_time no_wide_hms [file1; ["Time 00:00:07"]] = Raise UnboundLocalError.
Proof. apply get_tps_time_unbound. repeat constructor. Defined.

(** ** Labels and eligibility *)

(** C2, with the target read from the statepoint, fails: [sampled] compares
    with [job.doc.steps], here 10, and is true at step 50 although the
    statepoint's [n_steps] is 100. *)
Lemma sampled_statepoint_counterexample :
  last [frame_at 0; frame_at 50] = Some (frame_at 50) /\
  ~ (sampled job0 world_short = Ok true <->
     n_steps (sp job0) <= Z.of_N (step (frame_at 50))).
Proof.
  split; [reflexivity|]. intros [H _].
  assert (sampled job0 world_short = Ok true) as Hs by reflexivity.
  specialize (H Hs). simpl in H. lia.
Qed.

(** C2, amended: with a trajectory file, [sampled] is true iff the step of
    the final frame is at least the target stored in the job document
    ([job.doc.steps]); without one, [current_step] is [-1], which no step
    counter equals, and [sampled] is false for a non-negative target. *)
Theorem sampled_iff_final_step_ge_doc_steps (j : job) (w : world) :
  (forall traj snap steps,
     fs w !! fn j "trajectory.gsd" = Some (File (Gsd traj)) ->
     last traj = Some snap ->
     doc w !! "steps" = Some (DInt steps) ->
     (sampled j w = Ok true <-> steps <= Z.of_N (step snap)) /\
     (sampled j w = Ok false <-> Z.of_N (step snap) < steps)) /\
  (job_isfile j "trajectory.gsd" w = false ->
     current_step j w = Ok (-1) /\
     (forall snap : frame, Z.of_N (step snap) <> -1) /\
     (forall steps, doc w !! "steps" = Some (DInt steps) -> 0 <= steps ->
        sampled j w = Ok false)).
Proof.
  split.
  - intros traj snap steps Hf Hl Hd.
    assert (sampled j w = Ok (steps <=? Z.of_N (step snap))) as ->.
    { unfold sampled, current_step, job_isfile, Os.isfile, gsd_open, doc_attr,
        Py.index_last. by rewrite Hf, Hl, Hd. }
    destruct (Z.leb_spec steps (Z.of_N (step snap))); split; split;
      intros; try done; try lia.
  - intros Hf. unfold sampled, current_step. rewrite Hf.
    split; [done|]. split; [lia|].
    intros steps Hd Hs. unfold doc_attr. rewrite Hd. f_equal.
    apply Z.leb_gt. lia.
Qed.

Lemma sampled_iff_final_step_ge_doc_steps_witness :
  ((sampled job0 world0 = Ok true <-> 100 <= Z.of_N (step (frame_at 100))) /\
   (sampled job0 world0 = Ok false <-> Z.of_N (step (frame_at 100)) < 100)) /\
  current_step job0 world_fresh = Ok (-1).
Proof.
  split.
  - apply (proj1 (sampled_iff_final_step_ge_doc_steps job0 world0) traj0);
      reflexivity.
  - apply (proj2 (sampled_iff_final_step_ge_doc_steps job0 world_fresh)).
    reflexivity.
Defined.

(** C3: [sample] is eligible exactly when [sampled] is false; [post_proc] is
    eligible exactly when [sampled] is true and [rdfed] is false; the two
    are never eligible together. *)
Theorem eligibility_two_stage (j : job) (w : world) :
  eligible sample j w =
    match sampled j w with
    | Ok b => Ok (negb b)
    | Raise e => Raise e
    end /\
  eligible post_proc_op j w =
    match sampled j w with
    | Ok b => Ok (b && negb (job_isfile j "rdf.txt" w))
    | Raise e => Raise e
    end /\
  pre sample = [] /\
  ~ (eligible sample j w = Ok true /\ eligible post_proc_op j w = Ok true).
Proof.
  unfold eligible. simpl. unfold rdfed.
  destruct (sampled j w) as [[|]|e]; repeat split; try done.
  - by destruct (job_isfile j "rdf.txt" w).
  - by intros [? ?].
  - by intros [? ?].
  - by intros [? ?].
Qed.

(** ** Paths that the operation touches *)

Lemma owned_not_absolute (own : string -> bool) (s : string) :
  (forall r, own (String "/" r) = false) ->
  own s = true -> Py.startswith "/" s = false.
Proof.
  intros Habs Hs. destruct s as [|c s]; [done|]. simpl.
  case_decide as Hc; [|done]. subst c. by rewrite Habs in Hs.
Qed.

Lemma owned_rdf_msd_relative r : owned_rdf_msd (String "/" r) = false.
Proof. reflexivity. Qed.

Lemma owned_diffraction_relative r : owned_diffraction (String "/" r) = false.
Proof. reflexivity. Qed.

Lemma owned_relative r : owned (String "/" r) = false.
Proof. reflexivity. Qed.

Lemma touched_join (own : string -> bool) (j : job) (s : string) :
  (forall r, own (String "/" r) = false) ->
  own s = true -> touched own j (Os.path_join (ws j) s).
Proof.
  intros Habs Hs. exists s. split; [done|].
  apply path_join_relative. by apply owned_not_absolute with own.
Qed.

Lemma touched_weaken (own own' : string -> bool) (j : job) (p : string) :
  (forall s, own s = true -> own' s = true) ->
  touched own j p -> touched own' j p.
Proof. intros Hsub (s & Hs & ->). exists s. auto. Qed.

Lemma foreign_weaken (own own' : string -> bool) (j : job) (k : string) :
  (forall s, own s = true -> own' s = true) ->
  foreign own' j k -> foreign own j k.
Proof.
  intros Hsub Hk p r Hp. apply Hk. by apply touched_weaken with own.
Qed.

(** ** The relation [stable] and the computations that keep it *)

Section Stable.

Variable own : string -> bool.
Variable j : job.

Lemma stable_refl (w : world) : stable own j w w.
Proof.
  repeat split; try done. exists []. by rewrite app_nil_r.
Qed.

Lemma stable_trans (w1 w2 w3 : world) :
  stable own j w1 w2 -> stable own j w2 w3 -> stable own j w1 w3.
Proof.
  intros (Hf1 & He1 & Hd1 & evs1 & Hl1 & Ho1) (Hf2 & He2 & Hd2 & evs2 & Hl2 & Ho2).
  repeat split.
  - intros k Hk. by rewrite Hf2, Hf1.
  - intros k Hk. auto.
  - intros key Hkey. by rewrite Hd2, Hd1.
  - exists (evs1 ++ evs2). split.
    + by rewrite Hl2, Hl1, app_assoc.
    + by apply Forall_app.
Qed.

Lemma keeps_ret {A} (a : A) : keeps own j (mret a).
Proof. intros w w' r [= <- _]. apply stable_refl. Qed.

Lemma keeps_lift {A} (x : result A) : keeps own j (lift x).
Proof. intros w w' r [= <- _]. apply stable_refl. Qed.

Lemma keeps_bind {A B} (m : M world A) (k : A -> M world B) :
  keeps own j m -> (forall a, keeps own j (k a)) -> keeps own j (m ≫= k).
Proof.
  intros Hm Hk w w' r. rewrite bind_unfold.
  destruct (m w) as [w1 [a|e]] eqn:E.
  - intros H. eapply stable_trans; [by eapply Hm|by eapply Hk].
  - intros [= <- _]. by eapply Hm.
Qed.

Lemma keeps_gsd_open (name : string) : keeps own j (gsd_open name).
Proof.
  intros w w' r. unfold gsd_open. repeat case_match; intros [= <- _];
    apply stable_refl.
Qed.

Lemma keeps_pygsd_open (name : string) : keeps own j (pygsd_open name).
Proof.
  intros w w' r. unfold pygsd_open. repeat case_match; intros [= <- _];
    apply stable_refl.
Qed.

Lemma keeps_msd_from_gsd (g : string) (a b : Z) (t md : string) :
  keeps own j (msd_from_gsd g a b t md).
Proof.
  unfold msd_from_gsd.
  apply keeps_bind; [apply keeps_pygsd_open|]. intros traj.
  apply keeps_bind; [apply keeps_lift|]. intros ps.
  apply keeps_bind; [apply keeps_lift|]. intros lf. apply keeps_lift.
Qed.

(** A step that changes only matplotlib's figures. *)
Lemma stable_set_figs (f : gmap nat figure) (cur : option nat) (w : world) :
  stable own j w (Plt.set_figs f cur w).
Proof. repeat split; try done. exists []. by rewrite app_nil_r. Qed.

Lemma keeps_figure_new : keeps own j Plt.figure_new.
Proof. intros w w' r [= <- _]. apply stable_set_figs. Qed.

Lemma keeps_figure_num (n : nat) : keeps own j (Plt.figure_num n).
Proof.
  intros w w' r. unfold Plt.figure_num. case_match; intros [= <- _];
    apply stable_set_figs.
Qed.

Lemma keeps_current : keeps own j Plt.current.
Proof.
  intros w w' r. unfold Plt.current. case_match.
  - intros [= <- _]. apply stable_refl.
  - apply keeps_figure_new.
Qed.

Lemma keeps_draw (a : artist) : keeps own j (Plt.draw a).
Proof.
  unfold Plt.draw. apply keeps_bind; [apply keeps_current|]. intros n.
  intros w w' r [= <- _]. apply stable_set_figs.
Qed.

Lemma foldr_ensure_dir_lookup (l : list string) (m : gmap string node) (k : string) :
  foldr Os.ensure_dir m l !! k =
  match m !! k with
  | Some x => Some x
  | None => if decide (k ∈ l) then Some Dir else None
  end.
Proof.
  revert k. induction l as [|d l IH]; intros k; simpl.
  - by destruct (m !! k).
  - assert (forall k', k' <> d ->
      (if decide (k' ∈ d :: l) then Some Dir else None)
      = (if decide (k' ∈ l) then Some Dir else @None node)) as Hne.
    { intros k' Hk'. repeat case_decide; try done.
      - exfalso. apply elem_of_cons in H as [?|?]; done.
      - exfalso. apply H. by right. }
    unfold Os.ensure_dir at 1.
    destruct (foldr Os.ensure_dir m l !! d) as [x|] eqn:E.
    + rewrite IH. destruct (m !! k) eqn:Ek; [done|].
      destruct (decide (k = d)) as [->|Hkd]; [|by rewrite Hne].
      rewrite IH, Ek in E. rewrite (decide_True (P := d ∈ d :: l)) by left.
      by case_decide.
    + destruct (decide (k = d)) as [->|Hkd].
      * rewrite lookup_insert_eq. rewrite IH in E.
        destruct (m !! d); [done|].
        by rewrite (decide_True (P := d ∈ d :: l)) by left.
      * rewrite lookup_insert_ne by done. rewrite IH.
        destruct (m !! k); [done|]. by rewrite Hne.
Qed.

Lemma foreign_not_touched (k p : string) :
  foreign own j k -> touched own j p -> k <> p.
Proof.
  intros Hk Hp ->. apply (Hk p EmptyString Hp). by rewrite str_app_nil_r.
Qed.

Lemma foreign_not_ancestor (k p : string) :
  foreign own j k -> touched own j p -> k ∉ Os.ancestors p.
Proof.
  intros Hk Hp [r ->]%ancestors_prefix. by apply (Hk _ r Hp).
Qed.

Lemma stable_write (p : string) (c : content) (w : world) :
  touched own j p ->
  stable own j w (Os.record (EvWrite p c) (Os.set_fs (insert p (File c)) w)).
Proof.
  intros Hp. split; [|split; [|split]]; simpl.
  - intros k Hk. rewrite lookup_insert_ne; [done|].
    intros Heq. by apply (foreign_not_touched k p Hk Hp).
  - intros k Hk. destruct (decide (p = k)) as [->|Hne].
    + rewrite lookup_insert_eq. by eexists.
    + by rewrite lookup_insert_ne.
  - done.
  - eexists. split; [done|]. by repeat constructor.
Qed.

Lemma keeps_check_parent (p : string) : keeps own j (Os.check_parent p).
Proof.
  intros w w' r. unfold Os.check_parent. repeat case_match; intros [= <- _];
    apply stable_refl.
Qed.

Lemma keeps_write_file (p : string) (c : content) :
  touched own j p -> keeps own j (Os.write_file p c).
Proof.
  intros Hp w w' r. unfold Os.write_file.
  destruct (Os.check_parent p w) as [w1 [[]|e]] eqn:E.
  - repeat case_match; intros [= <- _]; try apply stable_refl;
      by apply stable_write.
  - intros [= <- _]. by apply (keeps_check_parent p w _ _ E).
Qed.

Lemma keeps_mkdir (p : string) : touched own j p -> keeps own j (Os.mkdir p).
Proof.
  intros Hp w w' r. unfold Os.mkdir.
  destruct (fs w !! p) eqn:Ep; [intros [= <- _]; apply stable_refl|].
  destruct (Os.check_parent p w) as [w1 [[]|e]] eqn:E.
  - intros [= <- _]. split; [|split; [|split]]; simpl.
    + intros k Hk. rewrite lookup_insert_ne; [done|].
      intros Heq. by apply (foreign_not_touched k p Hk Hp).
    + intros k Hk. destruct (decide (p = k)) as [->|Hne].
      * rewrite lookup_insert_eq. by eexists.
      * by rewrite lookup_insert_ne.
    + done.
    + eexists. split; [done|]. by repeat constructor.
  - intros [= <- _]. by apply (keeps_check_parent p w _ _ E).
Qed.

Lemma keeps_makedirs (p : string) : touched own j p -> keeps own j (Os.makedirs p).
Proof.
  intros Hp w w' r. unfold Os.makedirs.
  destruct (fs w !! p) eqn:Ep; [intros [= <- _]; apply stable_refl|].
  case_match; intros [= <- _]; [apply stable_refl|].
  split; [|split; [|split]]; simpl.
  - intros k Hk. rewrite lookup_insert_ne.
    2:{ intros Heq. by apply (foreign_not_touched k p Hk Hp). }
    rewrite foldr_ensure_dir_lookup. destruct (fs w !! k); [done|].
    rewrite decide_False; [done|]. by apply foreign_not_ancestor.
  - intros k Hk. destruct (decide (p = k)) as [->|Hne].
    + rewrite lookup_insert_eq. by eexists.
    + rewrite lookup_insert_ne by done. rewrite foldr_ensure_dir_lookup.
      by destruct Hk as [x ->].
  - done.
  - eexists. split; [done|]. by repeat constructor.
Qed.

Lemma touched_app (p x : string) :
  (forall s r, own s = true -> own (s +:+ r) = true) ->
  touched own j p -> touched own j (p +:+ x).
Proof.
  intros Happ (s & Hs & ->). exists (s +:+ x). split; [auto|].
  by rewrite str_app_assoc.
Qed.

Lemma keeps_np_save (p : string) (a : array) :
  (forall s r, own s = true -> own (s +:+ r) = true) ->
  touched own j p -> keeps own j (Np.save p a).
Proof.
  intros Happ Hp. unfold Np.save. apply keeps_write_file.
  case_match; [done|]. by apply touched_app.
Qed.

Lemma keeps_savefig (p : string) : touched own j p -> keeps own j (Plt.savefig p).
Proof.
  intros Hp. unfold Plt.savefig.
  apply keeps_bind; [apply keeps_current|]. intros n.
  apply keeps_bind; [intros w w' r [= <- _]; apply stable_refl|]. intros w0.
  by apply keeps_write_file.
Qed.

Lemma keeps_doc_set (v : docval) : keeps own j (doc_set "msd_slopes" v).
Proof.
  intros w w' r [= <- _]. split; [|split; [|split]]; simpl; try done.
  - intros key Hkey. by rewrite lookup_insert_ne.
  - eexists. split; [done|]. by repeat constructor.
Qed.

End Stable.

Lemma stable_weaken (own own' : string -> bool) (j : job) (w w' : world) :
  (forall s, own s = true -> own' s = true) ->
  stable own j w w' -> stable own' j w w'.
Proof.
  intros Hsub (Hf & He & Hd & evs & Hl & Ho). split; [|split; [|split]]; try done.
  - intros k Hk. apply Hf. by apply foreign_weaken with own'.
  - exists evs. split; [done|]. eapply Forall_impl; [done|].
    intros [p|p|p c|key v]; simpl; try done; by apply touched_weaken.
Qed.

Lemma keeps_weaken {A} (own own' : string -> bool) (j : job) (m : M world A) :
  (forall s, own s = true -> own' s = true) ->
  keeps own j m -> keeps own' j m.
Proof. intros Hsub Hm w w' r H. eapply stable_weaken; [done|]. by eapply Hm. Qed.

Lemma owned_rdf_msd_app s r : owned_rdf_msd s = true -> owned_rdf_msd (s +:+ r) = true.
Proof.
  unfold owned_rdf_msd. intros [H|H]%orb_true_iff; apply orb_true_iff;
    [left|right]; by apply startswith_app.
Qed.

Lemma owned_diffraction_app s r :
  owned_diffraction s = true -> owned_diffraction (s +:+ r) = true.
Proof.
  unfold owned_diffraction. intros [H|H]%orb_true_iff; apply orb_true_iff;
    [left|right]; by apply startswith_app.
Qed.

Lemma owned_rdf_msd_owned s : owned_rdf_msd s = true -> owned s = true.
Proof. unfold owned. by intros ->. Qed.

Lemma owned_diffraction_owned s : owned_diffraction s = true -> owned s = true.
Proof. unfold owned. intros ->. apply orb_true_r. Qed.

(** ** The analysis operation *)

Section AnalysisFacts.

Variable get_quaternions : list quaternion.
Variable quaternion_str : quaternion -> string.

Local Abbreviation run_post_proc := (post_proc get_quaternions quaternion_str).
Local Abbreviation run_diffraction := (diffraction_stage get_quaternions quaternion_str).

Lemma touched_rdf_msd (j : job) (s : string) :
  owned_rdf_msd s = true -> touched owned_rdf_msd j (Os.path_join (ws j) s).
Proof. apply touched_join, owned_rdf_msd_relative. Qed.

Lemma touched_diffraction (j : job) (s : string) :
  owned_diffraction s = true -> touched owned_diffraction j (Os.path_join (ws j) s).
Proof. apply touched_join, owned_diffraction_relative. Qed.

Lemma keeps_analyse_type j slopes t :
  keeps owned_rdf_msd j (analyse_type j (trajectory_path j) slopes t).
Proof.
  unfold analyse_type.
  apply keeps_bind; [by apply keeps_write_file, touched_rdf_msd|]. intros _.
  apply keeps_bind; [apply keeps_figure_new|]. intros _.
  apply keeps_bind; [apply keeps_draw|]. intros _.
  apply keeps_bind; [by apply keeps_savefig, touched_rdf_msd|]. intros _.
  apply keeps_bind; [apply keeps_figure_num|]. intros _.
  apply keeps_bind; [apply keeps_msd_from_gsd|]. intros msd_array.
  apply keeps_bind.
  { apply keeps_np_save; [apply owned_rdf_msd_app|by apply touched_rdf_msd]. }
  intros _.
  apply keeps_bind; [apply keeps_draw|]. intros _.
  apply keeps_bind; [by apply keeps_savefig, touched_rdf_msd|]. intros _.
  apply keeps_bind; [apply keeps_msd_from_gsd|]. intros msd_slope_array.
  apply keeps_ret.
Qed.

Lemma keeps_analyse_types j slopes ts :
  keeps owned_rdf_msd j (analyse_types j (trajectory_path j) slopes ts).
Proof.
  revert slopes. induction ts as [|t ts IH]; intros slopes; simpl.
  - apply keeps_ret.
  - apply keeps_bind; [apply keeps_analyse_type|]. intros slopes'. apply IH.
Qed.

Lemma keeps_rdf_msd_stage j :
  keeps owned_rdf_msd j (rdf_msd_stage j (trajectory_path j)).
Proof.
  unfold rdf_msd_stage.
  apply keeps_bind; [apply keeps_gsd_open|]. intros f.
  apply keeps_bind; [apply keeps_lift|]. intros snap.
  apply keeps_bind; [by apply keeps_makedirs, touched_rdf_msd|]. intros _.
  apply keeps_bind; [by apply keeps_makedirs, touched_rdf_msd|]. intros _.
  apply keeps_bind; [by apply keeps_makedirs, touched_rdf_msd|]. intros _.
  apply keeps_bind; [apply keeps_analyse_types|]. intros slopes.
  apply keeps_doc_set.
Qed.

Lemma keeps_diffract j b pts q_list q :
  keeps owned_diffraction j (diffract quaternion_str j b pts q_list q).
Proof.
  unfold diffract.
  apply keeps_bind; [apply keeps_figure_new|]. intros _.
  apply keeps_bind; [apply keeps_draw|]. intros _.
  apply keeps_bind; [by apply keeps_savefig, touched_diffraction|]. intros _.
  apply keeps_ret.
Qed.

Lemma keeps_diffract_all j b pts q_list qs :
  keeps owned_diffraction j (diffract_all quaternion_str j b pts q_list qs).
Proof.
  revert q_list. induction qs as [|q qs IH]; intros q_list; simpl.
  - apply keeps_ret.
  - apply keeps_bind; [apply keeps_diffract|]. intros q_list'. apply IH.
Qed.

Lemma keeps_diffraction_stage j :
  keeps owned_diffraction j (run_diffraction j (trajectory_path j)).
Proof.
  unfold diffraction_stage.
  apply keeps_bind; [apply keeps_gsd_open|]. intros f.
  apply keeps_bind; [apply keeps_lift|]. intros snap.
  apply keeps_bind; [by apply keeps_mkdir, touched_diffraction|]. intros _.
  apply keeps_bind; [apply keeps_diffract_all|]. intros q_list.
  apply keeps_np_save; [apply owned_diffraction_app|by apply touched_diffraction].
Qed.

Lemma keeps_post_proc j : keeps owned j (run_post_proc j).
Proof.
  unfold post_proc. apply keeps_bind.
  - eapply keeps_weaken; [apply owned_rdf_msd_owned|apply keeps_rdf_msd_stage].
  - intros _. eapply keeps_weaken; [apply owned_diffraction_owned|].
    apply keeps_diffraction_stage.
Qed.

(** The marker and the trajectory are foreign to the operation. *)
Lemma foreign_literal j (name : string) :
  Py.startswith "/" name = false ->
  (forall r, owned (name +:+ r) = false) ->
  foreign owned j (fn j name).
Proof.
  intros Hrel Hname p r (s & Hs & ->) Heq. unfold fn in Heq.
  rewrite path_join_relative, str_app_assoc in Heq by done.
  apply (inj (String.app _)) in Heq. subst s. by rewrite Hname in Hs.
Qed.

Lemma foreign_rdf_marker j : foreign owned j (fn j "rdf.txt").
Proof. by apply foreign_literal. Qed.

Lemma foreign_trajectory j : foreign owned j (trajectory_path j).
Proof. by apply foreign_literal. Qed.

End AnalysisFacts.

(** ** Running the primitives *)

Lemma lift_inv {A} (x : result A) (w w' : world) (a : A) :
  lift x w = (w', Ok a) -> w' = w /\ x = Ok a.
Proof. by intros [= <- ->]. Qed.

Lemma gsd_open_inv (p : string) (w w' : world) (f : list frame) :
  gsd_open p w = (w', Ok f) -> w' = w /\ fs w !! p = Some (File (Gsd f)).
Proof.
  unfold gsd_open. repeat case_match; intros [= <- <-]; by simplify_eq.
Qed.

Lemma gsd_open_run (p : string) (w : world) (f : list frame) :
  fs w !! p = Some (File (Gsd f)) -> gsd_open p w = (w, Ok f).
Proof. unfold gsd_open. by intros ->. Qed.

Lemma pygsd_open_run (p : string) (w : world) (f : list frame) :
  fs w !! p = Some (File (Gsd f)) -> pygsd_open p w = (w, Ok f).
Proof. unfold pygsd_open. by intros ->. Qed.

Lemma msd_from_gsd_run (g : string) (a b : Z) (t md : string) (w : world)
  (traj : list frame) :
  fs w !! g = Some (File (Gsd traj)) ->
  msd_from_gsd g a b t md w = (w, msd_of traj a b t md).
Proof.
  intros H. unfold msd_from_gsd, msd_of.
  rewrite (bind_ok _ _ _ _ _ (pygsd_open_run _ _ _ H)).
  rewrite bind_unfold. unfold lift at 1.
  destruct (collect_positions _ _ _) as [ps|e]; [|done].
  rewrite bind_unfold. unfold lift at 1.
  by destruct (Py.index_last traj).
Qed.

Lemma write_file_inv (p : string) (c : content) (w w' : world) (u : unit) :
  Os.write_file p c w = (w', Ok u) ->
  w' = Os.record (EvWrite p c) (Os.set_fs (insert p (File c)) w).
Proof.
  unfold Os.write_file, Os.check_parent.
  repeat case_match; intros [= <-]; by simplify_eq.
Qed.

Lemma makedirs_inv (p : string) (w w' : world) (u : unit) :
  Os.makedirs p w = (w', Ok u) ->
  fs w !! p = None /\
  w' = Os.record (EvMakedirs p)
         (Os.set_fs (λ m, <[p := Dir]> (foldr Os.ensure_dir m (Os.ancestors p))) w).
Proof. unfold Os.makedirs. repeat case_match; by intros [= <-]. Qed.

Lemma mkdir_inv (p : string) (w w' : world) (u : unit) :
  Os.mkdir p w = (w', Ok u) ->
  fs w !! p = None /\
  w' = Os.record (EvMkdir p) (Os.set_fs (insert p Dir) w).
Proof.
  unfold Os.mkdir, Os.check_parent.
  repeat case_match; intros [= <-]; by simplify_eq.
Qed.

Lemma np_save_inv (p : string) (a : array) (w w' : world) (u : unit) :
  Os.endswith ".npy" p = true ->
  Np.save p a w = (w', Ok u) ->
  w' = Os.record (EvWrite p (Npy a)) (Os.set_fs (insert p (File (Npy a))) w).
Proof. unfold Np.save. intros ->. apply write_file_inv. Qed.

Lemma draw_run (a : artist) (w : world) (n : nat) :
  gcf w = Some n ->
  Plt.draw a w = (Plt.set_figs (alter (λ fig, fig ++ [a]) n (figs w)) (Some n) w, Ok tt).
Proof.
  intros H. unfold Plt.draw. rewrite bind_unfold. unfold Plt.current.
  rewrite H. unfold modify. by rewrite H.
Qed.

Lemma savefig_inv (p : string) (w w' : world) (n : nat) (u : unit) :
  Plt.savefig p w = (w', Ok u) ->
  gcf w = Some n ->
  w' = Os.record (EvWrite p (Png (default [] (figs w !! n))))
         (Os.set_fs (insert p (File (Png (default [] (figs w !! n))))) w).
Proof.
  intros Hrun H. revert Hrun. unfold Plt.savefig. rewrite bind_unfold. unfold Plt.current.
  rewrite H. rewrite bind_unfold. unfold get. apply write_file_inv.
Qed.

Lemma alter_lookup_insert {A} (f : A -> A) (i : nat) (x : A) (m : gmap nat A) :
  m !! i = Some x -> alter f i m = <[i := f x]> m.
Proof.
  intros H. apply map_eq. intros k. destruct (decide (i = k)) as [->|Hne].
  - by rewrite lookup_alter_eq, lookup_insert_eq, H.
  - by rewrite lookup_alter_ne, lookup_insert_ne.
Qed.

Lemma next_num_fresh (f : gmap nat figure) : f !! Plt.next_num f = None.
Proof.
  apply not_elem_of_dom. intros H%elem_of_elements%max_list_elem_of_le.
  unfold Plt.next_num in H. lia.
Qed.

(** ** One turn of the loop over the particle types *)

Section Turn.

Variable j : job.
Variable traj : list frame.

Lemma path_eq (s : string) :
  Py.startswith "/" s = false -> Os.path_join (ws j) s = base (ws j) +:+ s.
Proof. apply path_join_relative. Qed.

Lemma trajectory_ne (p : string) : touched owned j p -> trajectory_path j <> p.
Proof. apply foreign_not_touched, foreign_trajectory. Qed.

Lemma touched_rdf_txt t : touched owned j (rdf_txt j t).
Proof. by apply touched_join. Qed.
Lemma touched_rdf_png t : touched owned j (rdf_png j t).
Proof. by apply touched_join. Qed.
Lemma touched_msd_npy t : touched owned j (msd_npy j t).
Proof. by apply touched_join. Qed.
Lemma touched_msd_png : touched owned j (msd_png j).
Proof. by apply touched_join. Qed.

Lemma msd_npy_ext t : Os.endswith ".npy" (msd_npy j t) = true.
Proof.
  unfold msd_npy. rewrite path_eq by done.
  rewrite <- !str_app_assoc. apply endswith_app.
Qed.

Lemma analyse_type_run (slopes slopes' : gmap string slope) (t : string)
  (w w' : world) :
  fs w !! trajectory_path j = Some (File (Gsd traj)) ->
  analyse_type j (trajectory_path j) slopes t w = (w', Ok slopes') ->
  exists long short,
    msd_of traj (-30) (-1) t "window" = Ok long /\
    msd_of traj (-25) (-9) t "window" = Ok short /\
    slopes' = <[t := slope_of short]> slopes /\
    fs w' = fs_after j t long (figs w) (fs w) /\
    doc w' = doc w /\
    figs w' = figs_after j t long (figs w) /\
    gcf w' = Some 2%nat /\
    log w' = log w ++ type_events j t long (figs w).
Proof.
  intros Htr H. unfold analyse_type in H.
  apply bind_inv_ok in H as (w1 & [] & H1 & H).
  apply write_file_inv in H1. fold (rdf_txt j t) in H1.
  rewrite bind_unfold in H. unfold Plt.figure_new at 1 in H.
  set (n := Plt.next_num (figs w1)) in H.
  rewrite (bind_ok _ _ _ _ _
             (draw_run _ (Plt.set_figs (<[n:=[]]> (figs w1)) (Some n) w1) n eq_refl)) in H.
  apply bind_inv_ok in H as (w2 & [] & H2 & H).
  apply savefig_inv with (n := n) in H2; [|reflexivity]. fold (rdf_png j t) in H2.
  simpl in H2. subst n.
  rewrite (alter_lookup_insert _ _ []) in H2 by apply lookup_insert_eq.
  rewrite insert_insert_eq, lookup_insert_eq in H2. simpl in H2.
  assert (exists w3, Plt.figure_num 2 w2 = (w3, Ok tt) /\
            fs w3 = fs w2 /\ doc w3 = doc w2 /\ log w3 = log w2 /\
            gcf w3 = Some 2%nat /\
            figs w3 !! 2%nat = Some (default [] (figs w2 !! 2%nat)) /\
            figs w3 = <[2%nat := default [] (figs w2 !! 2%nat)]> (figs w2))
    as (w3 & H3 & Hfs3 & Hdoc3 & Hlog3 & Hgcf3 & Hfig3 & Hfigs3).
  { unfold Plt.figure_num. destruct (figs w2 !! 2%nat) as [fig|] eqn:E.
    - exists (Plt.set_figs (figs w2) (Some 2%nat) w2).
      repeat split; try done. simpl. by rewrite insert_id.
    - exists (Plt.set_figs (<[2%nat := []]> (figs w2)) (Some 2%nat) w2).
      repeat split; try done. simpl. by rewrite lookup_insert_eq. }
  rewrite (bind_ok _ _ _ _ _ H3) in H.
  assert (fs w3 !! trajectory_path j = Some (File (Gsd traj))) as Htr3.
  { rewrite Hfs3, H2, H1. simpl.
    rewrite !lookup_insert_ne;
      [done|apply not_eq_sym, trajectory_ne..];
      [apply touched_rdf_txt|apply touched_rdf_png]. }
  rewrite bind_unfold, (msd_from_gsd_run _ _ _ _ _ _ _ Htr3) in H.
  destruct (msd_of traj (-30) (-1) t "window") as [long|e] eqn:Elong; [|done].
  apply bind_inv_ok in H as (w4 & [] & H4 & H).
  fold (msd_npy j t) in H4. apply (np_save_inv _ _ _ _ _ (msd_npy_ext t)) in H4.
  assert (gcf w4 = Some 2%nat) as Hgcf4 by (by rewrite H4).
  rewrite (bind_ok _ _ _ _ _ (draw_run _ _ _ Hgcf4)) in H.
  apply bind_inv_ok in H as (w5 & [] & H5 & H).
  apply savefig_inv with (n := 2%nat) in H5; [|done]. fold (msd_png j) in H5.
  assert (fs w5 !! trajectory_path j = Some (File (Gsd traj))) as Htr5.
  { rewrite H5, H4. simpl.
    rewrite !lookup_insert_ne;
      [done|apply not_eq_sym, trajectory_ne..];
      [apply touched_msd_npy|apply touched_msd_png]. }
  rewrite bind_unfold, (msd_from_gsd_run _ _ _ _ _ _ _ Htr5) in H.
  destruct (msd_of traj (-25) (-9) t "window") as [short|e] eqn:Eshort; [|done].
  injection H as <- <-.
  exists long, short. split; [done|]. split; [done|]. split; [done|].
  assert (figs w4 = figs w3) as Hfigs4 by (by rewrite H4).
  assert (figs w2 = figs_with_rdf j t (figs w)) as Hfigs2 by (by rewrite H2, H1).
  assert (default [] (alter (λ fig, fig ++ [Plot None (MsdSeries long) (Some t)])
                        2%nat (figs w4) !! 2%nat)
          = msd_figure j t long (figs w)) as Hfig.
  { rewrite lookup_alter_eq, Hfigs4, Hfig3, Hfigs2. done. }
  rewrite H5. cbn [fs doc figs gcf log Os.record Os.set_fs Plt.set_figs].
  rewrite Hfig. repeat split.
  - rewrite H4. cbn [fs doc figs gcf log Os.record Os.set_fs Plt.set_figs].
    rewrite Hfs3, H2. cbn [fs doc figs gcf log Os.record Os.set_fs Plt.set_figs].
    by rewrite H1.
  - rewrite H4. cbn [fs doc figs gcf log Os.record Os.set_fs Plt.set_figs].
    rewrite Hdoc3, H2. cbn [fs doc figs gcf log Os.record Os.set_fs Plt.set_figs].
    by rewrite H1.
  - rewrite Hfigs4. rewrite (alter_lookup_insert _ _ _ _ Hfig3).
    rewrite Hfigs3, insert_insert_eq, Hfigs2. done.
  - rewrite H4. cbn [fs doc figs gcf log Os.record Os.set_fs Plt.set_figs].
    rewrite Hlog3, H2. cbn [fs doc figs gcf log Os.record Os.set_fs Plt.set_figs].
    rewrite H1. cbn [fs doc figs gcf log Os.record Os.set_fs Plt.set_figs].
    rewrite <- !app_assoc. done.
Qed.

End Turn.

(** ** The artifacts have distinct names *)

Ltac relative :=
  unfold rdf_txt, rdf_png, msd_npy, msd_png, dp_npy, diffraction_png,
    rdf_txt_dir, rdf_png_dir, msd_npy_dir, diffraction_dir;
  rewrite !path_eq by done.

Ltac differ :=
  relative;
  let H := fresh in
  intros H%(inj (String.app _)); vm_compute in H; discriminate H.

Section Names.

Variable j : job.

Lemma rdf_txt_inj t t' : rdf_txt j t = rdf_txt j t' -> t = t'.
Proof.
  relative. intros H%(inj (String.app _))%(inj (String.app _)).
  by apply str_app_inv_tail in H.
Qed.

Lemma rdf_png_inj t t' : rdf_png j t = rdf_png j t' -> t = t'.
Proof.
  relative. intros H%(inj (String.app _))%(inj (String.app _)).
  by apply str_app_inv_tail in H.
Qed.

Lemma msd_npy_inj t t' : msd_npy j t = msd_npy j t' -> t = t'.
Proof.
  relative. intros H%(inj (String.app _))%(inj (String.app _)).
  by apply str_app_inv_tail in H.
Qed.

Lemma rdf_txt_ne_png t t' : rdf_txt j t <> rdf_png j t'.
Proof. differ. Qed.
Lemma rdf_txt_ne_npy t t' : rdf_txt j t <> msd_npy j t'.
Proof. differ. Qed.
Lemma rdf_txt_ne_msd_png t : rdf_txt j t <> msd_png j.
Proof. differ. Qed.
Lemma rdf_png_ne_npy t t' : rdf_png j t <> msd_npy j t'.
Proof. differ. Qed.
Lemma rdf_png_ne_msd_png t : rdf_png j t <> msd_png j.
Proof. differ. Qed.
Lemma msd_npy_ne_msd_png t : msd_npy j t <> msd_png j.
Proof. differ. Qed.

End Names.

(** ** The loop over the particle types *)

Section Loop.

Variable j : job.
Variable traj : list frame.

Lemma figs_with_rdf_two (t : string) (f : gmap nat figure) (f2 : figure) :
  f !! 2%nat = Some f2 -> figs_with_rdf j t f !! 2%nat = Some f2.
Proof.
  intros H. unfold figs_with_rdf. rewrite lookup_insert_ne; [done|].
  intros Heq. by rewrite <- Heq, next_num_fresh in H.
Qed.

Lemma fs_after_rdf_txt t t0 long f m :
  fs_after j t long f m !! rdf_txt j t0 =
  if decide (t = t0) then Some (File (rdf_text j t)) else m !! rdf_txt j t0.
Proof.
  unfold fs_after.
  rewrite lookup_insert_ne by apply not_eq_sym, rdf_txt_ne_msd_png.
  rewrite lookup_insert_ne by apply not_eq_sym, rdf_txt_ne_npy.
  rewrite lookup_insert_ne by apply not_eq_sym, rdf_txt_ne_png.
  case_decide as H; [subst; apply lookup_insert_eq|].
  apply lookup_insert_ne. by intros ?%rdf_txt_inj.
Qed.

Lemma fs_after_rdf_png t t0 long f m :
  fs_after j t long f m !! rdf_png j t0 =
  if decide (t = t0) then Some (File (Png [rdf_plot j t])) else m !! rdf_png j t0.
Proof.
  unfold fs_after.
  rewrite lookup_insert_ne by apply not_eq_sym, rdf_png_ne_msd_png.
  rewrite lookup_insert_ne by apply not_eq_sym, rdf_png_ne_npy.
  case_decide as H.
  - subst. apply lookup_insert_eq.
  - rewrite lookup_insert_ne by (by intros ?%rdf_png_inj).
    apply lookup_insert_ne, rdf_txt_ne_png.
Qed.

Lemma fs_after_msd_npy t t0 long f m :
  fs_after j t long f m !! msd_npy j t0 =
  if decide (t = t0) then Some (File (Npy (MsdSeries long))) else m !! msd_npy j t0.
Proof.
  unfold fs_after.
  rewrite lookup_insert_ne by apply not_eq_sym, msd_npy_ne_msd_png.
  case_decide as H.
  - subst. apply lookup_insert_eq.
  - rewrite lookup_insert_ne by (by intros ?%msd_npy_inj).
    rewrite lookup_insert_ne by apply rdf_png_ne_npy.
    apply lookup_insert_ne, rdf_txt_ne_npy.
Qed.

Lemma fs_after_msd_png t long f m :
  fs_after j t long f m !! msd_png j = Some (File (Png (msd_figure j t long f))).
Proof. apply lookup_insert_eq. Qed.

Lemma fs_after_trajectory t long f m :
  fs_after j t long f m !! trajectory_path j = m !! trajectory_path j.
Proof.
  unfold fs_after.
  rewrite !lookup_insert_ne; [done|apply not_eq_sym, trajectory_ne..].
  - apply touched_rdf_txt.
  - apply touched_rdf_png.
  - apply touched_msd_npy.
  - apply touched_msd_png.
Qed.

(** A turn establishes [type_done] for its type and keeps it for the types
    that had their turn before. *)
Lemma analyse_type_done (done : list string) (slopes slopes' : gmap string slope)
  (t : string) (w w' : world) :
  fs w !! trajectory_path j = Some (File (Gsd traj)) ->
  all_done j traj done w slopes ->
  analyse_type j (trajectory_path j) slopes t w = (w', Ok slopes') ->
  fs w' !! trajectory_path j = Some (File (Gsd traj)) /\
  doc w' = doc w /\
  all_done j traj (done ++ [t]) w' slopes' /\
  exists long,
    msd_of traj (-30) (-1) t "window" = Ok long /\
    log w' = log w ++ type_events j t long (figs w).
Proof.
  intros Htr Hdone Hrun.
  destruct (analyse_type_run j traj _ _ _ _ _ Htr Hrun)
    as (long & short & Hlong & Hshort & -> & Hfs & Hdoc & Hfigs & Hgcf & Hlog).
  split; [by rewrite Hfs, fs_after_trajectory|].
  split; [done|].
  split; [|by exists long].
  right. exists (msd_figure j t long (figs w)). split.
  { rewrite Hfigs. apply lookup_insert_eq. }
  split; [by rewrite Hfs, fs_after_msd_png|].
  intros t0 [Ht0|Ht0%list_elem_of_singleton]%elem_of_app.
  - destruct Hdone as [->|(f2 & Hf2 & Hpng & Hdone)];
      [by apply not_elem_of_nil in Ht0|].
    destruct (Hdone t0 Ht0) as (long0 & short0 & Hl0 & Hs0 & H1 & H2 & H3 & H4 & H5).
    exists long0, short0. rewrite Hfs. repeat split; try done.
    + rewrite fs_after_rdf_txt. case_decide; by subst.
    + rewrite fs_after_rdf_png. case_decide; by subst.
    + rewrite fs_after_msd_npy. case_decide; [|done]. subst. congruence.
    + unfold msd_figure. rewrite (figs_with_rdf_two _ _ _ Hf2). simpl.
      apply elem_of_app. by left.
    + destruct (decide (t = t0)) as [->|Hne].
      * rewrite lookup_insert_eq. congruence.
      * by rewrite lookup_insert_ne.
  - subst t0. exists long, short. rewrite Hfs. repeat split; try done.
    + rewrite fs_after_rdf_txt. by rewrite decide_True.
    + rewrite fs_after_rdf_png. by rewrite decide_True.
    + rewrite fs_after_msd_npy. by rewrite decide_True.
    + unfold msd_figure. apply elem_of_app. right. by apply list_elem_of_singleton.
    + apply lookup_insert_eq.
Qed.

Lemma analyse_types_done (done ts : list string) (slopes slopes' : gmap string slope)
  (w w' : world) :
  fs w !! trajectory_path j = Some (File (Gsd traj)) ->
  all_done j traj done w slopes ->
  analyse_types j (trajectory_path j) slopes ts w = (w', Ok slopes') ->
  fs w' !! trajectory_path j = Some (File (Gsd traj)) /\
  doc w' = doc w /\
  all_done j traj (done ++ ts) w' slopes' /\
  exists chunks,
    turns_logged j traj ts chunks /\ log w' = log w ++ concat chunks.
Proof.
  revert done slopes w. induction ts as [|t ts IH]; intros done slopes w Htr Hdone Hrun.
  - injection Hrun as <- <-. rewrite !app_nil_r. repeat split; try done.
    exists []. split; [constructor|]. by rewrite app_nil_r.
  - simpl in Hrun. apply bind_inv_ok in Hrun as (w1 & slopes1 & Hturn & Hrun).
    destruct (analyse_type_done _ _ _ _ _ _ Htr Hdone Hturn)
      as (Htr1 & Hdoc1 & Hdone1 & long & Hlong & Hlog1).
    destruct (IH _ _ _ Htr1 Hdone1 Hrun)
      as (Htr' & Hdoc' & Hdone' & chunks & Hchunks & Hlog').
    split; [done|]. split; [congruence|]. split.
    { by rewrite <- app_assoc in Hdone'. }
    exists (type_events j t long (figs w) :: chunks). split.
    + constructor; [|done]. by exists long, (figs w).
    + rewrite Hlog', Hlog1. simpl. by rewrite <- app_assoc.
Qed.

End Loop.

(** ** The two stages and the whole operation *)

Section Stages.

Variable get_quaternions : list quaternion.
Variable quaternion_str : quaternion -> string.
Variable j : job.

Lemma touched_dirs d : d ∈ output_dirs j -> touched owned j d.
Proof.
  unfold output_dirs. rewrite !elem_of_cons, elem_of_nil.
  intros [->|[->|[->|[->|[]]]]]; by apply touched_join.
Qed.

Lemma rdf_msd_stage_run (w w1 : world) :
  rdf_msd_stage j (trajectory_path j) w = (w1, Ok tt) ->
  exists traj snap slopes chunks,
    fs w !! trajectory_path j = Some (File (Gsd traj)) /\
    traj !! 0%nat = Some snap /\
    fs w1 !! trajectory_path j = Some (File (Gsd traj)) /\
    all_done j traj (types snap) w1 slopes /\
    doc w1 = <["msd_slopes" := DSlopes slopes]> (doc w) /\
    turns_logged j traj (types snap) chunks /\
    log w1 = log w ++ rdf_msd_dirs j ++ concat chunks ++
             [EvDoc "msd_slopes" (DSlopes slopes)] /\
    is_Some (fs w1 !! rdf_txt_dir j).
Proof.
  intros H. unfold rdf_msd_stage in H.
  apply bind_inv_ok in H as (w0 & traj & [-> Htr]%gsd_open_inv & H).
  apply bind_inv_ok in H as (w0 & snap & [-> Hsnap]%lift_inv & H).
  apply bind_inv_ok in H as (wa & [] & Ha & H).
  apply bind_inv_ok in H as (wb & [] & Hb & H).
  apply bind_inv_ok in H as (wc & [] & Hc & H).
  apply bind_inv_ok in H as (wd & slopes & Hloop & H).
  fold (rdf_txt_dir j) in Ha. fold (rdf_png_dir j) in Hb. fold (msd_npy_dir j) in Hc.
  assert (stable owned j w wa) as Sa.
  { eapply keeps_makedirs; [|done]. apply touched_dirs. set_solver. }
  assert (stable owned j wa wb) as Sb.
  { eapply keeps_makedirs; [|done]. apply touched_dirs. set_solver. }
  assert (stable owned j wb wc) as Sc.
  { eapply keeps_makedirs; [|done]. apply touched_dirs. set_solver. }
  assert (stable owned j w wc) as Swc.
  { eapply stable_trans; [exact Sa|]. eapply stable_trans; [exact Sb|exact Sc]. }
  assert (fs wc !! trajectory_path j = Some (File (Gsd traj))) as Htrc.
  { destruct Swc as [Hf _]. rewrite Hf; [done|apply foreign_trajectory]. }
  destruct (analyse_types_done j traj [] _ _ _ _ _ Htrc (or_introl eq_refl) Hloop)
    as (Htrd & Hdocd & Hdone & chunks & Hchunks & Hlogd).
  injection H as <-.
  apply makedirs_inv in Ha as [_ Ha], Hb as [_ Hb], Hc as [_ Hc].
  exists traj, snap, slopes, chunks. unfold Py.index in Hsnap.
  destruct (traj !! 0%nat) as [snap'|] eqn:E; [|done]. injection Hsnap as ->.
  repeat split; try done.
  - simpl. by rewrite Hdocd, Hc, Hb, Ha.
  - simpl. rewrite Hlogd, Hc. simpl. rewrite Hb. simpl. rewrite Ha. simpl.
    by rewrite <- !app_assoc.
  - simpl.
    assert (stable owned_rdf_msd j wc wd) as Sd by (by eapply keeps_analyse_types).
    destruct Sd as (_ & He & _). apply He.
    destruct Sc as (_ & Hec & _). apply Hec.
    destruct Sb as (_ & Heb & _). apply Heb.
    rewrite Ha. simpl. rewrite lookup_insert_eq. by eexists.
Qed.

Lemma dp_npy_ext : Os.endswith ".npy" (dp_npy j) = true.
Proof.
  unfold dp_npy. rewrite path_eq by done.
  change "dp.npy" with ("dp" +:+ ".npy"). rewrite <- str_app_assoc.
  apply endswith_app.
Qed.

Lemma diffract_run (b : list float) (pts : list vec3) (q_list q_list' : list quaternion)
  (q : quaternion) (w w' : world) :
  diffract quaternion_str j b pts q_list q w = (w', Ok q_list') ->
  q_list' = q_list ++ [q] /\
  doc w' = doc w /\
  log w' = log w ++ [diffraction_event quaternion_str j b pts q].
Proof.
  intros H. unfold diffract in H.
  rewrite bind_unfold in H. unfold Plt.figure_new at 1 in H.
  set (n := Plt.next_num (figs w)) in H.
  rewrite (bind_ok _ _ _ _ _
             (draw_run _ (Plt.set_figs (<[n:=[]]> (figs w)) (Some n) w) n eq_refl)) in H.
  apply bind_inv_ok in H as (w2 & [] & H2 & H).
  apply savefig_inv with (n := n) in H2; [|reflexivity].
  fold (diffraction_png quaternion_str j q) in H2.
  cbn [fs doc figs gcf log Os.record Os.set_fs Plt.set_figs] in H2.
  rewrite (alter_lookup_insert _ _ []) in H2 by apply lookup_insert_eq.
  rewrite lookup_insert_eq in H2. injection H as <- <-.
  by rewrite H2.
Qed.

Lemma diffract_all_run (b : list float) (pts : list vec3) (q_list q_list' : list quaternion)
  (qs : list quaternion) (w w' : world) :
  diffract_all quaternion_str j b pts q_list qs w = (w', Ok q_list') ->
  q_list' = q_list ++ qs /\
  doc w' = doc w /\
  log w' = log w ++ (diffraction_event quaternion_str j b pts <$> qs).
Proof.
  revert q_list w. induction qs as [|q qs IH]; intros q_list w H.
  - injection H as <- <-. by rewrite !app_nil_r.
  - simpl in H. apply bind_inv_ok in H as (w1 & q_list1 & H1 & H).
    apply diffract_run in H1 as (-> & Hdoc1 & Hlog1).
    apply IH in H as (-> & Hdoc & Hlog).
    rewrite <- app_assoc. split; [done|]. split; [congruence|].
    rewrite Hlog, Hlog1, <- app_assoc. done.
Qed.

Lemma diffraction_stage_run (w1 w' : world) :
  diffraction_stage get_quaternions quaternion_str j (trajectory_path j) w1 = (w', Ok tt) ->
  exists traj snap,
    fs w1 !! trajectory_path j = Some (File (Gsd traj)) /\
    last traj = Some snap /\
    doc w' = doc w1 /\
    log w' = log w1 ++ [EvMkdir (diffraction_dir j)] ++
             (diffraction_event quaternion_str j (box snap) (snd <$> particles snap)
                <$> get_quaternions) ++
             [EvWrite (dp_npy j) (Npy (Orientations get_quaternions))] /\
    fs w' !! dp_npy j = Some (File (Npy (Orientations get_quaternions))).
Proof.
  intros H. unfold diffraction_stage in H.
  apply bind_inv_ok in H as (w0 & traj & [-> Htr]%gsd_open_inv & H).
  apply bind_inv_ok in H as (w0 & snap & [-> Hsnap]%lift_inv & H).
  apply bind_inv_ok in H as (wa & [] & Ha & H).
  apply bind_inv_ok in H as (wb & q_list & Hb & H).
  fold (diffraction_dir j) in Ha. fold (dp_npy j) in H.
  apply mkdir_inv in Ha as [_ Ha].
  apply diffract_all_run in Hb as (-> & Hdocb & Hlogb).
  apply (np_save_inv _ _ _ _ _ dp_npy_ext) in H.
  exists traj, snap. unfold Py.index_last in Hsnap.
  destruct (last traj) as [snap'|] eqn:E; [|done]. injection Hsnap as ->.
  repeat split; try done.
  - rewrite H. simpl. by rewrite Hdocb, Ha.
  - rewrite H. simpl. rewrite Hlogb, Ha. simpl. by rewrite <- !app_assoc.
  - rewrite H. simpl. apply lookup_insert_eq.
Qed.

End Stages.

(** ** Slices and the positions of a type *)

Lemma py_slice_long {A} (xs : list A) :
  py_slice xs (-30) (-1) =
  take (length xs - 1 - (length xs - 30)) (drop (length xs - 30) xs).
Proof.
  unfold py_slice, slice_bound. simpl. f_equal; [|f_equal]; lia.
Qed.

Lemma py_slice_short {A} (xs : list A) :
  py_slice xs (-25) (-9) =
  take (length xs - 9 - (length xs - 25)) (drop (length xs - 25) xs).
Proof.
  unfold py_slice, slice_bound. simpl. f_equal; [|f_equal]; lia.
Qed.



Lemma short_range_frames {A} (xs : list A) :
  py_slice xs (-25) (-9) <> [] -> (10 <= length xs)%nat.
Proof.
  rewrite py_slice_short. intros H.
  destruct (decide (10 <= length xs)%nat) as [|Hn]; [done|].
  destruct H. replace (length xs - 9 - (length xs - 25))%nat with 0%nat by lia.
  apply take_0.
Qed.


Lemma collect_positions_all (frames : list frame) (acc : list (list vec3)) :
  collect_positions frames "all" acc = Ok acc.
Proof. induction frames as [|fr frames IH]; [done|]. simpl. apply IH. Qed.

Lemma freud_msd_inv (b : list float) (md : string) (ps : list (list vec3))
  (m : msd_call) :
  Freud.msd b md ps = Ok m ->
  m = {| msd_box := b; msd_positions := ps; msd_mode := md |} /\ ps <> [] /\
  Freud.same_sizes ps = true.
Proof.
  unfold Freud.msd. destruct ps as [|p ps]; [done|].
  destruct (Freud.same_sizes (p :: ps)); [|done]. by intros [= <-].
Qed.

Lemma collect_positions_spec (frames : list frame) (t : string)
  (acc ps : list (list vec3)) :
  t <> "all" ->
  collect_positions frames t acc = Ok ps ->
  exists ps', ps = acc ++ ps' /\
    Forall2 (λ fr p, atom_type_pos fr t = Ok p) frames ps'.
Proof.
  intros Ht. revert acc. induction frames as [|fr frames IH]; intros acc; simpl.
  - intros [= <-]. exists []. by rewrite app_nil_r.
  - rewrite decide_False by done.
    destruct (atom_type_pos fr t) as [p|e] eqn:E; [|done].
    intros (ps' & -> & H)%IH. exists (p :: ps'). rewrite <- app_assoc.
    split; [done|]. by constructor.
Qed.

(** A series that [msd_from_gsd] returns is computed for a type other than
    [all], from the positions of that type in the frames of the slice, of
    which there is at least one. *)
Lemma msd_of_spec (traj : list frame) (a b : Z) (t md : string) (m : msd_call) :
  msd_of traj a b t md = Ok m ->
  t <> "all" /\
  py_slice traj a b <> [] /\
  Forall2 (λ fr p, atom_type_pos fr t = Ok p) (py_slice traj a b) (msd_positions m) /\
  msd_mode m = md /\
  exists snap, last traj = Some snap /\ msd_box m = box snap.
Proof.
  unfold msd_of, Py.index_last.
  destruct (collect_positions _ _ _) as [ps|e] eqn:E; [|done].
  destruct (last traj) as [snap|]; [|done].
  intros (-> & Hne & _)%freud_msd_inv. simpl.
  assert (t <> "all") as Ht.
  { intros ->. rewrite collect_positions_all in E. by injection E as <-. }
  apply collect_positions_spec in E as (ps' & -> & H); [|done].
  split; [done|]. split.
  { intros Hnil. rewrite Hnil in H. apply Forall2_nil_inv_l in H. by subst ps'. }
  split; [done|]. split; [done|]. by exists snap.
Qed.

(** ** The operation as a whole *)

Lemma owned_disjoint (x : string) :
  owned_rdf_msd x = true -> owned_diffraction x = false.
Proof.
  destruct x as [|c x]; [done|]. unfold owned_rdf_msd, owned_diffraction. simpl.
  repeat case_decide; simplify_eq; done.
Qed.

Lemma foreign_rdf_msd_key (j : job) (s : string) :
  owned_rdf_msd s = true -> foreign owned_diffraction j (Os.path_join (ws j) s).
Proof.
  intros Hs p r (s' & Hs' & ->) Heq.
  rewrite path_join_relative, str_app_assoc in Heq
    by (by apply owned_not_absolute with owned_rdf_msd).
  apply (inj (String.app _)) in Heq. subst s'.
  by rewrite (owned_disjoint _ (owned_rdf_msd_app _ r Hs)) in Hs'.
Qed.

Lemma type_done_stable (j : job) (traj : list frame) (t : string)
  (m m' : gmap string node) (f2 : figure) (slopes : gmap string slope) :
  (forall k, foreign owned_diffraction j k -> m' !! k = m !! k) ->
  type_done j traj t m f2 slopes -> type_done j traj t m' f2 slopes.
Proof.
  intros Hf (long & short & H1 & H2 & H3 & H4 & H5 & H6 & H7).
  exists long, short. repeat split; try done.
  - rewrite Hf; [done|]. by apply foreign_rdf_msd_key.
  - rewrite Hf; [done|]. by apply foreign_rdf_msd_key.
  - rewrite Hf; [done|]. by apply foreign_rdf_msd_key.
Qed.

Section Operation.

Variable get_quaternions : list quaternion.
Variable quaternion_str : quaternion -> string.

(** What a successful run of [post_proc] has done. *)
Lemma post_proc_run (j : job) (w w' : world) :
  post_proc get_quaternions quaternion_str j w = (w', Ok tt) ->
  exists traj first final slopes chunks,
    fs w !! trajectory_path j = Some (File (Gsd traj)) /\
    traj !! 0%nat = Some first /\
    last traj = Some final /\
    turns_logged j traj (types first) chunks /\
    log w' = log w ++ rdf_msd_dirs j ++ concat chunks ++
             [EvDoc "msd_slopes" (DSlopes slopes)] ++
             [EvMkdir (diffraction_dir j)] ++
             (diffraction_event quaternion_str j (box final) (snd <$> particles final)
                <$> get_quaternions) ++
             [EvWrite (dp_npy j) (Npy (Orientations get_quaternions))] /\
    doc w' = <["msd_slopes" := DSlopes slopes]> (doc w) /\
    (types first = [] \/
     exists f2,
       fs w' !! msd_png j = Some (File (Png f2)) /\
       forall t, t ∈ types first -> type_done j traj t (fs w') f2 slopes) /\
    fs w' !! dp_npy j = Some (File (Npy (Orientations get_quaternions))) /\
    is_Some (fs w' !! rdf_txt_dir j).
Proof.
  intros H. unfold post_proc in H. fold (trajectory_path j) in H.
  apply bind_inv_ok in H as (w1 & [] & H1 & H2).
  assert (stable owned_diffraction j w1 w') as (Hf & He & _).
  { by eapply keeps_diffraction_stage. }
  apply rdf_msd_stage_run in H1
    as (traj & first & slopes & chunks & Htr & Hfirst & Htr1 & Hdone & Hdoc1
        & Hchunks & Hlog1 & Hdir).
  apply diffraction_stage_run in H2
    as (traj' & final & Htr1' & Hfinal & Hdoc & Hlog & Hdp).
  assert (traj' = traj) as -> by congruence.
  exists traj, first, final, slopes, chunks. repeat split; try done.
  - rewrite Hlog, Hlog1. by rewrite <- !app_assoc.
  - by rewrite Hdoc.
  - destruct Hdone as [?|(f2 & _ & Hpng & Hdone)]; [by left|right].
    exists f2. split.
    + rewrite Hf; [done|]. by apply foreign_rdf_msd_key.
    + intros t Ht. eapply type_done_stable; [done|]. by apply Hdone.
  - by apply He.
Qed.

End Operation.

(** ** The claims about [post_proc] *)


Lemma turns_logged_owned (j : job) (traj : list frame) (ts : list string)
  (chunks : list (list event)) :
  turns_logged j traj ts chunks ->
  Forall (λ ev, event_owned owned_rdf_msd j ev /\ creates_dir ev = false) (concat chunks).
Proof.
  induction 1 as [|t0 chunk ts chunks (long & f & Hlong & ->) _ IH]; simpl.
  - constructor.
  - repeat (constructor; [split; [by apply touched_rdf_msd|done]|]). done.
Qed.

Section Claims.

Variable get_quaternions : list quaternion.
Variable quaternion_str : quaternion -> string.



(** C7: a successful run creates [diffraction_plots], then saves one image
    per orientation of [get_quaternions()], in that order, each named by the
    orientation's text and showing the pattern of the positions and the box
    of the final frame, and then saves the list of all orientations, in the
    same order, as [dp.npy]; nothing before touches those names. *)
Theorem post_proc_diffraction (j : job) (w w' : world) (traj : list frame)
  (final : frame) :
  post_proc get_quaternions quaternion_str j w = (w', Ok tt) ->
  fs w !! fn j "trajectory.gsd" = Some (File (Gsd traj)) ->
  last traj = Some final ->
  exists stage1,
    Forall (event_owned owned_rdf_msd j) stage1 /\
    log w' =
      log w ++ stage1 ++
      [EvMkdir (Os.path_join (ws j) "diffraction_plots")] ++
      ((λ q, EvWrite
               (Os.path_join (ws j) ("diffraction_plots/" +:+ quaternion_str q +:+ ".png"))
               (Png [DiffractionImage 1024 1024 (box final) (snd <$> particles final) q]))
         <$> get_quaternions) ++
      [EvWrite (Os.path_join (ws j) "dp.npy") (Npy (Orientations get_quaternions))] /\
    fs w' !! Os.path_join (ws j) "dp.npy" = Some (File (Npy (Orientations get_quaternions))).
Proof.
  intros Hrun Htr Hfinal.
  destruct (post_proc_run _ _ _ _ _ Hrun)
    as (traj' & first & final' & slopes & chunks & Htr' & Hfirst & Hfinal' & Hchunks
        & Hlog & Hdoc & Hdone & Hdp & Hdir).
  unfold trajectory_path in Htr'. assert (traj' = traj) as -> by congruence.
  assert (final' = final) as -> by congruence.
  exists (rdf_msd_dirs j ++ concat chunks ++ [EvDoc "msd_slopes" (DSlopes slopes)]).
  split; [|split; [|exact Hdp]].
  - apply Forall_app. split.
    { repeat (constructor; [by apply touched_rdf_msd|]). constructor. }
    apply Forall_app. split; [|by repeat constructor].
    eapply Forall_impl; [by apply turns_logged_owned with traj (types first)|].
    by intros ev [? _].
  - rewrite Hlog. by rewrite <- !app_assoc.
Qed.

(** C8, amended: a run fails when one of the four output directories
    exists.  A successful run creates the three RDF and MSD directories
    first, before anything is written, and [diffraction_plots] only after the
    RDF and MSD stage has written its artifacts and the document; none of
    the four existed before, and a second run fails. *)
Theorem post_proc_output_dirs (j : job) (w : world) :
  (forall d, d ∈ output_dirs j -> is_Some (fs w !! d) ->
     exists e, snd (post_proc get_quaternions quaternion_str j w) = Raise e) /\
  (forall w', post_proc get_quaternions quaternion_str j w = (w', Ok tt) ->
     (exists stage1 stage2,
        log w' = log w ++
          [EvMakedirs (Os.path_join (ws j) "rdf/rdf_txt_files");
           EvMakedirs (Os.path_join (ws j) "rdf/rdf_png_files");
           EvMakedirs (Os.path_join (ws j) "msd/msd_npy_files")] ++
          stage1 ++ [EvMkdir (Os.path_join (ws j) "diffraction_plots")] ++ stage2 /\
        Forall (λ ev, creates_dir ev = false) stage1 /\
        Forall (λ ev, creates_dir ev = false) stage2 /\
        stage1 <> []) /\
     (forall d, d ∈ output_dirs j -> fs w !! d = None) /\
     exists e, snd (post_proc get_quaternions quaternion_str j w') = Raise e).
Proof.
  assert (forall w0 d, d ∈ output_dirs j -> is_Some (fs w0 !! d) ->
            exists e, snd (post_proc get_quaternions quaternion_str j w0) = Raise e)
    as Hcollide.
  { intros w0 d Hd Hex.
    destruct (post_proc get_quaternions quaternion_str j w0) as [w' [[]|e]] eqn:Hrun;
      [exfalso|by exists e].
    unfold post_proc in Hrun. fold (trajectory_path j) in Hrun.
    apply bind_inv_ok in Hrun as (w1 & [] & H1 & H2).
    assert (stable owned_rdf_msd j w0 w1) as (_ & He1 & _)
      by (by eapply keeps_rdf_msd_stage).
    unfold rdf_msd_stage in H1.
    apply bind_inv_ok in H1 as (? & traj & [-> Htr]%gsd_open_inv & H1).
    apply bind_inv_ok in H1 as (? & snap & [-> Hsnap]%lift_inv & H1).
    apply bind_inv_ok in H1 as (wa & [] & Ha & H1).
    apply bind_inv_ok in H1 as (wb & [] & Hb & H1).
    apply bind_inv_ok in H1 as (wc & [] & Hc & H1).
    fold (rdf_txt_dir j) in Ha. fold (rdf_png_dir j) in Hb. fold (msd_npy_dir j) in Hc.
    assert (stable owned_rdf_msd j w0 wa) as (_ & Hea & _).
    { eapply keeps_makedirs; [|done]. by apply touched_rdf_msd. }
    assert (stable owned_rdf_msd j wa wb) as (_ & Heb & _).
    { eapply keeps_makedirs; [|done]. by apply touched_rdf_msd. }
    unfold diffraction_stage in H2.
    apply bind_inv_ok in H2 as (? & traj' & [-> Htr']%gsd_open_inv & H2).
    apply bind_inv_ok in H2 as (? & snap' & [-> Hsnap']%lift_inv & H2).
    apply bind_inv_ok in H2 as (wd & [] & Hd4 & H2).
    fold (diffraction_dir j) in Hd4.
    apply makedirs_inv in Ha as [Na _], Hb as [Nb _], Hc as [Nc _].
    apply mkdir_inv in Hd4 as [Nd _].
    unfold output_dirs in Hd. rewrite !elem_of_cons, elem_of_nil in Hd.
    destruct Hd as [->|[->|[->|[->|[]]]]].
    - rewrite Na in Hex. by destruct Hex.
    - apply Hea in Hex. rewrite Nb in Hex. by destruct Hex.
    - apply Hea, Heb in Hex. rewrite Nc in Hex. by destruct Hex.
    - apply He1 in Hex. rewrite Nd in Hex. by destruct Hex. }
  split; [apply Hcollide|]. intros w' Hrun.
  destruct (post_proc_run _ _ _ _ _ Hrun)
    as (traj & first & final & slopes & chunks & Htr & Hfirst & Hfinal & Hchunks
        & Hlog & Hdoc & Hdone & Hdp & Hdir).
  split; [|split].
  - exists (concat chunks ++ [EvDoc "msd_slopes" (DSlopes slopes)]),
      ((diffraction_event quaternion_str j (box final) (snd <$> particles final)
          <$> get_quaternions)
       ++ [EvWrite (dp_npy j) (Npy (Orientations get_quaternions))]).
    split; [|split; [|split]].
    + rewrite Hlog. unfold rdf_msd_dirs. by rewrite <- !app_assoc.
    + apply Forall_app. split; [|by repeat constructor].
      eapply Forall_impl; [by apply turns_logged_owned with traj (types first)|].
      by intros ev [_ ?].
    + apply Forall_app. split; [|by repeat constructor].
      apply Forall_fmap, Forall_true. done.
    + by intros [_ ?]%app_eq_nil.
  - intros d Hd. destruct (fs w !! d) eqn:E; [|done].
    destruct (Hcollide w d Hd) as [e He]; [by rewrite E|].
    by rewrite Hrun in He.
  - apply (Hcollide w' (rdf_txt_dir j)); [|done]. unfold output_dirs. left.
Qed.

(** C9: whatever its outcome, [post_proc] touches only names under [rdf/],
    [msd/], [diffraction_plots] and [dp.npy] of the workspace; [rdf.txt] is
    as it was, so [rdfed], [sampled] and the eligibility of [post_proc] are
    as they were: after a successful run from an eligible job, [rdfed] is
    still false and [post_proc] is still eligible. *)
Theorem post_proc_never_marks_rdfed (j : job) (w w' : world) (r : result unit) :
  post_proc get_quaternions quaternion_str j w = (w', r) ->
  fs w' !! fn j "rdf.txt" = fs w !! fn j "rdf.txt" /\
  (exists evs, log w' = log w ++ evs /\ Forall (event_owned owned j) evs) /\
  rdfed j w' = rdfed j w /\
  sampled j w' = sampled j w /\
  eligible post_proc_op j w' = eligible post_proc_op j w /\
  (eligible post_proc_op j w = Ok true ->
     rdfed j w' = Ok false /\ eligible post_proc_op j w' = Ok true).
Proof.
  intros Hrun.
  destruct (keeps_post_proc get_quaternions quaternion_str j _ _ _ Hrun)
    as (Hf & _ & Hd & Hlog).
  assert (fs w' !! fn j "rdf.txt" = fs w !! fn j "rdf.txt") as Hmark
    by apply Hf, foreign_rdf_marker.
  assert (fs w' !! fn j "trajectory.gsd" = fs w !! fn j "trajectory.gsd") as Htr
    by apply Hf, foreign_trajectory.
  assert (rdfed j w' = rdfed j w) as Hrdfed.
  { unfold rdfed, job_isfile, Os.isfile. by rewrite Hmark. }
  assert (sampled j w' = sampled j w) as Hsampled.
  { unfold sampled, current_step, job_isfile, Os.isfile, gsd_open, doc_attr.
    rewrite Htr, Hd by done. by destruct (fs w !! fn j "trajectory.gsd") as [[|[]]|]. }
  assert (eligible post_proc_op j w' = eligible post_proc_op j w) as Hel.
  { unfold eligible. cbn [pre post post_proc_op all_true any_false].
    by rewrite Hsampled, Hrdfed. }
  repeat split; try done.
  - rewrite Hrdfed. revert H. unfold eligible. simpl.
    destruct (sampled j w) as [[|]|]; try done. unfold rdfed.
    by destruct (job_isfile j "rdf.txt" w).
  - by rewrite Hel.
Qed.

End Claims.

(** ** The claims on a concrete job *)

Lemma post_proc_world0 :
  post_proc two_views view_str job0 world0 = (world_analysed, Ok tt).
Proof. vm_compute. reflexivity. Qed.




Lemma post_proc_diffraction_witness :
  fs world_analysed !! "/w/abc/dp.npy" = Some (File (Npy (Orientations two_views))).
Proof.
  destruct (post_proc_diffraction two_views view_str job0 world0 world_analysed
              traj0 (frame_at 100))
    as (stage1 & _ & _ & H).
  - vm_compute. reflexivity.
  - reflexivity.
  - reflexivity.
  - exact H.
Defined.

(** C8 as the specification words it fails on the order: in the successful
    run on [world0] the first artifact is written (event 3) long before
    [diffraction_plots] is created (event 12). *)
Lemma dirs_first_counterexample :
  post_proc two_views view_str job0 world0 = (world_analysed, Ok tt) /\
  log world_analysed !! 3%nat
    = Some (EvWrite "/w/abc/rdf/rdf_txt_files/A_rdf.txt" (rdf_text job0 "A")) /\
  log world_analysed !! 12%nat = Some (EvMkdir "/w/abc/diffraction_plots") /\
  ~ dirs_first (log world_analysed).
Proof.
  split; [apply post_proc_world0|].
  assert (log world_analysed !! 3%nat
          = Some (EvWrite "/w/abc/rdf/rdf_txt_files/A_rdf.txt" (rdf_text job0 "A")))
    as H3 by (vm_compute; reflexivity).
  assert (log world_analysed !! 12%nat = Some (EvMkdir "/w/abc/diffraction_plots"))
    as H12 by (vm_compute; reflexivity).
  split; [done|]. split; [done|].
  intros H. specialize (H 3%nat 12%nat _ _ _ H3 H12 eq_refl). lia.
Qed.

Lemma post_proc_output_dirs_witness :
  exists e, snd (post_proc two_views view_str job0 world_left_over) = Raise e.
Proof.
  apply (proj1 (post_proc_output_dirs two_views view_str job0 world_left_over))
    with "/w/abc/diffraction_plots".
  - vm_compute. right. right. right. left.
  - vm_compute. by eexists.
Defined.

Lemma post_proc_never_marks_rdfed_witness :
  rdfed job0 world_analysed = Ok false /\
  eligible post_proc_op job0 world_analysed = Ok true.
Proof.
  apply (post_proc_never_marks_rdfed two_views view_str job0 world0 world_analysed (Ok tt)).
  - vm_compute. reflexivity.
  - vm_compute. reflexivity.
Defined.

(** * Further properties *)

(** ** More on the throughput parser *)

Lemma counted_inv (f : list string) :
  counted f = true ->
  exists v field, file_tps f = Some v /\ file_time_field f = Some field.
Proof.
  unfold counted. intros [Ht Hf]%andb_true_iff.
  destruct (file_tps_some _ Ht) as [v Hv].
  apply bool_decide_eq_true in Hf as [field Hf]. eauto.
Qed.

Lemma not_counted_inv (f : list string) (l : locals) :
  counted f = false ->
  exists l', parse_log f l = (l', Ok tt) /\ times l' = times l /\
             tps l' = match file_tps f with Some v => Some v | None => tps l end.
Proof.
  unfold counted. intros H.
  destruct (has_tps_marker f) eqn:Ht.
  - destruct (file_tps_some _ Ht) as [v Hv].
    destruct (file_time_field f) as [field|] eqn:Hf; [done|].
    rewrite (parse_log_tps_only _ _ _ Hv Hf), Hv. by eexists.
  - rewrite (parse_log_no_tps _ _ Ht), (file_tps_none _ Ht). by eexists.
Qed.

Lemma field_seconds_raises (field : string) (e : exn) :
  field_seconds field = Raise e -> e = ValueError.
Proof.
  unfold field_seconds. repeat case_match; congruence.
Qed.

(** A counted file whose time field is not three integers stops the loop. *)
Lemma parse_log_malformed (f : list string) (l : locals) (e : exn) :
  counted f = true -> file_seconds f = Raise e ->
  exists l', parse_log f l = (l', Raise ValueError).
Proof.
  intros (v & field & Hv & Hf)%counted_inv Hs.
  unfold file_seconds in Hs. rewrite Hf in Hs.
  rewrite (parse_log_counted _ _ _ _ Hv Hf), Hs. by eexists.
Qed.

Lemma parse_log_outcome (f : list string) (l : locals) :
  exists l', parse_log f l = (l', Ok tt) \/ parse_log f l = (l', Raise ValueError).
Proof.
  destruct (counted f) eqn:Hc.
  - destruct (counted_inv _ Hc) as (v & field & Hv & Hf).
    rewrite (parse_log_counted _ _ _ _ Hv Hf).
    destruct (field_seconds field); eexists; eauto.
  - destruct (not_counted_inv _ l Hc) as (l' & -> & _). eauto.
Qed.

Lemma parse_loop_malformed (outfiles : list (list string)) (f : list string)
  (l : locals) (e : exn) :
  f ∈ outfiles -> counted f = true -> file_seconds f = Raise e ->
  exists l', for_each outfiles parse_log l = (l', Raise ValueError).
Proof.
  intros Hin Hc Hs. revert l.
  induction outfiles as [|g outfiles IH]; intros l.
  { by apply not_elem_of_nil in Hin. }
  simpl. rewrite bind_unfold.
  apply elem_of_cons in Hin as [<-|Hin].
  - destruct (parse_log_malformed _ l _ Hc Hs) as [l' ->]. by eexists.
  - destruct (parse_log_outcome g l) as [l' [-> | ->]]; [by apply IH|by eexists].
Qed.

Lemma counted_seconds_spec (outfiles : list (list string)) :
  Forall (λ f, counted f = true -> exists t, file_seconds f = Ok t) outfiles ->
  Forall2 (λ f t, file_seconds f = Ok t) (filter (λ f, counted f) outfiles)
    (counted_seconds outfiles).
Proof.
  induction 1 as [|f outfiles Hf _ IH]; [constructor|].
  rewrite filter_cons. unfold counted_seconds. simpl.
  destruct (counted f) eqn:Hc.
  - destruct (Hf eq_refl) as [t Ht]. rewrite decide_True by done. rewrite Ht.
    by constructor.
  - by rewrite decide_False by (intros []).
Qed.

Lemma parse_loop_ok (outfiles : list (list string)) (l l' : locals) :
  for_each outfiles parse_log l = (l', Ok tt) ->
  Forall (λ f, counted f = true -> exists t, file_seconds f = Ok t) outfiles.
Proof.
  intros H. apply Forall_forall. intros f Hin Hc.
  destruct (file_seconds f) as [t|e] eqn:Hs; [by eexists|].
  destruct (parse_loop_malformed _ _ l _ Hin Hc Hs) as [l'' E]. congruence.
Qed.

Lemma total_permutation (xs ys : list Z) : xs ≡ₚ ys -> Numpy.total xs = Numpy.total ys.
Proof. unfold Numpy.total. induction 1; simpl in *; lia. Qed.

Lemma sum_permutation (xs ys : list Z) : xs ≡ₚ ys -> Numpy.sum xs = Numpy.sum ys.
Proof.
  intros H. unfold Numpy.sum.
  assert (forallb Numpy.in_int64 xs = forallb Numpy.in_int64 ys) as Hb.
  { apply eq_true_iff_eq. rewrite !forallb_forall.
    split; intros Hx z Hz%list_elem_of_In; apply Hx, list_elem_of_In;
      [by rewrite H|by rewrite <- H]. }
  rewrite (total_permutation _ _ H), Hb.
  destruct xs, ys; try done.
  - by apply Permutation_nil_cons in H.
  - symmetry in H. by apply Permutation_nil_cons in H.
Qed.

Section ThroughputParserErrors.

Variable wide_hms : list Z -> result string.

(** X1: when some file has a throughput-marker line but no file has both a
    throughput-marker line and a time field, nothing is appended to
    [times]: [np.sum] of the empty list is the float [0.0], and formatting
    it with [02d] raises [ValueError]. *)
Theorem get_tps_time_no_time (outfiles : list (list string)) (f : list string) :
  f ∈ outfiles -> has_tps_marker f = true ->
  Forall (λ f, counted f = false) outfiles ->
  get_tps_time wide_hms outfiles = Raise ValueError.
Proof.
  intros Hin Ht Hall. unfold get_tps_time.
  assert (filter (λ f, counted f) outfiles = []) as Hnil.
  { clear Hin. induction Hall as [|g gs Hg _ IH]; [done|].
    rewrite filter_cons, decide_False by (rewrite Hg; intros []).
    apply IH. }
  rewrite (for_each_parse_log _ []) by (rewrite Hnil; constructor).
  destruct (file_tps_some _ Ht) as [v Hv].
  destruct (last (omap file_tps outfiles)) as [v'|] eqn:L; [done|].
  apply last_None in L.
  assert (v ∈ omap file_tps outfiles) as Hx by (apply list_elem_of_omap; eauto).
  rewrite L in Hx. by apply not_elem_of_nil in Hx.
Qed.

(** X2: a file that has a throughput-marker line and a time field that is
    not three integers separated by colons makes [get_tps_time] raise
    [ValueError], whatever the other files hold: the [except] clause
    catches [IndexError] only. *)
Theorem get_tps_time_malformed_time (outfiles : list (list string)) (f : list string)
  (e : exn) :
  f ∈ outfiles -> counted f = true -> file_seconds f = Raise e ->
  get_tps_time wide_hms outfiles = Raise ValueError.
Proof.
  intros Hin Hc Hs. unfold get_tps_time.
  by destruct (parse_loop_malformed _ _ {| tps := None; times := [] |} _ Hin Hc Hs)
    as [l' ->].
Qed.

(** X3: the returned time does not depend on the order of the files (the
    order in which [glob] lists them): when the seconds of each file fit
    64 bits, the files in another order give the same time, with the
    throughput of one of the files. *)
Theorem get_tps_time_order_free (outfiles outfiles' : list (list string))
  (v t : string) :
  outfiles ≡ₚ outfiles' ->
  Forall (λ f, forall s, file_seconds f = Ok s -> - 2 ^ 63 <= s < 2 ^ 63) outfiles ->
  get_tps_time wide_hms outfiles = Ok (v, t) ->
  exists v', v' ∈ omap file_tps outfiles /\
             get_tps_time wide_hms outfiles' = Ok (v', t).
Proof.
  intros Hp Hfit. unfold get_tps_time.
  destruct (for_each outfiles parse_log _) as [l [[]|e]] eqn:E; [|done].
  pose proof (parse_loop_ok _ _ _ E) as Hok.
  assert (Forall (λ f, counted f = true -> exists t, file_seconds f = Ok t) outfiles')
    as Hok' by (by rewrite <- Hp).
  rewrite (for_each_parse_log _ _ _ (counted_seconds_spec _ Hok)) in E.
  injection E as <-.
  rewrite (for_each_parse_log _ _ _ (counted_seconds_spec _ Hok')).
  assert (counted_seconds outfiles ≡ₚ counted_seconds outfiles') as Hsecs.
  { unfold counted_seconds. by rewrite Hp. }
  unfold finish. cbn [tps times app]. rewrite <- (sum_permutation _ _ Hsecs).
  assert (forallb Numpy.in_int64 (counted_seconds outfiles) = true) as Hb.
  { apply forallb_in_int64, Forall_forall. intros s Hs.
    apply list_elem_of_omap in Hs as (f & Hf & Hs).
    rewrite Forall_forall in Hfit. apply (Hfit f Hf).
    destruct (counted f); [|done]. by destruct (file_seconds f); simplify_eq. }
  unfold Numpy.sum at 1 2. rewrite Hb.
  destruct (counted_seconds outfiles) as [|s secs]; unfold read_tps; cbn [tps].
  - destruct (last (omap file_tps outfiles)); done.
  - destruct (last (omap file_tps outfiles)) as [v0|] eqn:L; [|done].
    intros [= <- <-].
    destruct (last (omap file_tps outfiles')) as [v'|] eqn:L'.
    + exists v'. split; [|done].
      apply last_Some_elem_of in L'. by rewrite Hp.
    + apply last_None in L'.
      assert (omap file_tps outfiles ≡ₚ []) as Hn by (by rewrite Hp, L').
      apply Permutation_nil_r in Hn. by rewrite Hn in L.
Qed.

End ThroughputParserErrors.

Lemma get_tps_time_no_time_witness :
  get_tps_time no_wide_hms [file1; ["Average TPS: 120" +:+ nl]] = Raise ValueError.
Proof.
  apply (get_tps_time_no_time no_wide_hms _ ["Average TPS: 120" +:+ nl]).
  - right. left.
  - reflexivity.
  - repeat constructor.
Defined.

Lemma get_tps_time_malformed_time_witness :
  get_tps_time no_wide_hms [file2; ["Average TPS: 5" +:+ nl; "Time 12:30" +:+ nl]]
  = Raise ValueError.
Proof.
  apply (get_tps_time_malformed_time no_wide_hms _
           ["Average TPS: 5" +:+ nl; "Time 12:30" +:+ nl] ValueError).
  - right. left.
  - reflexivity.
  - reflexivity.
Defined.

Lemma get_tps_time_order_free_witness :
  exists v',
    v' ∈ omap file_tps [file2; ["Average TPS: 7" +:+ nl; "Time 00:00:05" +:+ nl]] /\
    get_tps_time no_wide_hms [["Average TPS: 7" +:+ nl; "Time 00:00:05" +:+ nl]; file2]
    = Ok (v', "00:30:20").
Proof.
  apply (get_tps_time_order_free no_wide_hms
           [file2; ["Average TPS: 7" +:+ nl; "Time 00:00:05" +:+ nl]] _ "7").
  - apply perm_swap.
  - apply Forall_cons. split; [intros s H; vm_compute in H; injection H as <-; lia|].
    apply Forall_cons. split; [intros s H; vm_compute in H; injection H as <-; lia|].
    by apply Forall_nil.
  - reflexivity.
Defined.

(** ** Stripping *)

Lemma str_rev_length (s : string) : String.length (String.rev s) = String.length s.
Proof.
  induction s as [|c s IH]; [done|].
  rewrite str_rev_cons, str_app_length, IH. simpl. lia.
Qed.

Lemma lstrip_by_length (p : ascii -> bool) (s : string) :
  (String.length (Py.lstrip_by p s) <= String.length s)%nat.
Proof. induction s as [|c s IH]; simpl; [done|]. destruct (p c); simpl; lia. Qed.

Lemma rstrip_by_length (p : ascii -> bool) (s : string) :
  (String.length (Py.rstrip_by p s) <= String.length s)%nat.
Proof.
  unfold Py.rstrip_by. rewrite str_rev_length.
  etrans; [apply lstrip_by_length|]. by rewrite str_rev_length.
Qed.

Lemma lstrip_by_same_length (p : ascii -> bool) (s : string) :
  String.length (Py.lstrip_by p s) = String.length s -> Py.lstrip_by p s = s.
Proof.
  destruct s as [|c s]; [done|]. simpl. destruct (p c); [|done].
  pose proof (lstrip_by_length p s). simpl. lia.
Qed.

Lemma lstrip_by_idemp (p : ascii -> bool) (s : string) :
  Py.lstrip_by p (Py.lstrip_by p s) = Py.lstrip_by p s.
Proof.
  induction s as [|c s IH]; [done|]. simpl.
  destruct (p c) eqn:E; [done|]. simpl. by rewrite E.
Qed.

(** A text that [strip] leaves alone is left alone by both of its halves. *)
Lemma strip_by_fixed_l (p : ascii -> bool) (v : string) :
  Py.strip_by p v = v -> Py.lstrip_by p v = v.
Proof.
  intros H. apply lstrip_by_same_length.
  pose proof (rstrip_by_length p (Py.lstrip_by p v)) as H1.
  pose proof (lstrip_by_length p v) as H2.
  unfold Py.strip_by in H. rewrite H in H1. lia.
Qed.

Lemma strip_by_fixed_r (p : ascii -> bool) (v : string) :
  Py.strip_by p v = v -> Py.rstrip_by p v = v.
Proof.
  intros H. pose proof (strip_by_fixed_l _ _ H) as Hl.
  unfold Py.strip_by in H. by rewrite Hl in H.
Qed.

Lemma lstrip_by_app_fixed (p : ascii -> bool) (v r : string) :
  Py.lstrip_by p v = v -> v <> EmptyString -> Py.lstrip_by p (v +:+ r) = v +:+ r.
Proof.
  destruct v as [|a w]; [done|]. intros H _. rewrite str_app_cons. simpl in *.
  destruct (p a); [|done].
  pose proof (lstrip_by_length p w) as Hlen. rewrite H in Hlen. simpl in Hlen. lia.
Qed.

Lemma rstrip_by_snoc (p : ascii -> bool) (s : string) (c : ascii) :
  Py.rstrip_by p (s +:+ String c EmptyString) =
  if p c then Py.rstrip_by p s else s +:+ String c EmptyString.
Proof.
  unfold Py.rstrip_by. rewrite str_rev_app_distr.
  change (String.rev (String c EmptyString)) with (String c EmptyString).
  rewrite str_app_cons. change (EmptyString +:+ String.rev s) with (String.rev s).
  simpl. destruct (p c); [done|].
  by rewrite str_rev_cons, str_rev_involutive.
Qed.

(** What is left of [s] once a prefix is stripped ends as [s] does. *)
Lemma lstrip_by_snoc (p : ascii -> bool) (u : string) (a : ascii) :
  p a = false ->
  exists z, Py.lstrip_by p (u +:+ String a EmptyString) = z +:+ String a EmptyString.
Proof.
  intros Ha. induction u as [|c u IH].
  - exists EmptyString. simpl. change (EmptyString +:+ ?x) with x. simpl. by rewrite Ha.
  - rewrite str_app_cons. simpl. destruct (p c); [done|].
    exists (String c u). by rewrite str_app_cons.
Qed.

Lemma strip_by_idemp (p : ascii -> bool) (s : string) :
  Py.strip_by p (Py.strip_by p s) = Py.strip_by p s.
Proof.
  unfold Py.strip_by. set (x := Py.lstrip_by p s).
  assert (Py.lstrip_by p x = x) as Hx by apply lstrip_by_idemp.
  assert (Py.lstrip_by p (Py.rstrip_by p x) = Py.rstrip_by p x) as ->.
  { destruct x as [|a x']; [done|]. simpl in Hx.
    destruct (p a) eqn:Ha.
    { pose proof (lstrip_by_length p x') as Hl. rewrite Hx in Hl. simpl in Hl. lia. }
    unfold Py.rstrip_by. rewrite str_rev_cons.
    destruct (lstrip_by_snoc p (String.rev x') a Ha) as [z ->].
    rewrite str_rev_app_distr.
    change (String.rev (String a EmptyString)) with (String a EmptyString).
    rewrite str_app_cons. simpl. by rewrite Ha. }
  unfold Py.rstrip_by. by rewrite str_rev_involutive, lstrip_by_idemp.
Qed.

(** ** Searching and splitting *)

Lemma contains_no_first (c : ascii) (needle s : string) :
  no_char (λ a, bool_decide (a = c)) s = true ->
  Py.contains (String c needle) s = false.
Proof.
  induction s as [|a s IH]; [done|]. simpl.
  intros [Ha Hs]%andb_true_iff. apply negb_true_iff, bool_decide_eq_false in Ha.
  rewrite decide_False by congruence. simpl. by apply IH.
Qed.

Lemma contains_startswith (needle s : string) :
  Py.startswith needle s = true -> Py.contains needle s = true.
Proof. intros H. destruct s; simpl in *; by rewrite H. Qed.

Lemma split_no_sep (sep : ascii) (s : string) :
  no_char (λ a, bool_decide (a = sep)) s = true -> Py.split sep s = [s].
Proof.
  induction s as [|a s IH]; [done|]. simpl.
  intros [Ha Hs]%andb_true_iff. apply negb_true_iff, bool_decide_eq_false in Ha.
  rewrite decide_False by done. by rewrite IH.
Qed.

Lemma split_sep (sep : ascii) (a rest : string) :
  no_char (λ c, bool_decide (c = sep)) a = true ->
  Py.split sep (a +:+ String sep rest) = a :: Py.split sep rest.
Proof.
  induction a as [|c a IH].
  - intros _. change (EmptyString +:+ ?x) with x. simpl. by rewrite decide_True.
  - rewrite str_app_cons. simpl.
    intros [Hc Ha]%andb_true_iff. apply negb_true_iff, bool_decide_eq_false in Hc.
    rewrite decide_False by done. by rewrite IH.
Qed.

Lemma all_digits_no_char (p : ascii -> bool) (s : string) :
  (forall c, is_Some (Py.digit_val c) -> p c = false) ->
  all_digits s = true -> no_char p s = true.
Proof.
  intros Hp. induction s as [|c s IH]; [done|]. simpl.
  intros [Hc Hs]%andb_true_iff. apply bool_decide_eq_true in Hc.
  by rewrite (Hp _ Hc), IH.
Qed.

Lemma digit_is_not (a : ascii) (c : ascii) :
  Py.digit_val a = None -> is_Some (Py.digit_val c) -> bool_decide (c = a) = false.
Proof. intros Ha Hc. apply bool_decide_eq_false. intros ->. rewrite Ha in Hc. by destruct Hc. Qed.

(** The characters of a rendered time are digits and colons. *)
Lemma hms_no_char (p : ascii -> bool) (t : Z) :
  0 <= t -> (forall c, is_Some (Py.digit_val c) -> p c = false) -> p ":"%char = false ->
  no_char p (hms_of_total t) = true.
Proof.
  intros Ht Hp Hc. rewrite hms_of_total_unfold.
  assert (0 <= t / 3600) by (apply Z.div_pos; lia).
  assert (0 <= (t - t / 3600 * 3600) / 60).
  { apply Z.div_pos; [|lia]. pose proof (Z.mul_div_le t 3600). lia. }
  assert (0 <= t mod 60) by (apply Z.mod_pos_bound; lia).
  rewrite !no_char_app. simpl. rewrite !no_char_app. simpl. rewrite Hc. simpl.
  by rewrite !(all_digits_no_char p) by (done || by apply all_digits_format_02d).
Qed.

Lemma format_02d_not_empty (z : Z) : Py.format_02d z <> EmptyString.
Proof.
  unfold Py.format_02d. repeat case_match; try done.
  rewrite decimal_not_nil. pose proof (to_uint_not_nil (Z.to_N z)).
  by destruct (N.to_uint (Z.to_N z)).
Qed.

Lemma isspace_nl : Py.isspace (ascii_of_nat 10) = true.
Proof. reflexivity. Qed.

(** [int] does not see the newline that [readlines] leaves on the seconds. *)
Lemma int_format_02d_nl (z : Z) :
  0 <= z < 2 ^ 63 -> Py.int (Py.format_02d z +:+ nl) = Ok z.
Proof.
  intros Hz. rewrite <- (int_format_02d z Hz). unfold Py.int.
  assert (Py.strip_by Py.int_space (Py.format_02d z) = Py.format_02d z) as Hs.
  { apply strip_by_none, all_digits_no_space. apply all_digits_format_02d. lia. }
  assert (Py.strip_by Py.int_space (Py.format_02d z +:+ nl) = Py.format_02d z) as ->;
    [|by rewrite Hs].
  unfold Py.strip_by.
  rewrite lstrip_by_app_fixed
    by (by apply strip_by_fixed_l || apply format_02d_not_empty).
  unfold nl. rewrite rstrip_by_snoc.
  change (Py.int_space (ascii_of_nat 10)) with true. cbv iota.
  by apply strip_by_fixed_r.
Qed.

Lemma hms_bounds (t : Z) :
  0 <= t < 2 ^ 63 ->
  0 <= t / 3600 < 2 ^ 63 /\ 0 <= (t - t / 3600 * 3600) / 60 < 2 ^ 63 /\
  0 <= t mod 60 < 2 ^ 63.
Proof.
  intros H. pose proof (Z.mul_div_le t 3600). pose proof (Z.mod_pos_bound t 60).
  assert (0 <= t / 3600) by (apply Z.div_pos; lia).
  repeat split; try lia; try (apply Z.div_pos; lia);
    apply Z.div_lt_upper_bound; lia.
Qed.

Lemma hms_fields (t : Z) :
  0 <= t < 2 ^ 63 ->
  field_seconds (hms_of_total t)
  = Ok (t / 3600 * 3600 + (t - t / 3600 * 3600) / 60 * 60 + t mod 60).
Proof.
  intros H. destruct (hms_bounds t H) as (Hh & Hm & Hs).
  unfold field_seconds. rewrite hms_of_total_unfold.
  rewrite !split_digits_colon, split_digits by (apply all_digits_format_02d; lia).
  by rewrite !int_format_02d by done.
Qed.

Lemma field_seconds_nl (t : Z) :
  0 <= t < 2 ^ 63 -> field_seconds (hms_of_total t +:+ nl) = Ok t.
Proof.
  intros H. rewrite <- (hms_round_trip t H). rewrite (hms_fields t H).
  destruct (hms_bounds t H) as (Hh & Hm & Hs).
  unfold field_seconds. rewrite hms_of_total_unfold.
  rewrite str_app_assoc, str_app_cons, str_app_assoc, str_app_cons.
  rewrite !split_digits_colon by (apply all_digits_format_02d; lia).
  rewrite split_no_sep.
  2:{ rewrite no_char_app. rewrite (all_digits_no_char _ (Py.format_02d _)); [done| |].
      - intros c Hc. by apply digit_is_not.
      - apply all_digits_format_02d. lia. }
  by rewrite int_format_02d_nl, !int_format_02d by done.
Qed.

(** ** Reading back the log of a run *)

Lemma lstrip_marker (x : string) :
  Py.lstrip_by (λ c, Py.char_in c "Average TPS:") ("Average TPS: " +:+ x) =
  Py.lstrip_by (λ c, Py.char_in c "Average TPS:") x.
Proof. reflexivity. Qed.

Lemma run_log_tps (v : string) (t : Z) :
  0 <= t ->
  v <> EmptyString -> Py.strip_chars "Average TPS:" v = v -> Py.strip v = v ->
  file_tps (run_log (v, t)) = Some v.
Proof.
  intros Ht Hne Hc Hs. unfold file_tps, run_log. cbn [fst snd].
  rewrite filter_cons, decide_True.
  2:{ apply Is_true_true. by apply contains_startswith. }
  rewrite filter_cons, decide_False, filter_nil.
  2:{ apply Is_true_false. apply contains_no_first.
      rewrite !no_char_app. rewrite hms_no_char; try done.
      intros c Hd. by apply digit_is_not. }
  cbn [last fmap option_fmap option_map]. f_equal.
  unfold Py.strip_chars, Py.strip_by at 1.
  rewrite lstrip_marker.
  rewrite lstrip_by_app_fixed by (by apply strip_by_fixed_l || done).
  unfold nl. rewrite rstrip_by_snoc.
  change (Py.char_in (ascii_of_nat 10) "Average TPS:") with false. cbv iota.
  unfold Py.strip, Py.strip_by.
  rewrite lstrip_by_app_fixed by (by apply strip_by_fixed_l || done).
  rewrite rstrip_by_snoc, isspace_nl. by apply strip_by_fixed_r.
Qed.

Lemma run_log_time_field (v : string) (t : Z) :
  0 <= t ->
  file_time_field (run_log (v, t)) = Some (hms_of_total t +:+ nl).
Proof.
  intros Ht. unfold file_time_field, run_log. cbn [fst snd].
  assert (last (filter (λ l, Py.contains "Time" l)
                  ["Average TPS: " +:+ v +:+ nl; "Time " +:+ hms_of_total t +:+ nl])
          = Some ("Time " +:+ hms_of_total t +:+ nl)) as ->.
  { assert (Is_true (Py.contains "Time" ("Time " +:+ hms_of_total t +:+ nl))) as Hc
      by (apply Is_true_true; by apply contains_startswith).
    rewrite !filter_cons, filter_nil. by repeat case_decide. }
  cbn [mbind option_bind].
  change ("Time " +:+ hms_of_total t +:+ nl)
    with ("Time" +:+ String " " (hms_of_total t +:+ nl)).
  rewrite split_sep by done. rewrite split_no_sep; [done|].
  rewrite no_char_app, hms_no_char; try done.
  intros c Hd. by apply digit_is_not.
Qed.

Lemma run_log_counted (v : string) (t : Z) :
  0 <= t < 2 ^ 63 ->
  counted (run_log (v, t)) = true /\ file_seconds (run_log (v, t)) = Ok t.
Proof.
  intros Ht. unfold counted, file_seconds.
  rewrite (run_log_time_field _ _ (proj1 Ht)).
  split; [|by apply field_seconds_nl].
  apply andb_true_iff. split; [|by apply bool_decide_eq_true].
  unfold has_tps_marker, run_log. cbn [existsb fst].
  by rewrite contains_startswith.
Qed.

Lemma total_nonneg (xs : list Z) : Forall (λ s, 0 <= s) xs -> 0 <= Numpy.total xs.
Proof. unfold Numpy.total. induction 1; simpl; lia. Qed.

(** The loop over the logs of runs. *)
Lemma run_logs_seconds (runs : list (string * Z)) :
  Forall (λ run, run.1 <> EmptyString /\
                 Py.strip_chars "Average TPS:" run.1 = run.1 /\
                 Py.strip run.1 = run.1 /\ 0 <= run.2 < 2 ^ 63) runs ->
  Forall2 (λ f t, file_seconds f = Ok t)
    (filter (λ f, counted f) (run_log <$> runs)) (runs.*2).
Proof.
  induction 1 as [|[v0 t0] rs (_ & _ & _ & Ht0) _ IH]; [constructor|].
  cbn [snd] in Ht0. destruct (run_log_counted v0 t0 Ht0) as [Hc Hs].
  rewrite !fmap_cons, filter_cons, decide_True by (by rewrite Hc).
  by constructor.
Qed.

Lemma run_logs_tps (runs : list (string * Z)) (v : string) (t : Z) :
  Forall (λ run, run.1 <> EmptyString /\
                 Py.strip_chars "Average TPS:" run.1 = run.1 /\
                 Py.strip run.1 = run.1 /\ 0 <= run.2 < 2 ^ 63) (runs ++ [(v, t)]) ->
  last (omap file_tps (run_log <$> runs ++ [(v, t)])) = Some v.
Proof.
  intros Hall. rewrite fmap_app, omap_app. simpl.
  apply Forall_app in Hall as [_ Hv]. apply Forall_inv in Hv.
  destruct Hv as (? & ? & ? & ? & _). cbn [fst snd] in *.
  rewrite run_log_tps by done. by rewrite last_snoc.
Qed.

Section ThroughputParserRoundTrip.

Variable wide_hms : list Z -> result string.

(** Lines 224 to 228 on a list of seconds that [int64] holds. *)
Lemma finish_int64 (v : string) (secs : list Z) :
  Forall (λ s, 0 <= s < 2 ^ 63) secs -> secs <> [] -> Numpy.total secs < 2 ^ 63 ->
  finish wide_hms {| tps := Some v; times := secs |}
  = Ok (v, hms_of_total (Numpy.total secs)).
Proof.
  intros Hsecs Hne Htot. unfold finish. cbn [times tps]. unfold Numpy.sum.
  rewrite forallb_in_int64 by (eapply Forall_impl; [exact Hsecs|]; simpl; lia).
  rewrite wrap_int64_id; [by destruct secs|].
  split; [|done].
  assert (0 <= Numpy.total secs); [|lia].
  apply total_nonneg. eapply Forall_impl; [exact Hsecs|]. simpl. lia.
Qed.

(** X4: logs are read back.  For the logs of a sequence of runs, each
    reporting a throughput and an elapsed time, [get_tps_time] returns the
    throughput of the last run and the rendering of the sum of the elapsed
    seconds.  The throughputs are the texts that the two [strip]s leave
    alone: not empty and with neither a blank nor a character of
    [Average TPS:] at either end. *)
Theorem get_tps_time_reads_back (runs : list (string * Z)) (v : string) (t : Z) :
  Forall (λ run, run.1 <> EmptyString /\
                 Py.strip_chars "Average TPS:" run.1 = run.1 /\
                 Py.strip run.1 = run.1 /\ 0 <= run.2 < 2 ^ 63) (runs ++ [(v, t)]) ->
  Numpy.total ((runs ++ [(v, t)]).*2) < 2 ^ 63 ->
  get_tps_time wide_hms (run_log <$> runs ++ [(v, t)])
  = Ok (v, hms_of_total (Numpy.total ((runs ++ [(v, t)]).*2))).
Proof.
  intros Hall Htot. unfold get_tps_time.
  rewrite (for_each_parse_log _ _ _ (run_logs_seconds _ Hall)).
  rewrite (run_logs_tps _ _ _ Hall). cbn [app].
  apply finish_int64; [|by destruct runs|done].
  apply Forall_fmap. eapply Forall_impl; [exact Hall|]. by intros ? (_ & _ & _ & ?).
Qed.

(** X5: the throughput that [get_tps_time] returns is what the two [strip]s
    leave of a throughput-marker line of one of the files, and it has no
    blank at either end; the newline that [readlines] keeps is gone. *)
Theorem get_tps_time_tps_stripped (outfiles : list (list string)) (v t : string) :
  get_tps_time wide_hms outfiles = Ok (v, t) ->
  (exists f line, f ∈ outfiles /\ line ∈ f /\ Py.contains "Average TPS" line = true /\
                  v = Py.strip (Py.strip_chars "Average TPS:" line)) /\
  Py.strip v = v.
Proof.
  unfold get_tps_time.
  destruct (for_each outfiles parse_log _) as [l [[]|e]] eqn:E; [|done].
  pose proof (parse_loop_ok _ _ _ E) as Hok.
  rewrite (for_each_parse_log _ _ _ (counted_seconds_spec _ Hok)) in E.
  injection E as <-. unfold finish, read_tps. cbn [tps times].
  destruct (last (omap file_tps outfiles)) as [v0|] eqn:L.
  2:{ by repeat case_match. }
  intros Hv. assert (v0 = v) as -> by (repeat case_match; congruence).
  apply last_Some_elem_of, list_elem_of_omap in L as (f & Hf & Hv0).
  unfold file_tps in Hv0.
  destruct (last (filter _ f)) as [line|] eqn:Hl; [|done].
  injection Hv0 as <-.
  apply last_Some_elem_of, list_elem_of_filter in Hl as [Hc Hl].
  split; [|apply strip_by_idemp].
  exists f, line. repeat split; try done. by apply Is_true_true.
Qed.

End ThroughputParserRoundTrip.

Lemma get_tps_time_reads_back_witness :
  get_tps_time no_wide_hms (run_log <$> [("120", 1815)] ++ [("7.5", 5)])
  = Ok ("7.5", hms_of_total (Numpy.total (([("120", 1815)] ++ [("7.5", 5)]).*2))).
Proof.
  apply (get_tps_time_reads_back no_wide_hms [("120", 1815)] "7.5" 5).
  - apply Forall_cons. split; [repeat split; (discriminate || reflexivity || lia)|].
    apply Forall_cons. split; [repeat split; (discriminate || reflexivity || lia)|].
    by apply Forall_nil.
  - simpl. lia.
Defined.

Lemma get_tps_time_tps_stripped_witness : Py.strip "120" = "120".
Proof.
  apply (get_tps_time_tps_stripped no_wide_hms [file1; file2] "120" "00:30:15").
  reflexivity.
Defined.

(** ** More on the labels *)

(** X6: a job that is [sampled] stays so while the simulation appends
    frames: when the trajectory has grown, its last step has not decreased
    and [steps] in the document is what it was, [sampled] is still true. *)
Theorem sampled_stays_true (j : job) (w w' : world) (traj more : list frame)
  (snap snap' : frame) :
  fs w !! fn j "trajectory.gsd" = Some (File (Gsd traj)) ->
  fs w' !! fn j "trajectory.gsd" = Some (File (Gsd (traj ++ more))) ->
  doc w' !! "steps" = doc w !! "steps" ->
  last traj = Some snap ->
  last (traj ++ more) = Some snap' ->
  (step snap <= step snap')%N ->
  sampled j w = Ok true ->
  sampled j w' = Ok true.
Proof.
  intros Hw Hw' Hdoc Hl Hl' Hstep.
  unfold sampled, current_step, job_isfile, Os.isfile, gsd_open, Py.index_last, doc_attr.
  rewrite Hw, Hw', Hl, Hl', Hdoc.
  destruct (doc w !! "steps") as [[steps| |]|]; try done.
  intros [= H]. f_equal. apply Z.leb_le. apply Z.leb_le in H. lia.
Qed.

(** ** More on the positions of a type *)

Lemma list_index_nodup (ts : list string) (i : nat) (t : string) :
  NoDup ts -> ts !! i = Some t -> list_index t ts = Ok i.
Proof.
  intros Hnd Hi. unfold list_index.
  destruct (list_find (λ y, y = t) ts) as [[k y]|] eqn:E.
  - apply list_find_Some in E as (Hk & -> & _).
    by rewrite (NoDup_lookup _ _ _ _ Hnd Hk Hi).
  - apply list_find_None in E. rewrite Forall_forall in E.
    destruct (E t); [by eapply list_elem_of_lookup_2|done].
Qed.

Lemma filter_disjoint_app {A} (P Q : A -> Prop) `{!forall x, Decision (P x)}
  `{!forall x, Decision (Q x)} (l : list A) :
  (forall x, P x -> Q x -> False) ->
  filter P l ++ filter Q l ≡ₚ filter (λ x, P x \/ Q x) l.
Proof.
  intros Hd. induction l as [|x l IH]; [done|]. rewrite !filter_cons.
  destruct (decide (P x)) as [HP|HP], (decide (Q x)) as [HQ|HQ].
  - destruct (Hd x HP HQ).
  - rewrite decide_True by auto. simpl. by rewrite IH.
  - rewrite decide_True by auto. rewrite <- Permutation_middle. by rewrite IH.
  - rewrite decide_False by tauto. done.
Qed.

Lemma filter_all {A} (P : A -> Prop) `{!forall x, Decision (P x)} (l : list A) :
  Forall P l -> filter P l = l.
Proof.
  induction 1 as [|x l Hx _ IH]; [done|]. by rewrite filter_cons, decide_True, IH.
Qed.

Lemma concat_fmap_fmap {A B} (f : A -> B) (ls : list (list A)) :
  concat (fmap (M := list) f <$> ls) = f <$> concat ls.
Proof.
  induction ls as [|l ls IH]; [done|]. rewrite fmap_cons. simpl. rewrite fmap_app. by f_equal.
Qed.

(** The particles grouped by type id are the particles. *)
Lemma group_by_typeid (ids : list nat) (l : list (nat * vec3)) :
  NoDup ids ->
  concat ((λ i, filter (λ p, p.1 = i) l) <$> ids) ≡ₚ filter (λ p, p.1 ∈ ids) l.
Proof.
  induction 1 as [|i ids Hi _ IH]; simpl.
  - induction l as [|p l IHl]; [done|].
    rewrite filter_cons, decide_False by apply not_elem_of_nil. done.
  - rewrite IH. rewrite filter_disjoint_app.
    + apply reflexive_eq. apply list_filter_iff. intros p. rewrite elem_of_cons. done.
    + intros p <- Hin. done.
Qed.

(** X7: in a frame whose type names are distinct and whose type ids are
    indices of [types], [atom_type_pos] succeeds for every type and the
    positions it returns for the types, taken together, are the positions
    of the particles: each particle is counted for exactly one type. *)
Theorem atom_type_pos_partition (snap : frame) :
  NoDup (types snap) ->
  Forall (λ p, (p.1 < length (types snap))%nat) (particles snap) ->
  exists pss : list (list vec3),
    Forall2 (λ t ps, atom_type_pos snap t = Ok ps) (types snap) pss /\
    concat pss ≡ₚ (particles snap).*2.
Proof.
  intros Hnd Hids.
  set (n := length (types snap)).
  exists ((λ i, (filter (λ p, p.1 = i) (particles snap)).*2) <$> seq 0 n).
  split.
  - apply Forall2_same_length_lookup. split.
    { by rewrite length_fmap, length_seq. }
    intros i t ps Ht Hps. rewrite list_lookup_fmap in Hps.
    assert (i < n)%nat as Hi by (by eapply lookup_lt_Some).
    rewrite lookup_seq_lt in Hps by done. injection Hps as <-.
    unfold atom_type_pos. by rewrite (list_index_nodup _ _ _ Hnd Ht).
  - assert (((λ i, (filter (λ p, p.1 = i) (particles snap)).*2) <$> seq 0 n)
            = (fmap (M := list) snd <$>
                 ((λ i, filter (λ p, p.1 = i) (particles snap)) <$> seq 0 n))) as ->
      by (by rewrite <- list_fmap_compose).
    rewrite concat_fmap_fmap, group_by_typeid by apply NoDup_seq.
    rewrite filter_all; [done|].
    eapply Forall_impl; [exact Hids|]. intros p Hp. apply elem_of_seq. simpl in Hp. unfold n. lia.
Qed.

(** X8: with [atom_type == 'all'] [msd_from_gsd] never returns a series.  The
    loop appends nothing ([positions.append] is under the [else]), so
    [freud] is handed the empty list and raises [ValueError], whatever the
    frames and the slice; the world is left as it was. *)
Theorem msd_from_gsd_all_raises (gsdfile : string) (start stop : Z) (md : string)
  (w : world) (traj : list frame) :
  fs w !! gsdfile = Some (File (Gsd traj)) ->
  traj <> [] ->
  msd_from_gsd gsdfile start stop "all" md w = (w, Raise ValueError).
Proof.
  intros Hw Hne. rewrite (msd_from_gsd_run _ _ _ _ _ _ _ Hw).
  unfold msd_of, Py.index_last. rewrite collect_positions_all.
  destruct (last traj) as [final|] eqn:Hl; [done|].
  by apply last_None in Hl.
Qed.

(** X9: the frames behind the two series of a type.  When the two calls of
    a turn of the loop return, the trajectory has ten frames or more, the
    saved and plotted series is computed from [min (n - 1) 29] of its [n]
    frames and the series of the slope from [min (n - 9) 16] frames.  On a
    trajectory of one to nine frames the second call raises [ValueError]:
    [trajectory[-25:-9]] is empty there, and [freud] rejects the empty
    list. *)
Theorem msd_window_lengths (gsdfile t md : string) (w : world) (traj : list frame) :
  fs w !! gsdfile = Some (File (Gsd traj)) ->
  (forall (w1 w2 : world) (long short : msd_call),
     msd_from_gsd gsdfile (-30) (-1) t md w = (w1, Ok long) ->
     msd_from_gsd gsdfile (-25) (-9) t md w = (w2, Ok short) ->
     (10 <= length traj)%nat /\
     msd_len long = Nat.min (length traj - 1) 29 /\
     msd_len short = Nat.min (length traj - 9) 16) /\
  (traj <> [] -> (length traj < 10)%nat ->
   msd_from_gsd gsdfile (-25) (-9) t md w = (w, Raise ValueError)).
Proof.
  intros Hw. rewrite !(msd_from_gsd_run _ _ _ _ _ _ _ Hw). split.
  - intros w1 w2 long short [= _ Hlong] [= _ Hshort].
    apply msd_of_spec in Hlong as (_ & _ & Hl & _).
    apply msd_of_spec in Hshort as (_ & Hne & Hs & _).
    apply short_range_frames in Hne.
    apply Forall2_length in Hl, Hs. unfold msd_len. rewrite <- Hl, <- Hs.
    rewrite py_slice_long, py_slice_short, !length_take, !length_drop. lia.
  - intros Hne Hlen. f_equal. unfold msd_of, Py.index_last.
    rewrite py_slice_short.
    replace (length traj - 9 - (length traj - 25))%nat with 0%nat by lia.
    rewrite take_0. cbn [collect_positions].
    destruct (last traj) as [final|] eqn:Hl; [done|].
    by apply last_None in Hl.
Qed.

Lemma list_index_missing (t : string) (ts : list string) :
  t ∉ ts -> list_index t ts = Raise ValueError.
Proof.
  intros Ht. unfold list_index.
  destruct (list_find (λ y, y = t) ts) as [[k y]|] eqn:E; [|done].
  apply list_find_Some in E as (Hk & -> & _).
  destruct Ht. by eapply list_elem_of_lookup_2.
Qed.

Lemma atom_type_pos_raises (fr : frame) (t : string) (e : exn) :
  atom_type_pos fr t = Raise e -> e = ValueError.
Proof.
  unfold atom_type_pos, list_index. repeat case_match; congruence.
Qed.

Lemma collect_positions_missing (frames : list frame) (fr : frame) (t : string)
  (acc : list (list vec3)) :
  t <> "all" -> fr ∈ frames -> t ∉ types fr ->
  collect_positions frames t acc = Raise ValueError.
Proof.
  intros Ht Hin Hfr. revert acc.
  induction frames as [|fr0 frames IH]; intros acc.
  { by apply not_elem_of_nil in Hin. }
  simpl. rewrite decide_False by done.
  apply elem_of_cons in Hin as [<-|Hin].
  - unfold atom_type_pos. by rewrite (list_index_missing _ _ Hfr).
  - destruct (atom_type_pos fr0 t) as [p|e] eqn:E; [by apply IH|].
    by rewrite (atom_type_pos_raises _ _ _ E).
Qed.

(** X10: [msd_from_gsd] raises [ValueError] when a frame of the slice lacks
    the type it is asked for ([list.index] fails), and leaves the world as
    it was. *)
Theorem msd_from_gsd_missing_type (gsdfile : string) (start stop : Z) (t md : string)
  (w : world) (traj : list frame) (fr : frame) :
  fs w !! gsdfile = Some (File (Gsd traj)) ->
  t <> "all" ->
  fr ∈ py_slice traj start stop ->
  t ∉ types fr ->
  msd_from_gsd gsdfile start stop t md w = (w, Raise ValueError).
Proof.
  intros Hw Ht Hin Hfr. rewrite (msd_from_gsd_run _ _ _ _ _ _ _ Hw).
  unfold msd_of. by rewrite (collect_positions_missing _ _ _ _ Ht Hin Hfr).
Qed.

Section PostProcEdges.

Variable get_quaternions : list quaternion.
Variable quaternion_str : quaternion -> string.


End PostProcEdges.

Lemma sampled_stays_true_witness : sampled job0 world_longer = Ok true.
Proof.
  apply (sampled_stays_true job0 world_short world_longer [frame_at 0; frame_at 50]
           [frame_at 100] (frame_at 50) (frame_at 100)); try reflexivity.
  vm_compute. discriminate.
Defined.

Lemma atom_type_pos_partition_witness :
  exists pss : list (list vec3),
    Forall2 (λ t ps, atom_type_pos (frame_at 0) t = Ok ps) (types (frame_at 0)) pss /\
    concat pss ≡ₚ (particles (frame_at 0)).*2.
Proof.
  apply atom_type_pos_partition.
  - apply NoDup_cons. split; [|apply NoDup_singleton].
    intros H%list_elem_of_singleton. discriminate.
  - repeat constructor.
Defined.

Lemma msd_from_gsd_all_raises_witness :
  msd_from_gsd "/w/abc/trajectory.gsd" (-30) (-1) "all" "window" world0
  = (world0, Raise ValueError).
Proof.
  apply (msd_from_gsd_all_raises _ _ _ _ _ traj0); [reflexivity|discriminate].
Defined.

Lemma msd_window_lengths_witness :
  (exists long short,
     msd_from_gsd "/w/abc/trajectory.gsd" (-30) (-1) "A" "window" world0
     = (world0, Ok long) /\
     msd_from_gsd "/w/abc/trajectory.gsd" (-25) (-9) "A" "window" world0
     = (world0, Ok short) /\
     msd_len long = 11%nat /\ msd_len short = 3%nat) /\
  msd_from_gsd "/w/abc/trajectory.gsd" (-25) (-9) "A" "window" world_short
  = (world_short, Raise ValueError).
Proof.
  split.
  - eexists _, _. split; [vm_compute; reflexivity|]. split; [vm_compute; reflexivity|].
    apply (proj1 (msd_window_lengths "/w/abc/trajectory.gsd" "A" "window" world0 traj0
                    eq_refl) world0 world0).
    + vm_compute. reflexivity.
    + vm_compute. reflexivity.
  - apply (proj2 (msd_window_lengths "/w/abc/trajectory.gsd" "A" "window" world_short
                    [frame_at 0; frame_at 50] eq_refl)).
    + discriminate.
    + simpl. lia.
Defined.

Lemma msd_from_gsd_missing_type_witness :
  msd_from_gsd "/w/abc/trajectory.gsd" (-30) (-1) "C" "window" world0
  = (world0, Raise ValueError).
Proof.
  apply (msd_from_gsd_missing_type _ _ _ _ _ _ traj0 (frame_at 0)).
  - reflexivity.
  - discriminate.
  - vm_compute. left.
  - intros H. apply elem_of_cons in H as [H|H%list_elem_of_singleton]; discriminate.
Defined.


(** ** More on the analysis operation *)

Lemma gsd_open_same (p : string) (w w0 : world) (r : result (list frame)) :
  gsd_open p w = (w0, r) -> w0 = w.
Proof. unfold gsd_open. repeat case_match; congruence. Qed.

Lemma makedirs_raise (p : string) (w w' : world) (e : exn) :
  Os.makedirs p w = (w', Raise e) -> w' = w.
Proof. unfold Os.makedirs. repeat case_match; congruence. Qed.

Lemma makedirs_figs (p : string) (w w' : world) (u : unit) :
  Os.makedirs p w = (w', Ok u) -> figs w' = figs w.
Proof. by intros [_ ->]%makedirs_inv. Qed.

Lemma figs_with_rdf_lookup_two (j : job) (t : string) (f : gmap nat figure) :
  default [] (figs_with_rdf j t f !! 2%nat) = msd_figure_start j t f.
Proof.
  unfold figs_with_rdf, msd_figure_start. case_decide as E.
  - by rewrite E, lookup_insert_eq.
  - by rewrite lookup_insert_ne.
Qed.

Lemma figs_after_dom (j : job) (t : string) (long : msd_call) (f : gmap nat figure) :
  dom f ⊆ dom (figs_after j t long f) /\
  (size f + 1 <= size (figs_after j t long f))%nat.
Proof.
  unfold figs_after, figs_with_rdf. split.
  - rewrite !dom_insert. etrans; apply union_subseteq_r.
  - pose proof (map_size_insert_None (Plt.next_num f) [rdf_plot j t] f
                  (next_num_fresh f)) as H1.
    set (f1 := <[Plt.next_num f := [rdf_plot j t]]> f) in *.
    destruct (f1 !! 2%nat) as [x|] eqn:E.
    + rewrite map_size_insert_Some by (by eexists). lia.
    + rewrite map_size_insert_None by done. lia.
Qed.

Section PostProcMore.

Variable get_quaternions : list quaternion.
Variable quaternion_str : quaternion -> string.
Variable j : job.

(** The loop over the types, from a state in which [msd/msd.png] shows
    figure 2. *)
Lemma analyse_types_trace (traj : list frame) (ts : list string)
  (slopes slopes' : gmap string slope) (w w' : world) :
  fs w !! trajectory_path j = Some (File (Gsd traj)) ->
  analyse_types j (trajectory_path j) slopes ts w = (w', Ok slopes') ->
  (forall t, is_Some (slopes' !! t) <-> is_Some (slopes !! t) \/ t ∈ ts) /\
  dom (figs w) ⊆ dom (figs w') /\
  (size (figs w) + length ts <= size (figs w'))%nat /\
  exists longs,
    Forall2 (λ t long, msd_of traj (-30) (-1) t "window" = Ok long) ts longs /\
    forall f2,
      figs w !! 2%nat = Some f2 ->
      fs w !! msd_png j = Some (File (Png f2)) ->
      fs w' !! msd_png j = Some (File (Png (f2 ++ zip_with msd_plot longs ts))).
Proof.
  revert slopes w. induction ts as [|t ts IH]; intros slopes w Htr Hrun.
  - injection Hrun as <- <-. split; [|split; [done|split; [simpl; lia|]]].
    { intros t. rewrite elem_of_nil. tauto. }
    exists []. split; [constructor|]. intros f2 _ Hpng. by rewrite app_nil_r.
  - simpl in Hrun. apply bind_inv_ok in Hrun as (w1 & slopes1 & Hturn & Hrun).
    destruct (analyse_type_run j traj _ _ _ _ _ Htr Hturn)
      as (long & short & Hlong & _ & -> & Hfs & _ & Hfigs & _ & _).
    assert (fs w1 !! trajectory_path j = Some (File (Gsd traj))) as Htr1
      by (by rewrite Hfs, fs_after_trajectory).
    destruct (IH _ _ Htr1 Hrun) as (Hs & Hd & Hz & longs & Hlongs & Hfig).
    destruct (figs_after_dom j t long (figs w)) as [Hd1 Hz1].
    rewrite <- Hfigs in Hd1, Hz1.
    split; [|split; [by etrans|split; [simpl; lia|]]].
    { intros t0. rewrite Hs, lookup_insert_is_Some, elem_of_cons.
      destruct (decide (t = t0)); intuition congruence. }
    exists (long :: longs). split; [by constructor|].
    intros f2 Hf2 _. simpl. rewrite (cons_middle _ f2), app_assoc.
    assert (msd_figure j t long (figs w) = f2 ++ [msd_plot long t]) as Hm.
    { unfold msd_figure. by rewrite (figs_with_rdf_two _ _ _ _ Hf2). }
    apply Hfig.
    + rewrite Hfigs. unfold figs_after. by rewrite lookup_insert_eq, Hm.
    + by rewrite Hfs, fs_after_msd_png, Hm.
Qed.

(** What a successful first stage has done to the document and to the
    figures. *)
Lemma rdf_msd_stage_trace (w w1 : world) :
  rdf_msd_stage j (trajectory_path j) w = (w1, Ok tt) ->
  exists traj first slopes longs,
    fs w !! trajectory_path j = Some (File (Gsd traj)) /\
    traj !! 0%nat = Some first /\
    doc w1 = <["msd_slopes" := DSlopes slopes]> (doc w) /\
    (forall t, is_Some (slopes !! t) <-> t ∈ types first) /\
    dom (figs w) ⊆ dom (figs w1) /\
    (size (figs w) + length (types first) <= size (figs w1))%nat /\
    Forall2 (λ t long, msd_of traj (-30) (-1) t "window" = Ok long)
      (types first) longs /\
    forall t ts, types first = t :: ts ->
      fs w1 !! msd_png j
      = Some (File (Png (msd_figure_start j t (figs w)
                           ++ zip_with msd_plot longs (types first)))).
Proof.
  intros H. unfold rdf_msd_stage in H.
  apply bind_inv_ok in H as (w0 & traj & [-> Htr]%gsd_open_inv & H).
  apply bind_inv_ok in H as (w0 & first & [-> Hfirst]%lift_inv & H).
  apply bind_inv_ok in H as (wa & [] & Ha & H).
  apply bind_inv_ok in H as (wb & [] & Hb & H).
  apply bind_inv_ok in H as (wc & [] & Hc & H).
  apply bind_inv_ok in H as (wd & slopes & Hloop & H).
  assert (stable owned_rdf_msd j w wc) as (Hf & _).
  { eapply stable_trans; [|eapply stable_trans].
    - eapply keeps_makedirs; [|exact Ha]. by apply touched_rdf_msd.
    - eapply keeps_makedirs; [|exact Hb]. by apply touched_rdf_msd.
    - eapply keeps_makedirs; [|exact Hc]. by apply touched_rdf_msd. }
  assert (fs wc !! trajectory_path j = Some (File (Gsd traj))) as Htrc.
  { rewrite Hf; [done|]. eapply foreign_weaken; [|apply foreign_trajectory].
    apply owned_rdf_msd_owned. }
  assert (figs wc = figs w) as Hfigs.
  { by rewrite (makedirs_figs _ _ _ _ Hc), (makedirs_figs _ _ _ _ Hb),
      (makedirs_figs _ _ _ _ Ha). }
  assert (doc wc = doc w) as Hdoc.
  { apply makedirs_inv in Ha as [_ ->], Hb as [_ ->], Hc as [_ ->]. done. }
  injection H as <-.
  unfold Py.index in Hfirst.
  destruct (traj !! 0%nat) as [first'|] eqn:E; [|done]. injection Hfirst as ->.
  cbn [doc fs figs].
  destruct (types first) as [|t ts] eqn:Hts.
  - injection Hloop as <- <-. exists traj, first, ∅, []. rewrite Hts, Hdoc, Hfigs.
    repeat split; try done.
    + by intros [? ?%lookup_empty_Some].
    + by intros ?%elem_of_nil.
    + simpl. lia.
  - simpl in Hloop. apply bind_inv_ok in Hloop as (w2 & slopes2 & Hturn & Hloop).
    destruct (analyse_type_run j traj _ _ _ _ _ Htrc Hturn)
      as (long & short & Hlong & _ & -> & Hfs2 & Hdoc2 & Hfigs2 & _ & _).
    assert (fs w2 !! trajectory_path j = Some (File (Gsd traj))) as Htr2
      by (by rewrite Hfs2, fs_after_trajectory).
    destruct (analyse_types_trace _ _ _ _ _ _ Htr2 Hloop)
      as (Hs & Hd & Hz & longs & Hlongs & Hfig).
    destruct (figs_after_dom j t long (figs wc)) as [Hd1 Hz1].
    rewrite <- Hfigs2 in Hd1, Hz1. rewrite Hfigs in Hd1, Hz1.
    assert (doc wd = doc w) as ->.
    { destruct (analyse_types_done j traj [] _ _ _ _ _ Htr2 (or_introl eq_refl) Hloop)
        as (_ & -> & _). congruence. }
    exists traj, first, slopes, (long :: longs). rewrite Hts.
    split; [done|]. split; [done|]. split; [done|]. split.
    { intros t0. rewrite Hs, lookup_insert_is_Some, lookup_empty, elem_of_cons.
      pose proof (is_Some_None (A := slope)).
      destruct (decide (t = t0)); intuition congruence. }
    split; [by etrans|]. split; [simpl; lia|]. split; [by constructor|].
    intros t' ts' [= <- <-]. simpl. rewrite (cons_middle _ (msd_figure_start _ _ _)), app_assoc.
    assert (msd_figure j t long (figs wc)
            = msd_figure_start j t (figs w) ++ [msd_plot long t]) as Hm.
    { unfold msd_figure. by rewrite figs_with_rdf_lookup_two, Hfigs. }
    apply Hfig.
    + rewrite Hfigs2. unfold figs_after. by rewrite lookup_insert_eq, Hm.
    + by rewrite Hfs2, fs_after_msd_png, Hm.
Qed.

Lemma diffract_figs (b : list float) (pts : list vec3) (q_list q_list' : list quaternion)
  (q : quaternion) (w w' : world) :
  diffract quaternion_str j b pts q_list q w = (w', Ok q_list') ->
  dom (figs w) ⊆ dom (figs w') /\ (size (figs w) + 1 <= size (figs w'))%nat.
Proof.
  intros H. unfold diffract in H.
  rewrite bind_unfold in H. unfold Plt.figure_new at 1 in H.
  set (n := Plt.next_num (figs w)) in H.
  rewrite (bind_ok _ _ _ _ _
             (draw_run _ (Plt.set_figs (<[n:=[]]> (figs w)) (Some n) w) n eq_refl)) in H.
  apply bind_inv_ok in H as (w2 & [] & H2 & H).
  apply savefig_inv with (n := n) in H2; [|reflexivity].
  injection H as <- _. rewrite H2.
  cbn [fs doc figs gcf log Os.record Os.set_fs Plt.set_figs].
  rewrite (alter_lookup_insert _ _ []) by apply lookup_insert_eq.
  rewrite insert_insert_eq. split.
  - rewrite dom_insert. apply union_subseteq_r.
  - rewrite map_size_insert_None by apply next_num_fresh. lia.
Qed.

Lemma diffract_all_figs (b : list float) (pts : list vec3)
  (q_list q_list' qs : list quaternion) (w w' : world) :
  diffract_all quaternion_str j b pts q_list qs w = (w', Ok q_list') ->
  dom (figs w) ⊆ dom (figs w') /\ (size (figs w) + length qs <= size (figs w'))%nat.
Proof.
  revert q_list w. induction qs as [|q qs IH]; intros q_list w H.
  - injection H as <- _. split; [done|simpl; lia].
  - simpl in H. apply bind_inv_ok in H as (w1 & q_list1 & H1 & H).
    apply diffract_figs in H1 as [Hd1 Hz1]. apply IH in H as [Hd Hz].
    split; [by etrans|simpl; lia].
Qed.

Lemma diffraction_stage_figs (w1 w' : world) :
  diffraction_stage get_quaternions quaternion_str j (trajectory_path j) w1 = (w', Ok tt) ->
  dom (figs w1) ⊆ dom (figs w') /\
  (size (figs w1) + length get_quaternions <= size (figs w'))%nat.
Proof.
  intros H. unfold diffraction_stage in H.
  apply bind_inv_ok in H as (w0 & traj & [-> Htr]%gsd_open_inv & H).
  apply bind_inv_ok in H as (w0 & snap & [-> Hsnap]%lift_inv & H).
  apply bind_inv_ok in H as (wa & [] & Ha & H).
  apply bind_inv_ok in H as (wb & q_list & Hb & H).
  apply mkdir_inv in Ha as [_ Ha].
  apply diffract_all_figs in Hb.
  apply (np_save_inv _ _ _ _ _ (dp_npy_ext j)) in H.
  rewrite H. cbn [fs doc figs gcf log Os.record Os.set_fs Plt.set_figs].
  by rewrite Ha in Hb.
Qed.

Lemma post_proc_collision_first (w : world) (first : frame) (traj : list frame) :
  fs w !! trajectory_path j = Some (File (Gsd (first :: traj))) ->
  is_Some (fs w !! rdf_txt_dir j) ->
  post_proc get_quaternions quaternion_str j w = (w, Raise FileExistsError).
Proof.
  intros Htr [n Hn]. unfold post_proc. fold (trajectory_path j).
  assert (rdf_msd_stage j (trajectory_path j) w = (w, Raise FileExistsError)) as Hs.
  { unfold rdf_msd_stage. rewrite (bind_ok _ _ _ _ _ (gsd_open_run _ _ _ Htr)).
    rewrite bind_unfold. unfold lift at 1, Py.index. cbn [lookup list_lookup].
    rewrite bind_unfold. unfold Os.makedirs at 1. fold (rdf_txt_dir j). by rewrite Hn. }
  by rewrite (bind_raise _ _ _ _ _ Hs).
Qed.

(** A run either stops before it has changed anything, or leaves the first
    output directory behind. *)
Lemma post_proc_first_dir (w w1 : world) (r : result unit) :
  post_proc get_quaternions quaternion_str j w = (w1, r) ->
  (w1 = w /\ exists e, r = Raise e) \/
  (exists first traj,
     fs w !! trajectory_path j = Some (File (Gsd (first :: traj))) /\
     is_Some (fs w1 !! rdf_txt_dir j)).
Proof.
  intros H. unfold post_proc in H. rewrite bind_unfold in H.
  fold (trajectory_path j) in H.
  destruct (rdf_msd_stage j (trajectory_path j) w) as [wa ra] eqn:Hs.
  unfold rdf_msd_stage in Hs. rewrite bind_unfold in Hs.
  destruct (gsd_open (trajectory_path j) w) as [w0 [f|e]] eqn:Ho.
  2:{ apply gsd_open_same in Ho as ->. injection Hs as <- <-. injection H as <- <-.
      left. eauto. }
  apply gsd_open_inv in Ho as [-> Hw].
  rewrite bind_unfold in Hs. unfold lift at 1, Py.index in Hs.
  destruct f as [|first traj]; cbn [lookup list_lookup] in Hs.
  { injection Hs as <- <-. injection H as <- <-. left. eauto. }
  rewrite bind_unfold in Hs. fold (rdf_txt_dir j) in Hs.
  destruct (Os.makedirs (rdf_txt_dir j) w) as [w2 [[]|e]] eqn:Hmk.
  2:{ apply makedirs_raise in Hmk as ->. injection Hs as <- <-. injection H as <- <-.
      left. eauto. }
  right. exists first, traj. split; [done|].
  apply makedirs_inv in Hmk as [_ Hw2].
  assert (is_Some (fs w2 !! rdf_txt_dir j)) as H2.
  { rewrite Hw2. cbn [fs Os.record Os.set_fs]. rewrite lookup_insert_eq. by eexists. }
  assert (is_Some (fs wa !! rdf_txt_dir j)) as Ha.
  { match type of Hs with ?m w2 = _ => assert (keeps owned_rdf_msd j m) as K end.
    { apply keeps_bind; [by apply keeps_makedirs, touched_rdf_msd|]. intros _.
      apply keeps_bind; [by apply keeps_makedirs, touched_rdf_msd|]. intros _.
      apply keeps_bind; [apply keeps_analyse_types|]. intros slopes.
      apply keeps_doc_set. }
    destruct (K _ _ _ Hs) as (_ & He & _). by apply He. }
  destruct ra as [[]|e].
  - destruct (keeps_diffraction_stage _ _ _ _ _ _ H) as (_ & He & _). by apply He.
  - by injection H as <- _.
Qed.

(** X12: [post_proc] cannot be run twice.  Whatever a run has done, the
    next run on the world it leaves raises; and when the first run has
    done anything at all (it has logged an effect), the next one raises
    [FileExistsError]: a run that failed half way cannot be retried without
    a cleanup either. *)
Theorem post_proc_rerun_fails (w w1 : world) (r : result unit) :
  post_proc get_quaternions quaternion_str j w = (w1, r) ->
  (exists e, (post_proc get_quaternions quaternion_str j w1).2 = Raise e) /\
  (log w1 <> log w ->
   (post_proc get_quaternions quaternion_str j w1).2 = Raise FileExistsError).
Proof.
  intros H.
  destruct (keeps_post_proc _ _ _ _ _ _ H) as (Hf & _).
  pose proof (Hf _ (foreign_trajectory j)) as Htr.
  destruct (post_proc_first_dir _ _ _ H) as [[-> [e ->]]|(first & traj & Hw & Hd)].
  - rewrite H. split; [by exists e|done].
  - rewrite Hw in Htr. rewrite (post_proc_collision_first _ _ _ Htr Hd).
    split; [by eexists|done].
Qed.

(** X13: the only key of the job document that [post_proc] sets is
    [msd_slopes]; every other key is what it was, whatever the outcome.
    After a successful run [msd_slopes] is a new dictionary whose keys are
    exactly the types of the first frame: slopes of an earlier run are
    replaced, not merged. *)
Theorem post_proc_document (w w' : world) (r : result unit) :
  post_proc get_quaternions quaternion_str j w = (w', r) ->
  (forall key, key <> "msd_slopes" -> doc w' !! key = doc w !! key) /\
  (r = Ok tt ->
   exists traj first slopes,
     fs w !! fn j "trajectory.gsd" = Some (File (Gsd traj)) /\
     traj !! 0%nat = Some first /\
     doc w' !! "msd_slopes" = Some (DSlopes slopes) /\
     forall t, is_Some (slopes !! t) <-> t ∈ types first).
Proof.
  intros H. split.
  { by destruct (keeps_post_proc _ _ _ _ _ _ H) as (_ & _ & Hd & _). }
  intros ->. unfold post_proc in H.
  apply bind_inv_ok in H as (w1 & [] & H1 & H2).
  apply rdf_msd_stage_trace in H1
    as (traj & first & slopes & longs & Htr & Hfirst & Hdoc & Hs & _).
  apply diffraction_stage_run in H2 as (_ & _ & _ & _ & Hd & _).
  exists traj, first, slopes. repeat split; try done; try apply Hs.
  rewrite Hd, Hdoc. apply lookup_insert_eq.
Qed.

(** X14: what [msd/msd.png] shows after a successful run: what figure 2
    held when the first MSD curve was drawn, followed by one MSD curve per
    type of the first frame, in the order of the types.  Figure 2 is never
    cleared: it keeps what an earlier use in the same process left on it,
    and it is the first RDF figure when [plt.figure()] numbers that one
    2. *)
Theorem post_proc_msd_figure (w w' : world) (traj : list frame) (first : frame)
  (t : string) (ts : list string) :
  post_proc get_quaternions quaternion_str j w = (w', Ok tt) ->
  fs w !! fn j "trajectory.gsd" = Some (File (Gsd traj)) ->
  traj !! 0%nat = Some first ->
  types first = t :: ts ->
  exists longs,
    Forall2 (λ t long, msd_of traj (-30) (-1) t "window" = Ok long) (t :: ts) longs /\
    fs w' !! Os.path_join (ws j) "msd/msd.png"
    = Some (File (Png (msd_figure_start j t (figs w)
                         ++ zip_with msd_plot longs (t :: ts)))).
Proof.
  intros H Htr Hfirst Hts. unfold post_proc in H.
  apply bind_inv_ok in H as (w1 & [] & H1 & H2).
  apply rdf_msd_stage_trace in H1
    as (traj' & first' & slopes & longs & Htr' & Hfirst' & _ & _ & _ & _ & Hl & Hpng).
  fold (trajectory_path j) in Htr. assert (traj' = traj) as -> by congruence.
  assert (first' = first) as -> by congruence.
  destruct (keeps_diffraction_stage _ _ _ _ _ _ H2) as (Hf & _).
  exists longs. rewrite <- Hts. split; [done|].
  fold (msd_png j). rewrite Hf; [by apply Hpng with ts|].
  by apply foreign_rdf_msd_key.
Qed.

(** X15: [post_proc] closes no figure.  After a successful run every figure
    that was open is still open, and there is at least one more per type
    of the first frame and one more per orientation. *)
Theorem post_proc_keeps_figures_open (w w' : world) (traj : list frame) (first : frame) :
  post_proc get_quaternions quaternion_str j w = (w', Ok tt) ->
  fs w !! fn j "trajectory.gsd" = Some (File (Gsd traj)) ->
  traj !! 0%nat = Some first ->
  dom (figs w) ⊆ dom (figs w') /\
  (size (figs w) + length (types first) + length get_quaternions <= size (figs w'))%nat.
Proof.
  intros H Htr Hfirst. unfold post_proc in H.
  apply bind_inv_ok in H as (w1 & [] & H1 & H2).
  apply rdf_msd_stage_trace in H1
    as (traj' & first' & slopes & longs & Htr' & Hfirst' & _ & _ & Hd1 & Hz1 & _).
  fold (trajectory_path j) in Htr. assert (traj' = traj) as -> by congruence.
  assert (first' = first) as -> by congruence.
  apply diffraction_stage_figs in H2 as [Hd2 Hz2].
  split; [by etrans|lia].
Qed.

(** X16: [post_proc] is not atomic.  When the first stage succeeds and
    [diffraction_plots] exists, the run raises [FileExistsError] and the
    world it leaves is the one after the first stage: the directories, the
    artifacts and the document entry of that stage stay. *)
Theorem post_proc_not_atomic (w w1 : world) :
  rdf_msd_stage j (fn j "trajectory.gsd") w = (w1, Ok tt) ->
  is_Some (fs w !! Os.path_join (ws j) "diffraction_plots") ->
  post_proc get_quaternions quaternion_str j w = (w1, Raise FileExistsError) /\
  is_Some (doc w1 !! "msd_slopes") /\
  is_Some (fs w1 !! Os.path_join (ws j) "rdf/rdf_txt_files") /\
  log w1 <> log w.
Proof.
  intros H Hd. fold (trajectory_path j) in H.
  destruct (keeps_rdf_msd_stage _ _ _ _ H) as (_ & He & _).
  destruct (rdf_msd_stage_run _ _ _ H)
    as (traj & snap & slopes & chunks & Htr & Hsnap & Htr1 & _ & Hdoc & _ & Hlog & Hdir).
  split; [|split; [|split]].
  - unfold post_proc. fold (trajectory_path j). rewrite (bind_ok _ _ _ _ _ H).
    unfold diffraction_stage. rewrite (bind_ok _ _ _ _ _ (gsd_open_run _ _ _ Htr1)).
    rewrite bind_unfold. unfold lift at 1, Py.index_last.
    destruct (last traj) as [final|] eqn:L.
    2:{ apply last_None in L. by subst traj. }
    rewrite bind_unfold. unfold Os.mkdir at 1. destruct (He _ Hd) as [n ->]. done.
  - rewrite Hdoc, lookup_insert_eq. by eexists.
  - exact Hdir.
  - rewrite Hlog. intros E. apply (f_equal length) in E.
    rewrite !length_app in E. simpl in E. lia.
Qed.

End PostProcMore.

Lemma post_proc_rerun_fails_witness :
  (post_proc two_views view_str job0 world_analysed).2 = Raise FileExistsError.
Proof.
  destruct (post_proc_rerun_fails two_views view_str job0 world0 world_analysed (Ok tt))
    as [_ H].
  - vm_compute. reflexivity.
  - apply H. vm_compute. discriminate.
Defined.

Lemma post_proc_document_witness :
  doc world_analysed !! "steps" = doc world0 !! "steps".
Proof.
  destruct (post_proc_document two_views view_str job0 world0 world_analysed (Ok tt))
    as [H _].
  - vm_compute. reflexivity.
  - apply H. discriminate.
Defined.

Lemma post_proc_msd_figure_witness :
  exists longs,
    Forall2 (λ t long, msd_of traj0 (-30) (-1) t "window"
                       = Ok long) ["A"; "B"] longs /\
    fs world_analysed !! "/w/abc/msd/msd.png"
    = Some (File (Png ([] ++ zip_with msd_plot longs ["A"; "B"]))).
Proof.
  apply (post_proc_msd_figure two_views view_str job0 world0 world_analysed
           traj0 (frame_at 0) "A" ["B"]).
  - vm_compute. reflexivity.
  - reflexivity.
  - reflexivity.
  - reflexivity.
Defined.

Lemma post_proc_keeps_figures_open_witness :
  (size (figs world0) + 2 + 2 <= size (figs world_analysed))%nat.
Proof.
  apply (post_proc_keeps_figures_open two_views view_str job0 world0 world_analysed
           traj0 (frame_at 0)).
  - vm_compute. reflexivity.
  - reflexivity.
  - reflexivity.
Defined.

Lemma post_proc_not_atomic_witness :
  post_proc two_views view_str job0 world_left_over
  = ((rdf_msd_stage job0 (fn job0 "trajectory.gsd") world_left_over).1,
     Raise FileExistsError).
Proof.
  apply (post_proc_not_atomic two_views view_str job0 world_left_over).
  - vm_compute. reflexivity.
  - vm_compute. by eexists.
Defined.

(** ** Normal paths *)

Lemma plain_inv (c : string) :
  plain c = true ->
  c <> EmptyString /\ c <> "." /\ c <> ".." /\
  no_char (λ a, bool_decide (a = "/"%char)) c = true.
Proof.
  unfold plain. intros [H1 H2]%andb_true_iff.
  apply negb_true_iff, bool_decide_eq_false in H1. tauto.
Qed.

Lemma sep_join_cons (c : string) (cs : list string) :
  cs <> [] -> Path.sep_join (c :: cs) = c +:+ String "/" (Path.sep_join cs).
Proof. by destruct cs. Qed.

Lemma sep_join_app (xs ys : list string) :
  xs <> [] -> ys <> [] ->
  Path.sep_join (xs ++ ys) = Path.sep_join xs +:+ String "/" (Path.sep_join ys).
Proof.
  intros Hx Hy. induction xs as [|x xs IH]; [done|].
  destruct xs as [|x' xs].
  - simpl app. by rewrite sep_join_cons.
  - rewrite <- app_comm_cons, !sep_join_cons, IH, str_app_assoc, str_app_cons by done.
    done.
Qed.

Lemma split_sep_join (comps : list string) :
  Forall (λ c, no_char (λ a, bool_decide (a = "/"%char)) c = true) comps ->
  comps <> [] ->
  Py.split "/" (Path.sep_join comps) = comps.
Proof.
  induction 1 as [|c comps Hc _ IH]; [done|]. intros _.
  destruct comps as [|c' comps].
  - by apply split_no_sep.
  - rewrite sep_join_cons by done. rewrite split_sep by done. by rewrite IH.
Qed.

Lemma split_head (sep : ascii) (s : string) :
  Py.split sep (String sep s) = EmptyString :: Py.split sep s.
Proof. simpl. by rewrite decide_True. Qed.

Lemma norm_step_plain (n : nat) (acc : list string) (c : string) :
  plain c = true -> Path.norm_step n acc c = acc ++ [c].
Proof.
  intros (H1 & H2 & H3 & _)%plain_inv. unfold Path.norm_step.
  rewrite decide_False by (intros [?|?]; done). by rewrite decide_True by auto.
Qed.

Lemma norm_plain (n : nat) (acc cs : list string) :
  Forall (λ c, plain c = true) cs ->
  foldl (Path.norm_step n) acc cs = acc ++ cs.
Proof.
  intros H. revert acc. induction H as [|c cs Hc _ IH]; intros acc; simpl.
  - by rewrite app_nil_r.
  - by rewrite norm_step_plain, IH, <- app_assoc.
Qed.

(** Above a plain name, [..] takes the name away. *)
Lemma norm_step_up (n : nat) (acc : list string) (c : string) :
  plain c = true -> n <> 0%nat -> Path.norm_step n (acc ++ [c]) ".." = acc.
Proof.
  intros (H1 & H2 & H3 & _)%plain_inv Hn. unfold Path.norm_step.
  rewrite decide_False by (intros [?|?]; done).
  rewrite decide_False.
  - rewrite decide_True by (by destruct acc). apply removelast_last.
  - rewrite last_snoc. intros [?|[[? _]|[_ ?]]]; simplify_eq.
Qed.

Lemma endswith_slash_app (p c : string) :
  c <> EmptyString -> no_char (λ a, bool_decide (a = "/"%char)) c = true ->
  Os.endswith "/" (p +:+ c) = false.
Proof.
  intros Hne Hc. unfold Os.endswith. rewrite str_rev_app_distr.
  rewrite <- no_char_rev in Hc.
  destruct (String.rev c) as [|a r] eqn:E.
  - apply (f_equal String.length) in E. rewrite str_rev_length in E.
    by destruct c.
  - rewrite str_app_cons. simpl in *.
    apply andb_true_iff in Hc as [Ha _].
    apply negb_true_iff, bool_decide_eq_false in Ha.
    by rewrite decide_False by congruence.
Qed.

Lemma startswith_slash_plain (c r : string) :
  plain c = true -> Py.startswith "/" (c +:+ r) = false.
Proof.
  intros (H1 & _ & _ & H4)%plain_inv. destruct c as [|a c]; [done|].
  rewrite str_app_cons. simpl in *.
  apply andb_true_iff in H4 as [Ha _].
  apply negb_true_iff, bool_decide_eq_false in Ha.
  by rewrite decide_False by congruence.
Qed.

Lemma sep_join_head (c : string) (cs : list string) :
  exists r, Path.sep_join (c :: cs) = c +:+ r.
Proof.
  destruct cs.
  - exists EmptyString. simpl. by rewrite str_app_nil_r.
  - eexists. by rewrite sep_join_cons.
Qed.

Lemma sep_join_last (cs : list string) (c : string) :
  exists p, Path.sep_join (cs ++ [c]) = p +:+ c.
Proof.
  destruct cs as [|c0 cs].
  - by exists EmptyString.
  - rewrite sep_join_app by done. simpl.
    exists (Path.sep_join (c0 :: cs) +:+ "/"). by rewrite str_app_assoc.
Qed.

(** An absolute path of plain names is normal, and two [..] after it take
    its last two names away. *)
Lemma normpath_up_up (root rel : list string) (a b : string) :
  Forall (λ c, plain c = true) (root ++ [a; b] ++ rel) ->
  rel <> [] ->
  Path.normpath ("/" +:+ Path.sep_join (root ++ [a; b]) +:+ "/../../" +:+ Path.sep_join rel)
  = "/" +:+ Path.sep_join (root ++ rel).
Proof.
  intros Hall Hrel.
  apply Forall_app in Hall as [Hroot Hall]. apply Forall_app in Hall as [Hab Hrel'].
  apply Forall_cons in Hab as [Ha Hab]. apply Forall_cons in Hab as [Hb _].
  assert ("/" +:+ Path.sep_join (root ++ [a; b]) +:+ "/../../" +:+ Path.sep_join rel
          = String "/" (Path.sep_join ((root ++ [a; b]) ++ [".."; ".."] ++ rel))) as ->.
  { rewrite (sep_join_app (root ++ [a; b])) by (done || by destruct root).
    rewrite (sep_join_app [".."; ".."]) by done.
    reflexivity. }
  unfold Path.normpath. rewrite decide_False by done.
  assert (Path.initial_slashes
            (String "/" (Path.sep_join ((root ++ [a; b]) ++ [".."; ".."] ++ rel))) = 1%nat)
    as ->.
  { unfold Path.initial_slashes. cbn [Py.startswith]. rewrite decide_True by done.
    assert (exists c cs, (root ++ [a; b]) ++ [".."; ".."] ++ rel = c :: cs /\ plain c = true)
      as (c & cs & -> & Hc).
    { destruct root as [|c root]; [by exists a; eexists|].
      apply Forall_cons in Hroot as [Hc _]. exists c. by eexists. }
    destruct (sep_join_head c cs) as [r ->].
    cbn [Py.startswith]. rewrite decide_True by done.
    fold (Py.startswith "/" (c +:+ r)). by rewrite startswith_slash_plain. }
  rewrite split_head, split_sep_join.
  2:{ rewrite !Forall_app. repeat split.
      - eapply Forall_impl; [exact Hroot|]. by intros c (_ & _ & _ & ?)%plain_inv.
      - repeat constructor; by apply plain_inv.
      - by repeat constructor.
      - eapply Forall_impl; [exact Hrel'|]. by intros c (_ & _ & _ & ?)%plain_inv. }
  2:{ by destruct root. }
  assert (foldl (Path.norm_step 1) [] (EmptyString :: (root ++ [a; b]) ++ [".."; ".."] ++ rel)
          = root ++ rel) as ->.
  { change (foldl ?f [] (EmptyString :: ?l)) with (foldl f (f [] EmptyString) l).
    change (Path.norm_step 1 [] EmptyString) with (@nil string).
    rewrite !foldl_app.
    rewrite (norm_plain _ [] root) by done.
    rewrite (norm_plain _ _ [a; b]) by (by repeat constructor).
    change (foldl ?f ?x [".."; ".."]) with (f (f x "..") "..").
    rewrite app_nil_l. change (root ++ [a; b]) with (root ++ [a] ++ [b]).
    rewrite app_assoc.
    rewrite norm_step_up by done. rewrite norm_step_up by done.
    by rewrite norm_plain. }
  change (Path.slashes 1 +:+ ?x) with (String "/" x).
  by rewrite decide_False.
Qed.

Section InputsFacts.

Variable COMPOUND : gmap string string.

(** X17: where [get_paths] looks for a structure that is neither a name of
    [COMPOUND] nor a file as it is spelled.  For a workspace
    [/root/.../workspace/id] and a relative [key], both made of plain
    names, the path it tries is [/root/.../key], two directories above the
    workspace, as the comment in the code says; it returns that path when a
    file is there and [key] itself, taken for a SMILES string, when not.
    Each case prints its one line. *)
Theorem get_paths_project_root (cwd : string) (w : world) (j : job)
  (out : list string) (root rel : list string) (wsdir id : string) :
  Forall (λ c, plain c = true) (root ++ [wsdir; id] ++ rel) ->
  rel <> [] ->
  ws j = "/" +:+ Path.sep_join (root ++ [wsdir; id]) ->
  COMPOUND !! Path.sep_join rel = None ->
  Os.isfile (Path.sep_join rel) w = false ->
  let key := Path.sep_join rel in
  let file_path := "/" +:+ Path.sep_join (root ++ rel) in
  get_paths COMPOUND cwd w key j out =
  if Os.isfile file_path w then
    (out ++ ["Using " +:+ file_path +:+ " for structure"], Ok file_path)
  else
    (out ++ ["Using " +:+ key +:+ " for structure--assuming SMILES input"], Ok key).
Proof.
  intros Hall Hrel Hws Hc Hkey. cbv zeta. unfold get_paths. rewrite Hc, Hkey.
  assert (Path.abspath cwd (Path.join (ws j) [".."; ".."; Path.sep_join rel])
          = "/" +:+ Path.sep_join (root ++ rel)) as ->.
  { rewrite <- (normpath_up_up root rel wsdir id Hall Hrel).
    assert (Path.join (ws j) [".."; ".."; Path.sep_join rel]
            = "/" +:+ Path.sep_join (root ++ [wsdir; id]) +:+ "/../../" +:+ Path.sep_join rel)
      as ->.
    { unfold Path.join. cbn [foldl]. rewrite Hws.
      apply Forall_app in Hall as [_ Hall]. apply Forall_app in Hall as [Hab Hrel'].
      apply Forall_cons in Hab as [_ Hab]. apply Forall_cons in Hab as [Hid _].
      destruct (plain_inv _ Hid) as (Hid1 & _ & _ & Hid2).
      destruct (sep_join_last (root ++ [wsdir]) id) as [p Hp].
      rewrite <- app_assoc in Hp. simpl in Hp.
      assert (Os.path_join ("/" +:+ Path.sep_join (root ++ [wsdir; id])) ".."
              = "/" +:+ Path.sep_join (root ++ [wsdir; id]) +:+ "/..") as ->.
      { rewrite path_join_relative by done. unfold base.
        rewrite decide_False by done. rewrite Hp.
        change ("/" +:+ p +:+ id) with (String "/" p +:+ id).
        rewrite endswith_slash_app by done. by rewrite !str_app_assoc. }
      assert (Os.path_join ("/" +:+ Path.sep_join (root ++ [wsdir; id]) +:+ "/..") ".."
              = "/" +:+ Path.sep_join (root ++ [wsdir; id]) +:+ "/../..") as ->.
      { rewrite path_join_relative by done. unfold base.
        rewrite decide_False by done.
        change ("/" +:+ Path.sep_join (root ++ [wsdir; id]) +:+ "/..")
          with (String "/" (Path.sep_join (root ++ [wsdir; id]) +:+ "/..")).
        rewrite <- (str_app_cons "/").
        change (String "/" (Path.sep_join (root ++ [wsdir; id])) +:+ "/..")
          with (String "/" (Path.sep_join (root ++ [wsdir; id])) +:+ ("/" +:+ "..")).
        rewrite <- str_app_assoc, endswith_slash_app by done.
        by rewrite !str_app_assoc. }
      destruct rel as [|c rel]; [done|]. apply Forall_cons in Hrel' as [Hc' _].
      destruct (sep_join_head c rel) as [r Hr].
      rewrite path_join_relative by (rewrite Hr; by apply startswith_slash_plain).
      unfold base. rewrite decide_False by done.
      change ("/" +:+ Path.sep_join (root ++ [wsdir; id]) +:+ "/../..")
        with (String "/" (Path.sep_join (root ++ [wsdir; id]) +:+ "/../..")).
      rewrite <- (str_app_cons "/").
      change (String "/" (Path.sep_join (root ++ [wsdir; id])) +:+ "/../..")
        with (String "/" (Path.sep_join (root ++ [wsdir; id])) +:+ ("/../" +:+ "..")).
      rewrite <- str_app_assoc, endswith_slash_app by done.
      by rewrite !str_app_assoc. }
    unfold Path.abspath. done. }
  destruct (Os.isfile ("/" +:+ Path.sep_join (root ++ rel)) w); reflexivity.
Qed.

(** X18: an absolute [key] in normal form that is not a name of [COMPOUND]
    is returned as it is, whatever the file system holds: [os.path.join]
    drops the workspace in front of an absolute path, so the second place
    is the first one again. *)
Theorem get_paths_absolute (cwd : string) (w : world) (j : job) (key : string)
  (out : list string) :
  Py.startswith "/" key = true ->
  Path.normpath key = key ->
  COMPOUND !! key = None ->
  exists line, get_paths COMPOUND cwd w key j out = (out ++ [line], Ok key).
Proof.
  intros Habs Hnorm Hc. unfold get_paths. rewrite Hc.
  assert (Path.abspath cwd (Path.join (ws j) [".."; ".."; key]) = key) as ->.
  { assert (forall a, Os.path_join a key = key) as Hj.
    { intros a. unfold Os.path_join. by rewrite Habs. }
    unfold Path.join, Path.abspath. cbn [foldl]. by rewrite Hj, Habs. }
  destruct (Os.isfile key w); by eexists.
Qed.

End InputsFacts.

Lemma get_paths_project_root_witness :
  get_paths ∅ "/proj/workspace/abc" world_flow "inputs/p3ht.mol2" job_flow []
  = (["Using /proj/inputs/p3ht.mol2 for structure"], Ok "/proj/inputs/p3ht.mol2").
Proof.
  apply (get_paths_project_root ∅ "/proj/workspace/abc" world_flow job_flow []
           ["proj"] ["inputs"; "p3ht.mol2"] "workspace" "abc").
  - repeat constructor.
  - discriminate.
  - reflexivity.
  - reflexivity.
  - reflexivity.
Defined.

Lemma get_paths_absolute_witness :
  exists line,
    get_paths ∅ "/proj/workspace/abc" world_flow "/opt/structures/x.mol2" job_flow []
    = ([] ++ [line], Ok "/opt/structures/x.mol2").
Proof.
  apply (get_paths_absolute ∅ "/proj/workspace/abc" world_flow job_flow
           "/opt/structures/x.mol2" []); reflexivity.
Defined.

(** ** Reading the log files *)

Section ThroughputFacts.

Variable wide_hms : list Z -> result string.
Variable decode : content -> result string.
Variable glob : string -> world -> list string.

Lemma scan_read (outfiles : list string) (contents : list (list string))
  (w : world) (l : locals) :
  Forall2 (λ ofile lines, open_readlines decode ofile w = Ok lines) outfiles contents ->
  for_each outfiles
    (λ ofile, lines ← lift (open_readlines decode ofile w); parse_log lines) l
  = for_each contents parse_log l.
Proof.
  intros H. revert l. induction H as [|ofile lines outfiles contents Hr _ IH]; intros l.
  - done.
  - simpl. rewrite !bind_unfold. unfold lift at 1. rewrite Hr.
    destruct (parse_log lines l) as [l1 [[]|e]]; [apply IH|done].
Qed.

(** X20: a directory among the names makes [get_tps_time] raise
    [IsADirectoryError] when its turn comes, the files before it having
    well-formed times: [open] is outside the [try] block. *)
Theorem get_tps_time_files_directory (before after : list string) (ofile : string)
  (contents : list (list string)) (w : world) :
  Forall2 (λ ofile lines, open_readlines decode ofile w = Ok lines) before contents ->
  Forall (λ f, counted f = true -> exists t, file_seconds f = Ok t) contents ->
  fs w !! ofile = Some Dir ->
  get_tps_time_files wide_hms decode (before ++ ofile :: after) w
  = Raise IsADirectoryError.
Proof.
  intros Hread Hok Hdir. unfold get_tps_time_files.
  rewrite for_each_app, (scan_read _ _ _ _ Hread).
  rewrite (for_each_parse_log _ _ _ (counted_seconds_spec _ Hok)).
  simpl. rewrite !bind_unfold. unfold lift at 1, open_readlines. by rewrite Hdir.
Qed.

(** X21: at the end of [sample], when [glob] finds log files and none of
    them has a throughput-marker line, the operation raises
    [UnboundLocalError], after the simulation has run, and writes neither
    [average_TPS] nor [total_time]. *)
Theorem record_throughput_unbound (j : job) (w : world) :
  glob (ws j +:+ "/job*.o") w <> [] ->
  Forall (λ ofile, exists lines, open_readlines decode ofile w = Ok lines /\
                                 has_tps_marker lines = false)
    (glob (ws j +:+ "/job*.o") w) ->
  record_throughput wide_hms decode glob j w = (w, Raise UnboundLocalError).
Proof.
  intros Hne Hall. unfold record_throughput. rewrite bind_unfold. unfold get.
  rewrite decide_False by done. rewrite bind_unfold. unfold lift at 1.
  assert (get_tps_time_files wide_hms decode (glob (ws j +:+ "/job*.o") w) w
          = Raise UnboundLocalError) as ->; [|done].
  unfold get_tps_time_files.
  assert (forall l, for_each (glob (ws j +:+ "/job*.o") w)
            (λ ofile, lines ← lift (open_readlines decode ofile w); parse_log lines) l
          = (l, Ok tt)) as ->; [|done].
  clear Hne.
  induction Hall as [|ofile outfiles (lines & Hr & Ht) _ IH]; intros l; [done|].
  simpl. rewrite !bind_unfold. unfold lift at 1. rewrite Hr.
  rewrite (parse_log_no_tps _ _ Ht). apply IH.
Qed.

End ThroughputFacts.

Lemma get_tps_time_files_directory_witness :
  get_tps_time_files no_wide_hms no_decode
    (["/w/abc/job1.o"] ++ "/w/abc/job_old.o" :: []) world_logs_dir
  = Raise IsADirectoryError.
Proof.
  apply (get_tps_time_files_directory no_wide_hms no_decode ["/w/abc/job1.o"] []
           "/w/abc/job_old.o" [run_log ("120", 1815)] world_logs_dir).
  - repeat constructor; vm_compute; reflexivity.
  - apply Forall_cons. split; [|by apply Forall_nil].
    intros _. exists 1815. vm_compute. reflexivity.
  - reflexivity.
Defined.

Lemma record_throughput_unbound_witness :
  record_throughput no_wide_hms no_decode glob_logs job0 world_analysis_log
  = (world_analysis_log, Raise UnboundLocalError).
Proof.
  apply record_throughput_unbound.
  - vm_compute. discriminate.
  - vm_compute. apply Forall_cons. split; [|by apply Forall_nil].
    eexists. split; vm_compute; reflexivity.
Defined.

(** ** Reading back the logs of runs *)

Lemma no_char_impl (p q : ascii -> bool) (s : string) :
  (forall c, q c = true -> p c = true) -> no_char p s = true -> no_char q s = true.
Proof.
  intros Hpq. induction s as [|c s IH]; [done|]. simpl.
  intros [Hc Hs]%andb_true_iff. rewrite IH by done.
  destruct (q c) eqn:E; [|done]. by rewrite (Hpq _ E) in Hc.
Qed.

Lemma universal_newlines_id (s : string) :
  no_char (λ c, bool_decide (c = Io.CR)) s = true -> Io.universal_newlines s = s.
Proof.
  induction s as [|c s IH]; [done|]. simpl.
  intros [Hc Hs]%andb_true_iff. apply negb_true_iff, bool_decide_eq_false in Hc.
  rewrite decide_False by done. by rewrite IH.
Qed.

Lemma readlines_line (a rest : string) :
  no_char (λ c, bool_decide (c = Io.LF)) a = true ->
  Io.readlines (a +:+ String Io.LF rest)
  = (a +:+ String Io.LF EmptyString) :: Io.readlines rest.
Proof.
  induction a as [|c a IH].
  - intros _. reflexivity.
  - rewrite !str_app_cons. cbn [Io.readlines no_char].
    intros [Hc Ha]%andb_true_iff. apply negb_true_iff, bool_decide_eq_false in Hc.
    rewrite decide_False by done. by rewrite IH.
Qed.

(** The text of the log of a run reads as its two lines. *)
Lemma readlines_run_text (v : string) (t : Z) :
  0 <= t ->
  no_char (λ c, bool_decide (c = Io.CR \/ c = Io.LF)) v = true ->
  Io.readlines (Io.universal_newlines (run_text (v, t))) = run_log (v, t).
Proof.
  intros Ht Hv.
  assert (no_char (λ c, bool_decide (c = Io.CR)) v = true) as HvCR.
  { apply (no_char_impl _ _ _ (λ c H, bool_decide_eq_true_2 _ (or_introl
             (bool_decide_eq_true_1 _ H))) Hv). }
  assert (no_char (λ c, bool_decide (c = Io.LF)) v = true) as HvLF.
  { apply (no_char_impl _ _ _ (λ c H, bool_decide_eq_true_2 _ (or_intror
             (bool_decide_eq_true_1 _ H))) Hv). }
  assert (no_char (λ c, bool_decide (c = Io.CR)) (hms_of_total t) = true) as HhCR.
  { apply hms_no_char; [done| |done]. intros c Hc. by apply digit_is_not. }
  assert (no_char (λ c, bool_decide (c = Io.LF)) (hms_of_total t) = true) as HhLF.
  { apply hms_no_char; [done| |done]. intros c Hc. by apply digit_is_not. }
  assert (run_text (v, t)
          = ("Average TPS: " +:+ v) +:+
            String Io.LF (("Time " +:+ hms_of_total t) +:+ String Io.LF EmptyString)) as E.
  { unfold run_text, nl. cbn [fst snd]. by rewrite !str_app_assoc. }
  rewrite universal_newlines_id
    by (rewrite E, !no_char_app; cbn [no_char]; rewrite !no_char_app, HvCR, HhCR; done).
  rewrite E, readlines_line by (by rewrite no_char_app, HvLF).
  rewrite readlines_line by (by rewrite no_char_app, HhLF).
  unfold run_log, nl. cbn [fst snd]. by rewrite !str_app_assoc.
Qed.

Section ThroughputRoundTrip.

Variable wide_hms : list Z -> result string.
Variable decode : content -> result string.
Variable glob : string -> world -> list string.

Lemma read_run_texts (w : world) (outfiles : list string) (runs : list (string * Z)) :
  Forall2 (λ ofile run, fs w !! ofile = Some (File (Other (run_text run))))
    outfiles runs ->
  Forall (λ run, run.1 <> EmptyString /\
                 Py.strip_chars "Average TPS:" run.1 = run.1 /\
                 Py.strip run.1 = run.1 /\ 0 <= run.2 < 2 ^ 63) runs ->
  Forall (λ run, no_char (λ c, bool_decide (c = Io.CR \/ c = Io.LF)) run.1 = true)
    runs ->
  Forall2 (λ ofile lines, open_readlines decode ofile w = Ok lines)
    outfiles (run_log <$> runs).
Proof.
  intros Hfiles Hall Hnl. apply Forall2_fmap_r.
  induction Hfiles as [|ofile [v0 t0] ofs rs Hf _ IH]; [constructor|].
  apply Forall_cons in Hall as [(_ & _ & _ & Ht0 & _) Hall].
  apply Forall_cons in Hnl as [Hv0 Hnl]. cbn [fst snd] in *.
  constructor; [|by apply IH].
  unfold open_readlines. rewrite Hf. cbn [read_text].
  by rewrite readlines_run_text.
Qed.

(** X23: the end of [sample] on a workspace whose log files are the logs of
    runs, each reporting a throughput and an elapsed time.  The document
    gets the throughput of the run that [glob] lists last as [average_TPS]
    and the rendering of the sum of the elapsed seconds as [total_time];
    the files are left alone. *)
Theorem record_throughput_reads_back (j : job) (w : world) (outfiles : list string)
  (runs : list (string * Z)) (v : string) (t : Z) :
  glob (ws j +:+ "/job*.o") w = outfiles ->
  Forall2 (λ ofile run, fs w !! ofile = Some (File (Other (run_text run))))
    outfiles (runs ++ [(v, t)]) ->
  Forall (λ run, run.1 <> EmptyString /\
                 Py.strip_chars "Average TPS:" run.1 = run.1 /\
                 Py.strip run.1 = run.1 /\ 0 <= run.2 < 2 ^ 63) (runs ++ [(v, t)]) ->
  Forall (λ run, no_char (λ c, bool_decide (c = Io.CR \/ c = Io.LF)) run.1 = true)
    (runs ++ [(v, t)]) ->
  Numpy.total ((runs ++ [(v, t)]).*2) < 2 ^ 63 ->
  exists w',
    record_throughput wide_hms decode glob j w = (w', Ok tt) /\
    fs w' = fs w /\
    doc w' = <["total_time" := DStr (hms_of_total (Numpy.total ((runs ++ [(v, t)]).*2)))]>
               (<["average_TPS" := DStr v]> (doc w)).
Proof.
  intros Hg Hfiles Hall Hnl Htot.
  pose proof (read_run_texts _ _ _ Hfiles Hall Hnl) as Hread.
  unfold record_throughput. rewrite bind_unfold. unfold get. rewrite Hg.
  rewrite decide_False.
  2:{ intros ->. apply Forall2_nil_inv_l in Hfiles. by destruct runs. }
  rewrite bind_unfold. unfold lift at 1.
  unfold get_tps_time_files. rewrite (scan_read _ _ _ _ _ Hread).
  rewrite (for_each_parse_log _ _ _ (run_logs_seconds _ Hall)).
  rewrite (run_logs_tps _ _ _ Hall). cbn [app].
  rewrite finish_int64; [|by apply Forall_fmap; eapply Forall_impl;
                            [exact Hall|]; intros ? (_ & _ & _ & ?)
                        |by destruct runs|done].
  eexists. split; [reflexivity|]. by split.
Qed.

End ThroughputRoundTrip.

Lemma record_throughput_reads_back_witness :
  exists w',
    record_throughput no_wide_hms no_decode glob_logs job0 world_logs = (w', Ok tt) /\
    fs w' = fs world_logs /\
    doc w' = <["total_time" := DStr (hms_of_total
                                       (Numpy.total (([("120", 1815)] ++ [("7.5", 5)]).*2)))]>
               (<["average_TPS" := DStr "7.5"]> (doc world_logs)).
Proof.
  apply (record_throughput_reads_back no_wide_hms no_decode glob_logs job0 world_logs
           ["/w/abc/job1.o"; "/w/abc/job2.o"] [("120", 1815)] "7.5" 5).
  - vm_compute. reflexivity.
  - repeat constructor.
  - apply Forall_cons. split; [repeat split; (discriminate || reflexivity || lia)|].
    apply Forall_cons. split; [repeat split; (discriminate || reflexivity || lia)|].
    by apply Forall_nil.
  - repeat constructor.
  - simpl. lia.
Defined.

(** ** The images of the orientations *)

Section DiffractionFiles.

Variable get_quaternions : list quaternion.
Variable quaternion_str : quaternion -> string.
Variable j : job.

Lemma diffract_fs (b : list float) (pts : list vec3) (q_list q_list' : list quaternion)
  (q : quaternion) (w w' : world) :
  diffract quaternion_str j b pts q_list q w = (w', Ok q_list') ->
  fs w' = <[diffraction_png quaternion_str j q
            := File (Png [DiffractionImage 1024 1024 b pts q])]> (fs w).
Proof.
  intros H. unfold diffract in H.
  rewrite bind_unfold in H. unfold Plt.figure_new at 1 in H.
  set (n := Plt.next_num (figs w)) in H.
  rewrite (bind_ok _ _ _ _ _
             (draw_run _ (Plt.set_figs (<[n:=[]]> (figs w)) (Some n) w) n eq_refl)) in H.
  apply bind_inv_ok in H as (w2 & [] & H2 & H).
  apply savefig_inv with (n := n) in H2; [|reflexivity].
  fold (diffraction_png quaternion_str j q) in H2.
  cbn [fs doc figs gcf log Os.record Os.set_fs Plt.set_figs] in H2.
  rewrite (alter_lookup_insert _ _ []) in H2 by apply lookup_insert_eq.
  rewrite lookup_insert_eq in H2. injection H as <- _.
  by rewrite H2.
Qed.

(** The loop leaves alone the names that are not the image of an
    orientation. *)
Lemma diffract_all_other (b : list float) (pts : list vec3)
  (q_list q_list' qs : list quaternion) (w w' : world) (p : string) :
  diffract_all quaternion_str j b pts q_list qs w = (w', Ok q_list') ->
  Forall (λ q, diffraction_png quaternion_str j q <> p) qs ->
  fs w' !! p = fs w !! p.
Proof.
  revert q_list w. induction qs as [|q qs IH]; intros q_list w H Hp.
  - by injection H as <- _.
  - simpl in H. apply bind_inv_ok in H as (w1 & q_list1 & H1 & H).
    apply Forall_cons in Hp as [Hq Hp].
    rewrite (IH _ _ H Hp), (diffract_fs _ _ _ _ _ _ _ H1).
    by rewrite lookup_insert_ne.
Qed.

(** Under the name of an orientation is the image of an orientation of
    that name. *)
Lemma diffract_all_files (b : list float) (pts : list vec3)
  (q_list q_list' qs : list quaternion) (w w' : world) (q : quaternion) :
  diffract_all quaternion_str j b pts q_list qs w = (w', Ok q_list') ->
  q ∈ qs ->
  exists q', q' ∈ qs /\
    diffraction_png quaternion_str j q' = diffraction_png quaternion_str j q /\
    fs w' !! diffraction_png quaternion_str j q
    = Some (File (Png [DiffractionImage 1024 1024 b pts q'])).
Proof.
  revert q q_list w. induction qs as [|q0 qs IH]; intros q q_list w H Hq.
  { by apply not_elem_of_nil in Hq. }
  simpl in H. apply bind_inv_ok in H as (w1 & q_list1 & H1 & H).
  destruct (decide (Exists (λ q2, diffraction_png quaternion_str j q2
                                  = diffraction_png quaternion_str j q) qs))
    as [Hex|Hno].
  - apply Exists_exists in Hex as (q2 & Hq2 & Heq).
    destruct (IH _ _ _ H Hq2) as (q' & Hq' & Hname & Hfs).
    exists q'. split; [by right|]. split; [congruence|]. by rewrite <- Heq.
  - apply not_Exists_Forall in Hno; [|intros ?; apply _].
    rewrite (diffract_all_other _ _ _ _ _ _ _ _ H Hno).
    apply elem_of_cons in Hq as [->|Hq].
    + exists q0. split; [by left|]. split; [done|].
      rewrite (diffract_fs _ _ _ _ _ _ _ H1). apply lookup_insert_eq.
    + rewrite Forall_forall in Hno. by destruct (Hno q Hq).
Qed.

Lemma dp_npy_ne_png (q : quaternion) : dp_npy j <> diffraction_png quaternion_str j q.
Proof. differ. Qed.

(** X24: after a successful run, the file named after an orientation holds
    the pattern of the final frame seen from an orientation of that name,
    alone on its figure.  When the orientations have distinct names each
    image is that of its own orientation; two orientations of one name
    share one file. *)
Theorem post_proc_diffraction_files (w w' : world) (traj : list frame) (final : frame)
  (q : quaternion) :
  post_proc get_quaternions quaternion_str j w = (w', Ok tt) ->
  fs w !! fn j "trajectory.gsd" = Some (File (Gsd traj)) ->
  last traj = Some final ->
  q ∈ get_quaternions ->
  exists q',
    q' ∈ get_quaternions /\ quaternion_str q' = quaternion_str q /\
    fs w' !! Os.path_join (ws j) ("diffraction_plots/" +:+ quaternion_str q +:+ ".png")
    = Some (File (Png [DiffractionImage 1024 1024 (box final)
                         (snd <$> particles final) q'])).
Proof.
  intros H Htr Hfinal Hq. unfold post_proc in H.
  apply bind_inv_ok in H as (w1 & [] & H1 & H2).
  apply rdf_msd_stage_run in H1 as (traj' & _ & _ & _ & Htr' & _ & Htr1 & _).
  fold (trajectory_path j) in Htr. assert (traj' = traj) as -> by congruence.
  unfold diffraction_stage in H2. fold (trajectory_path j) in H2.
  apply bind_inv_ok in H2 as (w0 & traj' & [-> Htr2]%gsd_open_inv & H2).
  assert (traj' = traj) as -> by congruence.
  apply bind_inv_ok in H2 as (w0 & snap & [-> Hsnap]%lift_inv & H2).
  unfold Py.index_last in Hsnap. rewrite Hfinal in Hsnap. injection Hsnap as <-.
  apply bind_inv_ok in H2 as (wa & [] & Ha & H2).
  apply bind_inv_ok in H2 as (wb & q_list & Hb & H2).
  fold (dp_npy j) in H2. apply (np_save_inv _ _ _ _ _ (dp_npy_ext j)) in H2.
  destruct (diffract_all_files _ _ _ _ _ _ _ _ Hb Hq) as (q' & Hq' & Hname & Hfs).
  exists q'. split; [done|]. split.
  - revert Hname. unfold diffraction_png. rewrite !path_eq by done.
    intros E%(inj (String.app _))%(inj (String.app _)).
    by apply str_app_inv_tail in E.
  - fold (diffraction_png quaternion_str j q). rewrite H2.
    cbn [fs doc figs gcf log Os.record Os.set_fs Plt.set_figs].
    rewrite lookup_insert_ne by apply dp_npy_ne_png. exact Hfs.
Qed.

End DiffractionFiles.

Lemma post_proc_diffraction_files_witness :
  exists q',
    q' ∈ two_views /\ view_str q' = view_str (0, 1, 0, 0)%float /\
    fs world_analysed !! "/w/abc/diffraction_plots/[0. 1. 0. 0.].png"
    = Some (File (Png [DiffractionImage 1024 1024 (box (frame_at 100))
                         (snd <$> particles (frame_at 100)) q'])).
Proof.
  apply (post_proc_diffraction_files two_views view_str job0 world0 world_analysed
           traj0 (frame_at 100) (0, 1, 0, 0)%float).
  - vm_compute. reflexivity.
  - reflexivity.
  - reflexivity.
  - right. left.
Defined.

(** ** The shape of the rendered time *)

Lemma format_02d_two_digits (z : Z) :
  0 <= z < 100 -> String.length (Py.format_02d z) = 2%nat.
Proof.
  intros Hz.
  assert (forallb (λ n, String.length (Py.format_02d (Z.of_nat n)) =? 2)%nat (seq 0 100)
          = true) as H by (vm_compute; reflexivity).
  rewrite forallb_forall in H. specialize (H (Z.to_nat z)).
  rewrite Z2Nat.id in H by lia. apply Nat.eqb_eq, H, in_seq. lia.
Qed.

Lemma format_02d_width (z : Z) : 0 <= z -> (2 <= String.length (Py.format_02d z))%nat.
Proof.
  intros Hz. unfold Py.format_02d.
  destruct (Z.ltb_spec z 0) as [?|_]; [lia|].
  destruct (Nat.ltb_spec (String.length (Py.decimal (Z.to_N z))) 2) as [Hl|Hl]; [|done].
  simpl. assert (Py.decimal (Z.to_N z) <> EmptyString) as Hne.
  { rewrite decimal_not_nil. pose proof (to_uint_not_nil (Z.to_N z)).
    by destruct (N.to_uint (Z.to_N z)). }
  destruct (Py.decimal (Z.to_N z)); [done|simpl; lia].
Qed.

(** X25: the shape of the time that [get_tps_time] renders.  For a total of
    [t] seconds it is hours, minutes and seconds that add up to [t]; the
    minutes and the seconds are below 60 and take two digits each; the
    hours are not reduced modulo 24 and take two digits or more. *)
Theorem hms_of_total_fields (t : Z) :
  0 <= t ->
  exists hh mm ss,
    hms_of_total t = Py.format_02d hh +:+ ":" +:+ Py.format_02d mm +:+ ":" +:+ Py.format_02d ss /\
    t = hh * 3600 + mm * 60 + ss /\
    0 <= hh /\ 0 <= mm < 60 /\ 0 <= ss < 60 /\
    (2 <= String.length (Py.format_02d hh))%nat /\
    String.length (Py.format_02d mm) = 2%nat /\
    String.length (Py.format_02d ss) = 2%nat.
Proof.
  intros Ht. exists (t / 3600), ((t - t / 3600 * 3600) / 60), (t mod 60).
  assert (0 <= t / 3600) as Hh by (apply Z.div_pos; lia).
  assert (t - t / 3600 * 3600 = t mod 3600) as Hm by (rewrite Z.mod_eq by lia; lia).
  pose proof (Z.mod_pos_bound t 3600 ltac:(lia)) as Hb.
  pose proof (Z.mod_pos_bound t 60 ltac:(lia)) as Hs.
  assert (0 <= (t - t / 3600 * 3600) / 60 < 60) as Hmm.
  { rewrite Hm. split; [apply Z.div_pos; lia|apply Z.div_lt_upper_bound; lia]. }
  split; [reflexivity|]. split.
  { assert (t mod 60 = (t - t / 3600 * 3600) mod 60) as ->.
    { replace (t - t / 3600 * 3600) with (t + (- 60 * (t / 3600)) * 60) by lia.
      by rewrite Z_mod_plus_full. }
    pose proof (Z.div_mod (t - t / 3600 * 3600) 60). lia. }
  repeat split; try lia.
  - by apply format_02d_width.
  - apply format_02d_two_digits. lia.
  - apply format_02d_two_digits. lia.
Qed.

Lemma hms_of_total_fields_witness :
  exists hh mm ss,
    hms_of_total 360000
    = Py.format_02d hh +:+ ":" +:+ Py.format_02d mm +:+ ":" +:+ Py.format_02d ss /\
    360000 = hh * 3600 + mm * 60 + ss /\
    0 <= hh /\ 0 <= mm < 60 /\ 0 <= ss < 60 /\
    (2 <= String.length (Py.format_02d hh))%nat /\
    String.length (Py.format_02d mm) = 2%nat /\
    String.length (Py.format_02d ss) = 2%nat.
Proof. apply hms_of_total_fields. lia. Defined.

(** ** What the analysis needs *)

Section PostProcNeeds.

Variable get_quaternions : list quaternion.
Variable quaternion_str : quaternion -> string.

(** X26: what a run of [post_proc] needs to succeed.  When it returns and
    the first frame has a type, the trajectory has ten frames or more and
    the type is not named [all].  With fewer frames [trajectory[-25:-9]] is
    empty, and for a type named [all] no positions are collected: [freud]
    is handed the empty list and raises in both cases, after the first
    artifacts have been written. *)
Theorem post_proc_needs_ten_frames (j : job) (w w' : world) (traj : list frame)
  (first : frame) (t : string) :
  post_proc get_quaternions quaternion_str j w = (w', Ok tt) ->
  fs w !! fn j "trajectory.gsd" = Some (File (Gsd traj)) ->
  traj !! 0%nat = Some first ->
  t ∈ types first ->
  (10 <= length traj)%nat /\ t <> "all".
Proof.
  intros Hrun Htr Hfirst Ht.
  destruct (post_proc_run _ _ _ _ _ Hrun)
    as (traj' & first' & final & slopes & chunks & Htr' & Hfirst' & _ & _ & _ & _
        & Hdone & _).
  unfold trajectory_path in Htr'. assert (traj' = traj) as -> by congruence.
  assert (first' = first) as -> by congruence.
  destruct Hdone as [Hnil|(f2 & _ & Hdone)].
  { rewrite Hnil in Ht. by apply not_elem_of_nil in Ht. }
  destruct (Hdone t Ht) as (long & short & _ & Hshort & _).
  apply msd_of_spec in Hshort as (Hall & Hne & _).
  split; [by apply short_range_frames|done].
Qed.

End PostProcNeeds.

Lemma post_proc_needs_ten_frames_witness :
  (10 <= length traj0)%nat /\ "B" <> "all".
Proof.
  apply (post_proc_needs_ten_frames two_views view_str job0 world0 world_analysed
           traj0 (frame_at 0) "B").
  - vm_compute. reflexivity.
  - reflexivity.
  - reflexivity.
  - right. left.
Defined.
